(** * Echoflare: ground-station signal and protocol pipeline

    A shallow embedding of the Python sources of the toolkit
    ([modem_g3ruh.py], [ax25.py], [proto.py], [robot36_decode.py] and
    the build commands of [cli.py]) together with the properties that
    the specification states about them.

    Conventions of the embedding.
    - A Python [int] is a [Z]; a [bytes] object is a [list Z] whose
      elements are byte values, a bit list is a [list Z] of 0s and 1s.
      Bit operations are the ones of [Z].
    - A Python [str] is the list of its code points.
    - A function that may raise returns a [result]: [Ok v] or
      [Raise e], [e] naming the exception class and its message (the
      formatted parts of a message are left out). *)

From Stdlib Require Import Floats Uint63.
From Stdlib Require Import String DecimalString ZArith List Sorted Lia Bool Arith.
Close Scope uint63_scope.
Close Scope float_scope.
Import ListNotations.
Local Open Scope Z_scope.

(** ** Exceptions and results *)

Inductive exn : Type :=
| ValueError (msg : string)
| DecodeError (msg : string)        (* proto.DecodeError, a ValueError *)
| UnicodeEncodeError
| UnicodeDecodeError
| StructError
| IndexError
| ZeroDivisionError
| WaveError (msg : string)
| RuntimeError (msg : string)
| SystemExit (msg : string).

Inductive result (A : Type) : Type :=
| Ok (v : A)
| Raise (e : exn).

Arguments Ok {A} v.
Arguments Raise {A} e.

Definition rbind {A B : Type} (r : result A) (k : A -> result B) : result B :=
  match r with
  | Ok v => k v
  | Raise e => Raise e
  end.

Declare Scope result_scope.
Delimit Scope result_scope with result.
Notation "x <- r ;; k" := (rbind r (fun x => k))
  (at level 61, r at next level, right associativity) : result_scope.
Notation "' p <- r ;; k" := (rbind r (fun p => k))
  (at level 61, p pattern, r at next level, right associativity) : result_scope.

Definition bytes := list Z.
Definition bits := list Z.
Definition pystr := list Z.

(** Truth value of an [int] in a condition. *)
Definition truthy (z : Z) : bool := negb (z =? 0).

Definition len {A : Type} (l : list A) : Z := Z.of_nat (length l).

(** [range(n)]. *)
Definition zrange (n : Z) : list Z := map Z.of_nat (seq 0 (Z.to_nat n)).

(** The slice [l[lo:hi]] for indices that are not negative. *)
Definition zslice {A : Type} (l : list A) (lo hi : Z) : list A :=
  firstn (Z.to_nat hi - Z.to_nat lo) (skipn (Z.to_nat lo) l).

(** [l[i]] for an index in range. *)
Definition znth (l : list Z) (i : Z) : Z := nth (Z.to_nat i) l 0.

(** The slices [l[:-n]] and [l[-n:]] for [0 < n]. *)
Definition drop_last {A : Type} (n : nat) (l : list A) : list A :=
  firstn (length l - n) l.

Definition take_last {A : Type} (n : nat) (l : list A) : list A :=
  skipn (length l - n) l.

Definition bytes_eqb (a b : bytes) : bool :=
  if list_eq_dec Z.eq_dec a b then true else false.

(** ** Bit utilities and CRC ([modem_g3ruh.py]) *)

Module Bits.

Definition AX25_FLAG : Z := 0x7E.

(** Inner loop of [crc16_x25]: eight shift steps with the reflected
    polynomial 0x8408. *)
Fixpoint crc_shift (n : nat) (crc : Z) : Z :=
  match n with
  | O => crc
  | S n' =>
      crc_shift n'
        (if truthy (Z.land crc 1) then Z.lxor (Z.shiftr crc 1) 0x8408
         else Z.shiftr crc 1)
  end.

Definition crc_step (crc b : Z) : Z := crc_shift 8 (Z.lxor crc b).

Definition crc16_x25 (data : bytes) : Z :=
  Z.land (Z.lnot (fold_left crc_step data 0xFFFF)) 0xFFFF.

Definition byte_bits (b : Z) : bits :=
  map (fun i => Z.land (Z.shiftr b (Z.of_nat i)) 1) (seq 0 8).

Definition bytes_to_bits_lsb_first (data : bytes) : bits :=
  flat_map byte_bits data.

(** Loop of [bits_to_bytes_lsb_first]: [acc] collects bits, [n] counts
    them; a byte is emitted when [n] reaches 8 and a trailing partial
    byte is dropped. *)
Fixpoint bits_to_bytes_go (acc n : Z) (bs : bits) : bytes :=
  match bs with
  | [] => []
  | bit :: rest =>
      let acc := Z.lor acc (Z.shiftl (Z.land bit 1) n) in
      let n := n + 1 in
      if n =? 8 then acc :: bits_to_bytes_go 0 0 rest
      else bits_to_bytes_go acc n rest
  end.

Definition bits_to_bytes_lsb_first (bs : bits) : bytes :=
  bits_to_bytes_go 0 0 bs.

(** Loop of [bitstuff], returning the output and the final value of
    the counter [ones]. *)
Fixpoint bitstuff_go (ones : Z) (bs : bits) : bits * Z :=
  match bs with
  | [] => ([], ones)
  | bit :: rest =>
      let bit := Z.land bit 1 in
      if bit =? 1 then
        let ones := ones + 1 in
        if ones =? 5 then
          let '(out, fin) := bitstuff_go 0 rest in (bit :: 0 :: out, fin)
        else
          let '(out, fin) := bitstuff_go ones rest in (bit :: out, fin)
      else
        let '(out, fin) := bitstuff_go 0 rest in (bit :: out, fin)
  end.

Definition bitstuff (bs : bits) : bits := fst (bitstuff_go 0 bs).

(** Value of the counter [ones] of [bitstuff] when the loop ends. *)
Definition bitstuff_counter (bs : bits) : Z := snd (bitstuff_go 0 bs).

(** Loop of [bitunstuff]; the index [i] of the source is the head of
    the remaining list, [i += 1] inside the branch skips one more. *)
Fixpoint bitunstuff_go (ones : Z) (bs : bits) : bits :=
  match bs with
  | [] => []
  | bit :: rest =>
      if bit =? 1 then
        let ones := ones + 1 in
        if ones =? 5 then
          match rest with
          | nxt :: rest' =>
              if nxt =? 0 then bit :: bitunstuff_go 0 rest'
              else bit :: bitunstuff_go 0 rest
          | [] => [bit]
          end
        else bit :: bitunstuff_go ones rest
      else bit :: bitunstuff_go 0 rest
  end.

Definition bitunstuff (bs : bits) : bits := bitunstuff_go 0 bs.

Fixpoint nrzi_decode_go (prev : Z) (levels : list Z) : bits :=
  match levels with
  | [] => []
  | lvl :: rest => (if lvl =? prev then 1 else 0) :: nrzi_decode_go lvl rest
  end.

Definition nrzi_decode (levels : list Z) : bits :=
  match levels with
  | [] => []
  | first :: rest => nrzi_decode_go first rest
  end.

Fixpoint nrzi_encode_go (level : Z) (bs : bits) : list Z :=
  match bs with
  | [] => []
  | bit :: rest =>
      let bit := Z.land bit 1 in
      let level := if bit =? 0 then Z.lxor level 1 else level in
      level :: nrzi_encode_go level rest
  end.

Definition nrzi_encode (bs : bits) (initial_level : Z) : list Z :=
  let level := Z.land initial_level 1 in
  level :: nrzi_encode_go level bs.

End Bits.


(** ** G3RUH scrambler ([modem_g3ruh.py]) *)

Module G3RUH.

(** Loop of [g3ruh_descramble] from the register value [lfsr]. *)
Fixpoint descramble_go (variant lfsr : Z) (bs : bits) : bits :=
  match bs with
  | [] => []
  | b :: rest =>
      let b := Z.land b 1 in
      let tap := Z.land (Z.lxor (Z.shiftr lfsr 16) (Z.shiftr lfsr 11)) 1 in
      let out := Z.lxor b tap in
      let lfsr :=
        if variant =? 0 then Z.land (Z.lor (Z.shiftl lfsr 1) b) 0x1FFFF
        else Z.land (Z.lor (Z.shiftl lfsr 1) out) 0x1FFFF in
      out :: descramble_go variant lfsr rest
  end.

Definition g3ruh_descramble (bs : bits) (variant : Z) : bits :=
  descramble_go variant 0 bs.

Definition g3ruh_scramble (bs : bits) (variant : Z) : bits :=
  g3ruh_descramble bs variant.

End G3RUH.

(** ** HDLC framer ([modem_g3ruh.py]) *)

Module HDLC.
Import Bits.

Definition flag_bits : bits := bytes_to_bits_lsb_first [AX25_FLAG].

(** First loop of [_extract_hdlc_frames]: the flag positions. *)
Definition flag_positions (bs : bits) : list Z :=
  filter (fun i => bytes_eqb (zslice bs i (i + 8)) flag_bits)
         (zrange (len bs - len flag_bits + 1)).

(** Body of the second loop for one pair [(a, b)]; [None] is a
    [continue]. *)
Definition frame_candidate (bs : bits) (ab : Z * Z) : option bytes :=
  let '(a, b) := ab in
  let start := a + 8 in
  let end_ := b in
  if end_ <=? start then None else
  let payload_bits := zslice bs start end_ in
  if len payload_bits <? 8 * (7 + 7 + 2 + 2) then None else
  let unstuffed := bitunstuff payload_bits in
  let data := bits_to_bytes_lsb_first unstuffed in
  if len data <? 2 then None else
  let frame_wo_fcs := drop_last 2 data in
  let fcs_bytes := take_last 2 data in
  let got_fcs := Z.lor (znth fcs_bytes 0) (Z.shiftl (znth fcs_bytes 1) 8) in
  let calc := crc16_x25 frame_wo_fcs in
  if negb (got_fcs =? calc) then None else
  Some frame_wo_fcs.

Fixpoint filter_map {A B : Type} (f : A -> option B) (l : list A) : list B :=
  match l with
  | [] => []
  | x :: t =>
      match f x with
      | Some y => y :: filter_map f t
      | None => filter_map f t
      end
  end.

Definition _extract_hdlc_frames (bs : bits) : list bytes :=
  let flags := flag_positions bs in
  filter_map (frame_candidate bs) (combine flags (tl flags)).

End HDLC.

(** ** Modem ([modem_g3ruh.py])

    The WAV file is the record of what [wave] reads or writes: the
    header fields and the PCM frames. *)

Module Modem.
Import Bits G3RUH HDLC.

Record wav : Type := mkWav {
  nchannels : Z;
  sampwidth : Z;
  framerate : Z;
  pcm_frames : bytes
}.

Record DemodResult : Type := mkDemodResult {
  frames : list bytes;
  chosen_phase : Z;
  inverted : bool;
  descramble_variant : Z
}.

(** [struct.pack("<h", v)] and [struct.pack("<H", v)]. *)
Definition pack_i16le (v : Z) : result bytes :=
  if (-32768 <=? v) && (v <=? 32767)
  then Ok [Z.land v 0xFF; Z.land (Z.shiftr v 8) 0xFF]
  else Raise StructError.

Definition pack_u16le (v : Z) : result bytes :=
  if (0 <=? v) && (v <=? 65535)
  then Ok [Z.land v 0xFF; Z.land (Z.shiftr v 8) 0xFF]
  else Raise StructError.

(** [struct.unpack("<%dh" % (len(pcm) // 2), pcm)]: the buffer must hold
    whole samples. *)
Fixpoint unpack_i16le (pcm : bytes) : result (list Z) :=
  match pcm with
  | [] => Ok []
  | lo :: hi :: rest =>
      match unpack_i16le rest with
      | Ok t =>
          let u := Z.lor lo (Z.shiftl hi 8) in
          Ok ((if u <? 32768 then u else u - 65536) :: t)
      | Raise e => Raise e
      end
  | [_] => Raise StructError
  end.

(** [round(a / b)] of the quotient of two ints, ties to even. *)
Definition round_div (a b : Z) : Z :=
  let q := a / b in
  let r2 := Z.abs (2 * (a mod b)) in
  if r2 <? Z.abs b then q
  else if Z.abs b <? r2 then q + 1
  else if Z.even q then q else q + 1.

(** The [while] loop that averages one window per bit.  [avg >= 0] is
    decided on the sum of the window: the window length is positive
    inside the loop over the phases.  Each turn advances [i] by at
    least one sample, so [fuel] turns suffice when [fuel] exceeds the
    number of samples. *)
Fixpoint levels_go (fuel : nat) (samples : list Z) (spb_i i : Z) : list Z :=
  match fuel with
  | O => []
  | S fuel' =>
      if i + spb_i <=? len samples then
        let window := zslice samples i (i + spb_i) in
        (if 0 <=? fold_left Z.add window 0 then 1 else 0)
          :: levels_go fuel' samples spb_i (i + spb_i)
      else []
  end.

Definition demod_candidates (samples : list Z) (spb_i : Z) : list DemodResult :=
  flat_map (fun phase =>
    let levels := levels_go (S (length samples)) samples spb_i phase in
    flat_map (fun inv : bool =>
      let lev := map (fun l => Z.lxor l (if inv then 1 else 0)) levels in
      let bits_nrzi := nrzi_decode lev in
      map (fun variant =>
             mkDemodResult
               (_extract_hdlc_frames (g3ruh_descramble bits_nrzi variant))
               phase inv variant)
          [0; 1])
      [false; true])
    (zrange spb_i).

(** One turn of the innermost loop on the candidate [cand]. *)
Definition keep_best (best : option DemodResult) (cand : DemodResult)
  : option DemodResult :=
  match frames cand with
  | [] => best
  | _ :: _ =>
      match best with
      | None => Some cand
      | Some b => if len (frames b) <? len (frames cand) then Some cand else best
      end
  end.

(** [demod_wav_to_ax25_frames] on the contents of the file.  The test
    on [fs / float(baud)] is taken on the exact quotient.  Where [fs] is
    a multiple of [baud] and both are below 2^53 the quotient in
    binary64 is the exact one and the two tests agree; where the exact
    quotient lies within rounding of 1e-6 from a whole number, or
    [baud] is beyond the range of [float], the code can raise where
    this definition returns. *)
Definition demod_wav_to_ax25_frames (w : wav) (baud : Z) : result DemodResult :=
  if negb (sampwidth w =? 2) then Raise (ValueError "Expected 16-bit PCM WAV")
  else if negb (nchannels w =? 1) then Raise (ValueError "Expected mono WAV")
  else
    let fs := framerate w in
    let pcm := pcm_frames w in
    if baud =? 0 then Raise ZeroDivisionError
    else
      let spb_i := round_div fs baud in
      if Z.abs baud <? Z.abs (fs - spb_i * baud) * 1000000
      then Raise (ValueError "Sample rate not an integer multiple of baud")
      else
        (samples <- unpack_i16le pcm ;;
         Ok (match fold_left keep_best (demod_candidates samples spb_i) None with
             | Some best => best
             | None => mkDemodResult [] 0 false 0
             end))%result.

(** [with wave.open(str(out_path), "wb") as w] with one channel and two
    bytes a sample: [setframerate] refuses a rate that is not positive,
    and closing the file then fails on the rate that is still missing.
    The header holds the length of the file, the frame rate, the byte
    rate [nchannels * fs * sampwidth] and the length of the data in
    unsigned 32-bit fields, which [struct.pack] refuses to fill with a
    larger value.  The data are whole samples. *)
Definition wave_write (fs : Z) (pcm : bytes) : result wav :=
  if fs <=? 0 then Raise (WaveError "sampling rate not specified")
  else if (36 + len pcm <=? 0xFFFFFFFF) && (fs <=? 0xFFFFFFFF)
          && (1 * fs * 2 <=? 0xFFFFFFFF) && (len pcm <=? 0xFFFFFFFF)
  then Ok (mkWav 1 2 fs pcm)
  else Raise StructError.

(** [mod_ax25_frame_to_wav]: the contents of the file it writes. *)
Definition mod_ax25_frame_to_wav
    (frame : bytes) (baud fs amplitude pre_flags post_flags
     scramble_variant initial_level : Z) : result wav :=
  if baud =? 0 then Raise ZeroDivisionError
  else if negb (fs mod baud =? 0)
  then Raise (ValueError "fs must be an integer multiple of baud")
  else
    let spb := fs / baud in
    let fcs := crc16_x25 frame in
    (fcs_bytes <- pack_u16le fcs ;;
     let frame_fcs := frame ++ fcs_bytes in
     let flags n := concat (repeat [AX25_FLAG] (Z.to_nat n)) in
     let bs := bytes_to_bits_lsb_first (flags pre_flags)
               ++ bitstuff (bytes_to_bits_lsb_first frame_fcs)
               ++ bytes_to_bits_lsb_first (flags post_flags) in
     let bs := g3ruh_scramble bs scramble_variant in
     let levels := nrzi_encode bs initial_level in
     pcm <- fold_left
              (fun (acc : result bytes) (lvl : Z) =>
                 pcm <- acc ;;
                 let val := if truthy lvl then amplitude else - amplitude in
                 fold_left
                   (fun (acc : result bytes) (_ : Z) =>
                      pcm <- acc ;; s <- pack_i16le val ;; Ok (pcm ++ s))
                   (zrange spb) (Ok pcm))
              levels (Ok []) ;;
     wave_write fs pcm)%result.

(** The call with every keyword argument at its default. *)
Definition mod_default (frame : bytes) : result wav :=
  mod_ax25_frame_to_wav frame 9600 48000 20000 32 8 0 1.

Definition demod_default (w : wav) : result DemodResult :=
  demod_wav_to_ax25_frames w 9600.

End Modem.

(** ** AX.25 UI frames ([ax25.py]) *)

Module AX25.

Definition AX25_CONTROL_UI : Z := 0x03.
Definition AX25_PID_NO_LAYER3 : Z := 0xF0.

Record AX25Address : Type := mkAddress {
  callsign : pystr;
  ssid : Z
}.

Record AX25Frame : Type := mkFrame {
  destination : AX25Address;
  source : AX25Address;
  control : Z;
  pid : Z;
  payload : bytes
}.

(** [str.upper] maps each code point on its own.  On ASCII it turns
    [a]..[z] into [A]..[Z]; the mapping of the other code points is the
    one of the Unicode tables of the runtime, taken here as the
    parameter [upper_table]. *)
Definition upper_ascii (c : Z) : Z :=
  if (97 <=? c) && (c <=? 122) then c - 32 else c.

Definition str_upper (upper_table : Z -> pystr) (s : pystr) : pystr :=
  flat_map (fun c => if c <? 128 then [upper_ascii c] else upper_table c) s.

(** [s.ljust(6)]. *)
Definition ljust (width : nat) (s : pystr) : pystr :=
  s ++ repeat 32 (width - length s).

(** [s.encode("ascii")] and [b.decode("ascii")]. *)
Fixpoint encode_ascii (s : pystr) : result bytes :=
  match s with
  | [] => Ok []
  | c :: t =>
      if c <? 128 then
        match encode_ascii t with
        | Ok r => Ok (c :: r)
        | Raise e => Raise e
        end
      else Raise UnicodeEncodeError
  end.

Fixpoint decode_ascii (b : bytes) : result pystr :=
  match b with
  | [] => Ok []
  | c :: t =>
      if c <? 128 then
        match decode_ascii t with
        | Ok r => Ok (c :: r)
        | Raise e => Raise e
        end
      else Raise UnicodeDecodeError
  end.

(** [s.rstrip(" ")]. *)
Fixpoint rstrip_space (s : pystr) : pystr :=
  match s with
  | [] => []
  | c :: t =>
      match rstrip_space t with
      | [] => if c =? 32 then [] else [c]
      | t' => c :: t'
      end
  end.

(** [bytes([x, ...])] of ints. *)
Fixpoint bytes_of_ints (l : list Z) : result bytes :=
  match l with
  | [] => Ok []
  | x :: t =>
      if (0 <=? x) && (x <? 256) then
        match bytes_of_ints t with
        | Ok r => Ok (x :: r)
        | Raise e => Raise e
        end
      else Raise (ValueError "bytes must be in range(0, 256)")
  end.

Section Encode.

Variable upper_table : Z -> pystr.

Definition AX25Address_encode (self : AX25Address) (last : bool) : result bytes :=
  let callsign := str_upper upper_table (callsign self) in
  if 6 <? len callsign then Raise (ValueError "AX.25 callsign too long")
  else if negb ((0 <=? ssid self) && (ssid self <=? 15))
  then Raise (ValueError "AX.25 SSID must be 0..15")
  else
    (call_bytes <- encode_ascii (ljust 6 callsign) ;;
     let shifted := map (fun b => Z.shiftl (Z.land b 0x7F) 1) call_bytes in
     let ssid_byte :=
       Z.lor (Z.lor 0x60 (Z.shiftl (Z.land (ssid self) 0x0F) 1))
             (if last then 0x01 else 0x00) in
     Ok (shifted ++ [ssid_byte]))%result.

Definition AX25Frame_encode (self : AX25Frame) : result bytes :=
  (dst <- AX25Address_encode (destination self) false ;;
   src <- AX25Address_encode (source self) true ;;
   cp <- bytes_of_ints [control self; pid self] ;;
   let header := dst ++ src ++ cp in
   Ok (header ++ payload self))%result.

End Encode.

Definition AX25Address_decode (addr7 : bytes) : result AX25Address :=
  if negb (len addr7 =? 7) then Raise (ValueError "AX.25 address must be 7 bytes")
  else
    (call <- decode_ascii
               (map (fun b => Z.land (Z.shiftr b 1) 0x7F) (zslice addr7 0 6)) ;;
     let callsign := rstrip_space call in
     let ssid := Z.land (Z.shiftr (znth addr7 6) 1) 0x0F in
     Ok (mkAddress callsign ssid))%result.

Definition AX25Address_is_last (addr7 : bytes) : result bool :=
  if negb (len addr7 =? 7) then Raise (ValueError "AX.25 address must be 7 bytes")
  else Ok (truthy (Z.land (znth addr7 6) 0x01)).

Definition AX25Frame_decode (raw : bytes) : result AX25Frame :=
  if len raw <? 7 + 7 + 2 then Raise (ValueError "Frame too short to be AX.25")
  else
    let dst7 := zslice raw 0 7 in
    let src7 := zslice raw 7 14 in
    (last <- AX25Address_is_last src7 ;;
     if negb last
     then Raise (ValueError "Unsupported AX.25 frame: source address not marked last")
     else
       let control := znth raw 14 in
       let pid := znth raw 15 in
       let payload := skipn 16 raw in
       dst <- AX25Address_decode dst7 ;;
       src <- AX25Address_decode src7 ;;
       Ok (mkFrame dst src control pid payload))%result.

End AX25.

(** ** SHA-256 and HMAC

    [hashlib.sha256] and [hmac.new(...).digest()] of the Python
    library, after FIPS 180-4 and RFC 2104. *)

Module SHA256.

Definition w32 (x : Z) : Z := Z.land x 0xFFFFFFFF.

Definition rotr (n x : Z) : Z :=
  Z.lor (Z.shiftr x n) (w32 (Z.shiftl x (32 - n))).

Definition Ch (x y z : Z) : Z :=
  Z.lxor (Z.land x y) (Z.land (Z.lxor x 0xFFFFFFFF) z).

Definition Maj (x y z : Z) : Z :=
  Z.lxor (Z.lxor (Z.land x y) (Z.land x z)) (Z.land y z).

Definition Sigma0 (x : Z) : Z := Z.lxor (Z.lxor (rotr 2 x) (rotr 13 x)) (rotr 22 x).
Definition Sigma1 (x : Z) : Z := Z.lxor (Z.lxor (rotr 6 x) (rotr 11 x)) (rotr 25 x).
Definition sigma0 (x : Z) : Z := Z.lxor (Z.lxor (rotr 7 x) (rotr 18 x)) (Z.shiftr x 3).
Definition sigma1 (x : Z) : Z := Z.lxor (Z.lxor (rotr 17 x) (rotr 19 x)) (Z.shiftr x 10).

(** The round constants of FIPS 180-4, section 4.2.2, in decimal. *)
Definition K : list Z :=
  [1116352408; 1899447441; 3049323471; 3921009573;
   961987163; 1508970993; 2453635748; 2870763221;
   3624381080; 310598401; 607225278; 1426881987;
   1925078388; 2162078206; 2614888103; 3248222580;
   3835390401; 4022224774; 264347078; 604807628;
   770255983; 1249150122; 1555081692; 1996064986;
   2554220882; 2821834349; 2952996808; 3210313671;
   3336571891; 3584528711; 113926993; 338241895;
   666307205; 773529912; 1294757372; 1396182291;
   1695183700; 1986661051; 2177026350; 2456956037;
   2730485921; 2820302411; 3259730800; 3345764771;
   3516065817; 3600352804; 4094571909; 275423344;
   430227734; 506948616; 659060556; 883997877;
   958139571; 1322822218; 1537002063; 1747873779;
   1955562222; 2024104815; 2227730452; 2361852424;
   2428436474; 2756734187; 3204031479; 3329325298].

Record state : Type := mkState {
  ha : Z; hb : Z; hc : Z; hd : Z; he : Z; hf : Z; hg : Z; hh : Z
}.

(** The initial hash value, section 5.3.3, in decimal. *)
Definition H0 : state :=
  mkState 1779033703 3144134277 1013904242 2773480762
          1359893119 2600822924 528734635 1541459225.

(** One round on the working variables and the sliding window of the
    sixteen latest words of the message schedule. *)
Definition round (sw : state * list Z) (k : Z) : state * list Z :=
  let '(s, w) := sw in
  let wt := nth 0 w 0 in
  let t1 := w32 (hh s + Sigma1 (he s) + Ch (he s) (hf s) (hg s) + k + wt) in
  let t2 := w32 (Sigma0 (ha s) + Maj (ha s) (hb s) (hc s)) in
  let next :=
    w32 (sigma1 (nth 14 w 0) + nth 9 w 0 + sigma0 (nth 1 w 0) + wt) in
  (mkState (w32 (t1 + t2)) (ha s) (hb s) (hc s)
           (w32 (hd s + t1)) (he s) (hf s) (hg s),
   tl w ++ [next]).

Definition compress (s : state) (block : list Z) : state :=
  let '(r, _) := fold_left round K (s, block) in
  mkState (w32 (ha s + ha r)) (w32 (hb s + hb r)) (w32 (hc s + hc r))
          (w32 (hd s + hd r)) (w32 (he s + he r)) (w32 (hf s + hf r))
          (w32 (hg s + hg r)) (w32 (hh s + hh r)).

Definition be_word (v : Z) (width : nat) : bytes :=
  map (fun i => Z.land (Z.shiftr v (8 * Z.of_nat i)) 0xFF) (rev (seq 0 width)).

Definition pad (msg : bytes) : bytes :=
  let n := len msg in
  msg ++ [0x80] ++ repeat 0 (Z.to_nat ((55 - n) mod 64)) ++ be_word (8 * n) 8.

(** Big-endian words of the padded message, then blocks of sixteen. *)
Fixpoint words (fuel : nat) (b : bytes) : list Z :=
  match fuel, b with
  | S fuel', b0 :: b1 :: b2 :: b3 :: rest =>
      (((b0 * 256 + b1) * 256 + b2) * 256 + b3) :: words fuel' rest
  | _, _ => []
  end.

Fixpoint blocks (fuel : nat) (w : list Z) : list (list Z) :=
  match fuel, w with
  | S fuel', _ :: _ => firstn 16 w :: blocks fuel' (skipn 16 w)
  | _, _ => []
  end.

Definition digest_bytes (s : state) : bytes :=
  be_word (ha s) 4 ++ be_word (hb s) 4 ++ be_word (hc s) 4 ++ be_word (hd s) 4 ++
  be_word (he s) 4 ++ be_word (hf s) 4 ++ be_word (hg s) 4 ++ be_word (hh s) 4.

Definition sha256 (msg : bytes) : bytes :=
  let p := pad msg in
  let w := words (length p) p in
  digest_bytes (fold_left compress (blocks (length w) w) H0).

Definition hmac_sha256 (key msg : bytes) : bytes :=
  let key := if 64 <? len key then sha256 key else key in
  let key := key ++ repeat 0 (64 - length key) in
  let ipad := map (fun b => Z.lxor b 0x36) key in
  let opad := map (fun b => Z.lxor b 0x5c) key in
  sha256 (opad ++ sha256 (ipad ++ msg)).

End SHA256.

(** ** Telemetry and telecommand codec ([proto.py]) *)

Module Proto.

Definition HMAC_KEY : bytes :=
  [0x13; 0xd9; 0x42; 0xdd; 0xd4; 0xdd; 0x43; 0xed;
   0x53; 0x94; 0x03; 0x92; 0x58; 0xc7; 0xb4; 0xc2;
   0xa7; 0x30; 0xb8; 0xba; 0x1f; 0x4c; 0xc7; 0xb5;
   0xdd; 0x24; 0xc3; 0xaf; 0x62; 0x34; 0x28; 0xe4].

Definition _take (buf : bytes) (offset n : Z) : result (bytes * Z) :=
  let end_ := offset + n in
  if len buf <? end_ then Raise (DecodeError "Truncated payload")
  else Ok (zslice buf offset end_, end_).

(** [struct.unpack] of one big-endian integer, unsigned or signed. *)
Definition be_unsigned (chunk : bytes) : Z :=
  fold_left (fun acc b => acc * 256 + b) chunk 0.

Definition be_signed (chunk : bytes) : Z :=
  let u := be_unsigned chunk in
  let w := 8 * len chunk in
  if u <? 2 ^ (w - 1) then u else u - 2 ^ w.

Definition read_u8 (buf : bytes) (offset : Z) : result (Z * Z) :=
  ('(chunk, offset) <- _take buf offset 1 ;; Ok (znth chunk 0, offset))%result.

Definition read_u16be (buf : bytes) (offset : Z) : result (Z * Z) :=
  ('(chunk, offset) <- _take buf offset 2 ;; Ok (be_unsigned chunk, offset))%result.

Definition read_u32be (buf : bytes) (offset : Z) : result (Z * Z) :=
  ('(chunk, offset) <- _take buf offset 4 ;; Ok (be_unsigned chunk, offset))%result.

Definition read_i16be (buf : bytes) (offset : Z) : result (Z * Z) :=
  ('(chunk, offset) <- _take buf offset 2 ;; Ok (be_signed chunk, offset))%result.

Definition read_i64be (buf : bytes) (offset : Z) : result (Z * Z) :=
  ('(chunk, offset) <- _take buf offset 8 ;; Ok (be_signed chunk, offset))%result.

(** [b.decode("utf-8", errors="strict")]: the well-formed sequences of
    the Unicode standard (no overlong forms, no surrogates, nothing
    above U+10FFFF); [None] is a [UnicodeDecodeError]. *)
Definition is_cont (b : Z) : bool := (0x80 <=? b) && (b <=? 0xBF).

Definition in_range (lo hi b : Z) : bool := (lo <=? b) && (b <=? hi).

Fixpoint utf8_decode (b : bytes) : option pystr :=
  match b with
  | [] => Some []
  | b0 :: r0 =>
      if in_range 0 0x7F b0 then option_map (cons b0) (utf8_decode r0)
      else if in_range 0xC2 0xDF b0 then
        match r0 with
        | b1 :: r1 =>
            if is_cont b1 then
              option_map
                (cons (Z.lor (Z.shiftl (Z.land b0 0x1F) 6) (Z.land b1 0x3F)))
                (utf8_decode r1)
            else None
        | _ => None
        end
      else if in_range 0xE0 0xEF b0 then
        match r0 with
        | b1 :: b2 :: r2 =>
            if in_range (if b0 =? 0xE0 then 0xA0 else 0x80)
                        (if b0 =? 0xED then 0x9F else 0xBF) b1
               && is_cont b2 then
              option_map
                (cons (Z.lor (Z.lor (Z.shiftl (Z.land b0 0x0F) 12)
                                    (Z.shiftl (Z.land b1 0x3F) 6))
                             (Z.land b2 0x3F)))
                (utf8_decode r2)
            else None
        | _ => None
        end
      else if in_range 0xF0 0xF4 b0 then
        match r0 with
        | b1 :: b2 :: b3 :: r3 =>
            if in_range (if b0 =? 0xF0 then 0x90 else 0x80)
                        (if b0 =? 0xF4 then 0x8F else 0xBF) b1
               && is_cont b2 && is_cont b3 then
              option_map
                (cons (Z.lor (Z.lor (Z.lor (Z.shiftl (Z.land b0 0x07) 18)
                                           (Z.shiftl (Z.land b1 0x3F) 12))
                                    (Z.shiftl (Z.land b2 0x3F) 6))
                             (Z.land b3 0x3F)))
                (utf8_decode r3)
            else None
        | _ => None
        end
      else None
  end.

(** [b.decode("latin1")]: every byte is the code point of its value. *)
Definition latin1_decode (b : bytes) : pystr := b.

(** [s.encode("utf-8")]; a surrogate code point cannot be encoded. *)
Definition utf8_encode_char (c : Z) : result bytes :=
  if c <? 0x80 then Ok [c]
  else if c <? 0x800 then
    Ok [Z.lor 0xC0 (Z.shiftr c 6); Z.lor 0x80 (Z.land c 0x3F)]
  else if c <? 0x10000 then
    if in_range 0xD800 0xDFFF c then Raise UnicodeEncodeError
    else Ok [Z.lor 0xE0 (Z.shiftr c 12);
             Z.lor 0x80 (Z.land (Z.shiftr c 6) 0x3F);
             Z.lor 0x80 (Z.land c 0x3F)]
  else
    Ok [Z.lor 0xF0 (Z.shiftr c 18);
        Z.lor 0x80 (Z.land (Z.shiftr c 12) 0x3F);
        Z.lor 0x80 (Z.land (Z.shiftr c 6) 0x3F);
        Z.lor 0x80 (Z.land c 0x3F)].

Fixpoint utf8_encode (s : pystr) : result bytes :=
  match s with
  | [] => Ok []
  | c :: t =>
      (h <- utf8_encode_char c ;; r <- utf8_encode t ;; Ok (h ++ r))%result
  end.

Definition read_lp_string (buf : bytes) (offset : Z) : result (pystr * Z) :=
  ('(n, offset) <- read_u8 buf offset ;;
   '(chunk, offset) <- _take buf offset n ;;
   match utf8_decode chunk with
   | Some s => Ok (s, offset)
   | None => Ok (latin1_decode chunk, offset)
   end)%result.

Definition write_lp_string (s : pystr) : result bytes :=
  (data <- utf8_encode s ;;
   if 255 <? len data
   then Raise (ValueError "String too long for length-prefixed encoding")
   else Ok (len data :: data))%result.

(** The float of an [int], and [temp_raw / 10.0]. *)
Definition float_of_int (z : Z) : float :=
  if z <? 0 then PrimFloat.opp (PrimFloat.of_uint63 (Uint63.of_Z (- z)))
  else PrimFloat.of_uint63 (Uint63.of_Z z).

Record TelemetryTL : Type := mkTelemetryTL {
  sequence : Z;
  timestamp : Z;
  uptime : Z;
  boot_count : Z;
  restart_reason : Z;
  mode : Z;
  flags : Z;
  battery_voltages_mv : Z * Z * Z;
  battery_currents_ma : Z * Z * Z;
  temperature_c : float;
  motd : pystr
}.

(** [decode_telemetry]; the two loops of three reads are written out. *)
Definition decode_telemetry (payload : bytes) : result TelemetryTL :=
  let buf := payload in
  let offset := 0 in
  ('(packet_type, offset) <- read_u16be buf offset ;;
   if negb (packet_type =? 0x544C)
   then Raise (DecodeError "Not a TL telemetry packet")
   else
     '(sequence, offset) <- read_u32be buf offset ;;
     '(timestamp, offset) <- read_i64be buf offset ;;
     '(uptime, offset) <- read_u32be buf offset ;;
     '(boot_count, offset) <- read_u32be buf offset ;;
     '(restart_reason, offset) <- read_u8 buf offset ;;
     '(mode, offset) <- read_u8 buf offset ;;
     '(flags, offset) <- read_u8 buf offset ;;
     '(bv0, offset) <- read_u16be buf offset ;;
     '(bv1, offset) <- read_u16be buf offset ;;
     '(bv2, offset) <- read_u16be buf offset ;;
     '(bc0, offset) <- read_u16be buf offset ;;
     '(bc1, offset) <- read_u16be buf offset ;;
     '(bc2, offset) <- read_u16be buf offset ;;
     '(temp_raw, offset) <- read_i16be buf offset ;;
     '(motd, offset) <- read_lp_string buf offset ;;
     Ok (mkTelemetryTL sequence timestamp uptime boot_count
           restart_reason mode flags
           (bv0, bv1, bv2) (bc0, bc1, bc2)
           (PrimFloat.div (float_of_int temp_raw) (float_of_int 10))
           motd))%result.

(** *** Telecommands

    [hmac.new(key, msg, sha256).digest()] is a function of the Python
    library; it is the parameter [hmac_digest] of this section.  Calls
    of the [hmac] module are recorded in a log next to the value a
    function returns, so that what a function computes and what it
    checks can be told apart. *)

Inductive event : Type :=
| EvHmac (key msg : bytes)              (* hmac.new(key, msg, sha256).digest() *)
| EvCompareDigest (a b : bytes).        (* hmac.compare_digest(a, b) *)

Definition logged (A : Type) : Type := (A * list event)%type.

Definition lret {A : Type} (v : A) : logged A := (v, []).

Definition lbind {A B : Type} (m : logged A) (k : A -> logged B) : logged B :=
  let '(v, l1) := m in
  let '(w, l2) := k v in
  (w, l1 ++ l2).

Declare Scope logged_scope.
Delimit Scope logged_scope with logged.
Notation "x <- m ;; k" := (lbind m (fun x => k))
  (at level 61, m at next level, right associativity) : logged_scope.

Definition value {A : Type} (m : logged A) : A := fst m.
Definition log {A : Type} (m : logged A) : list event := snd m.

(** [struct.pack(">HI", a, b)] for values in range. *)
Definition be_bytes (width : nat) (v : Z) : bytes :=
  map (fun i => Z.land (Z.shiftr v (8 * Z.of_nat i)) 0xFF) (rev (seq 0 width)).

Section Telecommand.

Variable hmac_digest : bytes -> bytes -> bytes.

Definition hmac_new_digest (key msg : bytes) : logged bytes :=
  (hmac_digest key msg, [EvHmac key msg]).

Definition compare_digest (a b : bytes) : logged bool :=
  (bytes_eqb a b, [EvCompareDigest a b]).

Definition build_telecommand (command_type sequence : Z) (payload : bytes)
  : logged (result bytes) :=
  if negb ((0 <=? command_type) && (command_type <=? 0xFFFF))
  then lret (Raise (ValueError "command_type must fit uint16"))
  else if negb ((0 <=? sequence) && (sequence <=? 0xFFFFFFFF))
  then lret (Raise (ValueError "sequence must fit uint32"))
  else
    let body := be_bytes 2 command_type ++ be_bytes 4 sequence ++ payload in
    (mac <- hmac_new_digest HMAC_KEY body ;;
     lret (Ok (body ++ mac)))%logged.

Definition build_set_motd (sequence : Z) (motd : pystr) : logged (result bytes) :=
  match write_lp_string motd with
  | Ok payload => build_telecommand 0x5500 sequence payload
  | Raise e => lret (Raise e)
  end.

Definition build_sstv (sequence : Z) : logged (result bytes) :=
  build_telecommand 0x5533 sequence [].

Definition verify_telecommand (packet : bytes) : logged (option string) :=
  if len packet <? 2 + 4 + 32 then lret (Some "Telecommand too short"%string)
  else
    let body := drop_last 32 packet in
    let sig := take_last 32 packet in
    (expected <- hmac_new_digest HMAC_KEY body ;;
     same <- compare_digest sig expected ;;
     if negb same then lret (Some "Bad HMAC"%string)
     else lret None)%logged.

(** The build commands of [cli.py] up to their check of the packet;
    wrapping the packet into a frame and writing it out follow. *)
Definition check_built (built : logged (result bytes)) : logged (result bytes) :=
  (r <- built ;;
   match r with
   | Raise e => lret (Raise e)
   | Ok tc =>
       err <- verify_telecommand tc ;;
       match err with
       | Some msg =>
           if (msg =? "")%string then lret (Ok tc)
           else lret (Raise (SystemExit
                  ("internal error: produced invalid telecommand: " ++ msg)))
       | None => lret (Ok tc)
       end
   end)%logged.

Definition cmd_build_motd (sequence : Z) (motd : pystr) : logged (result bytes) :=
  check_built (build_set_motd sequence motd).

Definition cmd_build_sstv (sequence : Z) : logged (result bytes) :=
  check_built (build_sstv sequence).

End Telecommand.

End Proto.

(** ** Robot36 decoder ([robot36_decode.py])

    [decode_robot36] from the point where the line-sync chain has been
    picked.  What comes before (reading the WAV file, the filters, the
    instantaneous frequency, the sync detection) and the arithmetic on
    floats are parameters: the type [sample] of a frequency sample,
    [freq_to_byte] and [ycbcr_to_rgb] on one sample or pixel, and the
    sample index of pixel [k] of a line before it is clipped. *)

Module Robot36.

Definition width : Z := 320.
Definition height : Z := 240.

Definition pixel : Type := (Z * Z * Z)%type.

(** The image handed to [Image.fromarray(rgb, mode="RGB").save]: its
    size is read off the array. *)
Record image : Type := mkImage {
  img_width : Z;
  img_height : Z;
  img_rows : list (list pixel)
}.

Definition image_fromarray (rgb : list (list pixel)) : image :=
  mkImage (len (hd [] rgb)) (len rgb) rgb.

Definition sync_failure_message (found : nat) : string :=
  ("Could not find a stable Robot36 line sync chain (found "
     ++ NilZero.string_of_uint (Nat.to_uint found)
     ++ " lines). Try a different capture, or decode with RX-SSTV.")%string.

(** [rows[i] = row]. *)
Definition set_row {A : Type} (rows : list A) (i : Z) (row : A) : result (list A) :=
  if (0 <=? i) && (i <? len rows)
  then Ok (firstn (Z.to_nat i) rows ++ row :: skipn (Z.to_nat (i + 1)) rows)
  else Raise IndexError.

Definition clip (x lo hi : Z) : Z := Z.min (Z.max x lo) hi.

Section Decode.

Variable sample : Type.
Variable freq_to_byte : sample -> Z.
Variable ycbcr_to_rgb : Z -> Z -> Z -> pixel.
Variable y_index : Z -> Z -> Z -> Z.
Variable c_index : Z -> Z -> Z -> Z.

(** [_freq_to_byte(inst_freq[np.clip(idx, 0, inst_freq.size - 1)])] for
    the 320 pixels of one line. *)
Definition sample_row (inst_freq : list sample) (idx : Z -> Z) : result (list Z) :=
  match inst_freq with
  | [] => Raise IndexError
  | d :: _ =>
      Ok (map (fun k =>
                 freq_to_byte
                   (nth (Z.to_nat (clip (idx k) 0 (len inst_freq - 1))) inst_freq d))
              (zrange width))
  end.

Record planes : Type := mkPlanes {
  y_lines : list (list Z);
  cb_lines : list (list Z);
  cr_lines : list (list Z)
}.

(** The loop over [enumerate(chain)], from line [i]. *)
Fixpoint sample_lines (fs : Z) (inst_freq : list sample)
    (i : Z) (chain : list Z) (p : planes) : result planes :=
  match chain with
  | [] => Ok p
  | sync_start :: rest =>
      (y_row <- sample_row inst_freq (y_index fs sync_start) ;;
       ys <- set_row (y_lines p) i y_row ;;
       let pair := i / 2 in
       c_row <- sample_row inst_freq (c_index fs sync_start) ;;
       p' <- (if i mod 2 =? 0
              then cb <- set_row (cb_lines p) pair c_row ;;
                   Ok (mkPlanes ys cb (cr_lines p))
              else cr <- set_row (cr_lines p) pair c_row ;;
                   Ok (mkPlanes ys (cb_lines p) cr)) ;;
       sample_lines fs inst_freq (i + 1) rest p')%result
  end.

(** [_ycbcr_to_rgb] on one row of each plane. *)
Fixpoint rgb_row (ys cbs crs : list Z) : list pixel :=
  match ys, cbs, crs with
  | y :: ys', cb :: cbs', cr :: crs' => ycbcr_to_rgb y cb cr :: rgb_row ys' cbs' crs'
  | _, _, _ => []
  end.

(** One turn of the loop over the pairs of rows. *)
Definition rgb_pair (p : planes) (acc : result (list (list pixel))) (pair : Z)
  : result (list (list pixel)) :=
  (rgb <- acc ;;
   let cb := nth (Z.to_nat pair) (cb_lines p) [] in
   let cr := nth (Z.to_nat pair) (cr_lines p) [] in
   rgb <- set_row rgb (2 * pair)
            (rgb_row (nth (Z.to_nat (2 * pair)) (y_lines p) []) cb cr) ;;
   set_row rgb (2 * pair + 1)
     (rgb_row (nth (Z.to_nat (2 * pair + 1)) (y_lines p) []) cb cr))%result.

Definition zeros {A : Type} (z : A) (rows cols : Z) : list (list A) :=
  repeat (repeat z (Z.to_nat cols)) (Z.to_nat rows).

Definition decode_robot36 (fs : Z) (inst_freq : list sample) (chain : list Z)
  : result image :=
  if len chain <? 200
  then Raise (RuntimeError (sync_failure_message (length chain)))
  else
    let chain := firstn 240 chain in
    let p0 := mkPlanes (zeros 0 height width)
                       (zeros 0 (height / 2) width)
                       (zeros 0 (height / 2) width) in
    (p <- sample_lines fs inst_freq 0 chain p0 ;;
     rgb <- fold_left (rgb_pair p) (zrange (height / 2))
              (Ok (zeros ((0, 0, 0) : pixel) height width)) ;;
     Ok (image_fromarray rgb))%result.

End Decode.

Arguments sample_row {sample} freq_to_byte inst_freq idx.
Arguments sample_lines {sample} freq_to_byte y_index c_index fs inst_freq i chain p.
Arguments decode_robot36 {sample} freq_to_byte ycbcr_to_rgb y_index c_index
  fs inst_freq chain.

End Robot36.

(** * Vocabulary of the properties

    Predicates, checkers and sample inputs used in the statements. *)

Import Bits G3RUH HDLC Modem AX25 Proto Robot36.

Definition is_bit (b : Z) : Prop := b = 0 \/ b = 1.

Definition is_byte (b : Z) : Prop := 0 <= b < 256.

(** *** Bit stuffing *)

(** Length of the longest run of 1s. *)
Fixpoint longest_run_from (cur : nat) (bs : bits) : nat :=
  match bs with
  | [] => cur
  | b :: r =>
      if b =? 1 then longest_run_from (S cur) r
      else Nat.max cur (longest_run_from 0 r)
  end.

Definition longest_run (bs : bits) : nat := longest_run_from 0 bs.

(** [bs] holds [n] 1s in a row somewhere. *)
Definition has_run (n : nat) (bs : bits) : Prop :=
  exists pre post, bs = pre ++ repeat 1 n ++ post.

(** Checker: walking [l] with [cur] 1s seen in a row, no sixth 1
    follows five 1s and the list does not stop right after five 1s. *)
Fixpoint stuffed_ok (cur : nat) (l : bits) : bool :=
  match l with
  | [] => (cur <? 5)%nat
  | b :: r =>
      if b =? 1 then (cur <? 5)%nat && stuffed_ok (S cur) r
      else stuffed_ok 0 r
  end.

(** The counter of [bitstuff] goes back to 0 on a data bit 0 and on
    nothing else: a data bit 1 always counts up. *)
Definition counter_resets_only_on_data_zero : Prop :=
  forall (bs : bits) (b : Z),
    Z.land b 1 = 1 -> bitstuff_counter (bs ++ [b]) = bitstuff_counter bs + 1.

(** Three bytes with no five 1s in a row. *)
Definition short_run_bytes : bytes := [0x7A; 0x35; 0x00].

(** *** Scrambler *)

(** A single 1 followed by twenty-four 0s. *)
Definition impulse24 : bits := 1 :: repeat 0 24.

(** *** HDLC framer *)

(** The pairs of [zip(l, l[1:])] are the neighbours in [l]. *)
Definition neighbours {A : Type} (l : list A) (a b : A) : Prop :=
  exists pre post, l = pre ++ a :: b :: post.

(** The bytes between the flags at [a] and [b], destuffed. *)
Definition candidate_bytes (bs : bits) (a b : Z) : bytes :=
  bits_to_bytes_lsb_first (bitunstuff (zslice bs (a + 8) b)).

(** The frame check sequence in the last two bytes, low byte first. *)
Definition fcs_of (data : bytes) : Z :=
  Z.lor (znth (take_last 2 data) 0) (Z.shiftl (znth (take_last 2 data) 1) 8).

(** *** Modem *)

(** A UI frame of 20 bytes: HA7FLR from GROUND, four bytes of payload. *)
Definition frame20 : bytes :=
  [144; 130; 110; 140; 152; 164; 96; 142; 164; 158; 170; 156; 136; 97;
   3; 240; 1; 2; 3; 4].

(** The bit stream of [frame20] with its flags, before scrambling. *)
Definition stream20 : bits :=
  bytes_to_bits_lsb_first (concat (repeat [AX25_FLAG] 32))
  ++ bitstuff (bytes_to_bits_lsb_first
                 (frame20 ++ [Z.land (crc16_x25 frame20) 0xFF;
                              Z.shiftr (crc16_x25 frame20) 8]))
  ++ bytes_to_bits_lsb_first (concat (repeat [AX25_FLAG] 8)).

(** The WAV file that [mod_default] writes for [frame20]. *)
Definition wav20 : wav :=
  Eval vm_compute in
    match mod_default frame20 with
    | Ok w => w
    | Raise _ => mkWav 0 0 0 []
    end.

(** The same with scramble variant 1. *)
Definition wav20_variant1 : wav :=
  Eval vm_compute in
    match mod_ax25_frame_to_wav frame20 9600 48000 20000 32 8 1 1 with
    | Ok w => w
    | Raise _ => mkWav 0 0 0 []
    end.

(** *** AX.25 *)

(** A character of a callsign that [upper] leaves alone: ASCII and not
    a lowercase letter. *)
Definition callsign_char (c : Z) : Prop :=
  0 <= c < 128 /\ ~ (97 <= c <= 122).

(** At most six such characters, the last of them not a space. *)
Definition valid_callsign (s : pystr) : Prop :=
  (length s <= 6)%nat /\ Forall callsign_char s /\ last s 0 <> 32.

(** The frame of the encoding scenario: HA7FLR from GROUND. *)
Definition sample_frame : AX25Frame :=
  mkFrame (mkAddress [72; 65; 55; 70; 76; 82] 0)
          (mkAddress [71; 82; 79; 85; 78; 68] 0)
          AX25_CONTROL_UI AX25_PID_NO_LAYER3 [0; 1].

Definition sample_raw : bytes :=
  [144; 130; 110; 140; 152; 164; 96; 142; 164; 158; 170; 156; 136; 97;
   3; 240; 0; 1].

(** *** Telemetry *)

Definition tl_type (p : bytes) : Z := be_unsigned (zslice p 0 2).
Definition motd_len (p : bytes) : Z := znth p 39.
Definition motd_bytes (p : bytes) : bytes := zslice p 40 (40 + motd_len p).

(** The payload ends before the last field it has to hold. *)
Definition truncated (p : bytes) : Prop :=
  len p < 40 \/ len p < 40 + motd_len p.

(** The telemetry packet of the decoding scenario, its motd "DEMO". *)
Definition sample_tl : bytes :=
  [0x54; 0x4c; 0; 0; 0; 7; 0; 0; 0; 0; 0; 0; 0; 1; 0; 0; 1; 0xf4;
   0; 0; 0; 2; 0; 1; 0; 0x0f; 0xa0; 0x0f; 0xa0; 0x0f; 0xa0;
   0; 0x64; 0; 0x64; 0; 0x64; 0; 0xfa; 4; 68; 69; 77; 79].

(** The same packet with a byte of the motd that is not UTF-8. *)
Definition sample_tl_bad_motd : bytes :=
  firstn 41 sample_tl ++ [0xff; 77; 79].

(** *** Telecommands *)

(** The packet [p] with the byte at index [i] replaced by [v]. *)
Definition set_byte (i : nat) (v : Z) (p : bytes) : bytes :=
  firstn i p ++ v :: skipn (S i) p.

Definition body_of (command_type sequence : Z) (payload : bytes) : bytes :=
  be_bytes 2 command_type ++ be_bytes 4 sequence ++ payload.

(** The log of [built] holds the verification of the packet it returns. *)
Definition runs_verification (hmac_digest : bytes -> bytes -> bytes)
    (built : logged (result bytes)) : Prop :=
  forall packet, value built = Ok packet ->
    exists pre post,
      log built = pre ++ log (verify_telecommand hmac_digest packet) ++ post.

(** The packet [build_sstv(7)] returns, with HMAC-SHA-256. *)
Definition sstv_packet : bytes :=
  Eval vm_compute in
    match value (build_sstv SHA256.hmac_sha256 7) with
    | Ok p => p
    | Raise _ => []
    end.

(** A digest that is not a MAC but tells two messages apart when they
    differ in one byte: the sum of the message in a tag of 32 bytes. *)
Definition checksum_digest (key msg : bytes) : bytes :=
  (fold_left Z.add msg 0) mod 256 :: repeat 0 31.

(** A digest function that returns nothing. *)
Definition empty_digest (key msg : bytes) : bytes := [].

(** *** Robot36 *)

(** A chain of [n] line syncs, one line apart at 48 kHz. *)
Definition chain_of (n : nat) : list Z :=
  map (fun i => 7128 * Z.of_nat i) (seq 0 n).


(** An array of [r] rows of [c] entries. *)
Definition shape {A : Type} (r c : Z) (rows : list (list A)) : Prop :=
  len rows = r /\ Forall (fun row => len row = c) rows.

Definition planes_shape (p : planes) : Prop :=
  shape height width (y_lines p) /\
  shape (height / 2) width (cb_lines p) /\
  shape (height / 2) width (cr_lines p).

(** * More of the program, and the vocabulary of its properties *)

(** The line with every level inverted. *)
Definition invert_levels (levels : list Z) : list Z :=
  map (fun l => Z.lxor l 1) levels.

(** The register of [g3ruh_descramble] after the bits [bs]. *)
Fixpoint lfsr_after (variant lfsr : Z) (bs : bits) : Z :=
  match bs with
  | [] => lfsr
  | b :: rest =>
      let b := Z.land b 1 in
      let tap := Z.land (Z.lxor (Z.shiftr lfsr 16) (Z.shiftr lfsr 11)) 1 in
      let out := Z.lxor b tap in
      lfsr_after variant
        (if variant =? 0 then Z.land (Z.lor (Z.shiftl lfsr 1) b) 0x1FFFF
         else Z.land (Z.lor (Z.shiftl lfsr 1) out) 0x1FFFF)
        rest
  end.

(** The address as [AX25Address.decode] gives it back after
    [AX25Address.encode]: the callsign in upper case, without the
    spaces at its end. *)
Definition normalise_address (upper_table : Z -> pystr) (a : AX25Address)
  : AX25Address :=
  mkAddress (rstrip_space (str_upper upper_table (callsign a))) (ssid a).

(** The telemetry record read at the fixed offsets of the packet. *)
Definition tl_record (p : bytes) : TelemetryTL :=
  mkTelemetryTL
    (be_unsigned (zslice p 2 6))
    (be_signed (zslice p 6 14))
    (be_unsigned (zslice p 14 18))
    (be_unsigned (zslice p 18 22))
    (znth p 22) (znth p 23) (znth p 24)
    (be_unsigned (zslice p 25 27), be_unsigned (zslice p 27 29),
     be_unsigned (zslice p 29 31))
    (be_unsigned (zslice p 31 33), be_unsigned (zslice p 33 35),
     be_unsigned (zslice p 35 37))
    (PrimFloat.div (float_of_int (be_signed (zslice p 37 39))) (float_of_int 10))
    (match utf8_decode (motd_bytes p) with
     | Some s => s
     | None => latin1_decode (motd_bytes p)
     end).

(** The packet of the decoding scenario followed by three more bytes. *)
Definition sample_tl_trailing : bytes := sample_tl ++ [1; 2; 3].

(** The code points of a Python [str], and the surrogates among them. *)
Definition code_point (c : Z) : Prop := 0 <= c <= 0x10FFFF.
Definition surrogate (c : Z) : Prop := 0xD800 <= c <= 0xDFFF.

(** A motd of the ground station: "Szia!" with an accented letter and
    a sign outside the basic plane. *)
Definition sample_motd : pystr := [83; 122; 105; 97; 33; 233; 0x20AC; 0x1F680].

(** The bits [mod_ax25_frame_to_wav] builds before it scrambles them:
    the opening flags, the stuffed bits of the frame and its check
    sequence (low byte first), the closing flags. *)
Definition flag_run (n : Z) : bits :=
  bytes_to_bits_lsb_first (concat (repeat [AX25_FLAG] (Z.to_nat n))).

Definition frame_with_fcs (frame : bytes) : bytes :=
  frame ++ [Z.land (crc16_x25 frame) 0xFF;
            Z.land (Z.shiftr (crc16_x25 frame) 8) 0xFF].

Definition stuffed_frame (frame : bytes) : bits :=
  bitstuff (bytes_to_bits_lsb_first (frame_with_fcs frame)).

Definition hdlc_bits (frame : bytes) (pre_flags post_flags : Z) : bits :=
  flag_run pre_flags ++ stuffed_frame frame ++ flag_run post_flags.

(** *** The loop of the demodulator *)

(** [best] already holds [n] frames or more, when [n] is not 0. *)
Definition covers (best : option DemodResult) (n : Z) : Prop :=
  n = 0 \/ exists b, best = Some b /\ n <= len (frames b).

Definition not_inverted (best : option DemodResult) : Prop :=
  forall b, best = Some b -> inverted b = false.

(** *** What the modulator writes *)

(** The two bytes of [struct.pack("<h", v)]. *)
Definition i16le (v : Z) : bytes := [Z.land v 0xFF; Z.land (Z.shiftr v 8) 0xFF].

(** The sample value of a level, and the samples of a line of levels,
    [spb] of them for each level. *)
Definition level_sample (amplitude lvl : Z) : Z :=
  if truthy lvl then amplitude else - amplitude.

Definition line_samples (amplitude spb : Z) (levels : list Z) : list Z :=
  flat_map (fun lvl => repeat (level_sample amplitude lvl) (Z.to_nat spb)) levels.

(** The levels of a frame: framed, scrambled, NRZI. *)
Definition line_levels (frame : bytes)
    (pre_flags post_flags scramble_variant initial_level : Z) : list Z :=
  nrzi_encode (g3ruh_scramble (hdlc_bits frame pre_flags post_flags) scramble_variant)
              initial_level.

(** ** The wrappers and the search for the latest telemetry
    ([cli.py], [mission_cli.py]) *)

Definition HA7FLR : pystr := [72; 65; 55; 70; 76; 82].
Definition GROUND : pystr := [71; 82; 79; 85; 78; 68].

Section Mission.

Variable upper_table : Z -> pystr.
Variable hmac_digest : bytes -> bytes -> bytes.

(** [_wrap_ax25] of [cli.py]. *)
Definition _wrap_ax25 (payload : bytes) (src dst : pystr) : result bytes :=
  AX25Frame_encode upper_table
    (mkFrame (mkAddress dst 0) (mkAddress src 0)
             AX25_CONTROL_UI AX25_PID_NO_LAYER3 payload).

(** [_wrap_uplink_ax25] of [mission_cli.py]. *)
Definition _wrap_uplink_ax25 (payload : bytes) : result bytes :=
  AX25Frame_encode upper_table
    (mkFrame (mkAddress HA7FLR 0) (mkAddress GROUND 0)
             AX25_CONTROL_UI AX25_PID_NO_LAYER3 payload).

(** The body of the [try] in the loops over the frames. *)
Definition frame_telemetry (fr : bytes) : result TelemetryTL :=
  (ax <- AX25Frame_decode fr ;; decode_telemetry (payload ax))%result.

(** One turn of the loop of [_find_latest_tl].  [except Exception:
    continue] catches every exception but [SystemExit]. *)
Definition latest_step (best : result (option TelemetryTL)) (fr : bytes)
  : result (option TelemetryTL) :=
  (best <- best ;;
   match frame_telemetry fr with
   | Ok tl =>
       match best with
       | None => Ok (Some tl)
       | Some b => if sequence b <? sequence tl then Ok (Some tl) else Ok best
       end
   | Raise (SystemExit msg) => Raise (SystemExit msg)
   | Raise _ => Ok best
   end)%result.

Definition _find_latest_tl (ax25_frames : list bytes) : result (option TelemetryTL) :=
  fold_left latest_step ax25_frames (Ok None).

(** [_find_latest_tl_sequence]; the dictionary [asdict(tl)] is the
    record itself. *)
Definition latest_sequence_step (st : result (option Z * option TelemetryTL))
    (fr : bytes) : result (option Z * option TelemetryTL) :=
  ('(best_seq, best_tl) <- st ;;
   match frame_telemetry fr with
   | Ok tl =>
       match best_seq with
       | None => Ok (Some (sequence tl), Some tl)
       | Some s =>
           if s <? sequence tl then Ok (Some (sequence tl), Some tl)
           else Ok (best_seq, best_tl)
       end
   | Raise (SystemExit msg) => Raise (SystemExit msg)
   | Raise _ => Ok (best_seq, best_tl)
   end)%result.

Definition _find_latest_tl_sequence (ax25_frames : list bytes)
  : result (option (Z * TelemetryTL)) :=
  ('(best_seq, best_tl) <-
     fold_left latest_sequence_step ax25_frames (Ok (None, None)) ;;
   match best_seq, best_tl with
   | Some s, Some t => Ok (Some (s, t))
   | _, _ => Ok None
   end)%result.

(** The transmissions of [main]: the telecommand is built, wrapped and
    modulated with the defaults of the modulator. *)
Definition tx_motd_wav (seq : Z) (motd : pystr) : result wav :=
  (motd_tc <- value (build_set_motd hmac_digest seq motd) ;;
   motd_ax25 <- _wrap_uplink_ax25 motd_tc ;;
   mod_default motd_ax25)%result.

Definition tx_sstv_wav (sstv_seq : Z) : result wav :=
  (sstv_tc <- value (build_sstv hmac_digest sstv_seq) ;;
   sstv_ax25 <- _wrap_uplink_ax25 sstv_tc ;;
   mod_default sstv_ax25)%result.

End Mission.

(** The telemetry that a frame holds, if it holds one. *)
Definition telemetry_of (fr : bytes) : option TelemetryTL :=
  match frame_telemetry fr with
  | Ok tl => Some tl
  | Raise _ => None
  end.

(** The sixteen bytes of header of an uplink frame. *)
Definition uplink_header : bytes :=
  [144; 130; 110; 140; 152; 164; 96; 142; 164; 158; 170; 156; 136; 97; 3; 240].

(** A telemetry frame as the satellite sends it, and one of an older
    sequence number. *)
Definition sample_tl_frame : bytes := uplink_header ++ sample_tl.
Definition older_tl_frame : bytes :=
  uplink_header ++ [0x54; 0x4c; 0; 0; 0; 5] ++ skipn 6 sample_tl.

(** One turn of the loop on what the frame holds. *)
Definition later (best : option TelemetryTL) (found : option TelemetryTL)
  : option TelemetryTL :=
  match found with
  | Some tl =>
      match best with
      | None => Some tl
      | Some b => if sequence b <? sequence tl then Some tl else best
      end
  | None => best
  end.

(** The satellite can read the telecommand [tc] from the file [w]:
    among the candidates of the demodulator on its samples is the
    uplink frame alone, at phase 0 and with variant 1 of the
    descrambler, the demodulator returns a frame or more, the payload of
    the uplink frame is [tc], and [tc] passes the verification. *)
Definition uplink_received (hmac_digest : bytes -> bytes -> bytes)
    (tc : bytes) (w : wav) : Prop :=
  exists samples r,
    unpack_i16le (pcm_frames w) = Ok samples /\
    In (mkDemodResult [uplink_header ++ tc] 0 false 1)
       (demod_candidates samples 5) /\
    demod_default w = Ok r /\ 1 <= len (frames r) /\
    AX25Frame_decode (uplink_header ++ tc)
    = Ok (mkFrame (mkAddress HA7FLR 0) (mkAddress GROUND 0)
                  AX25_CONTROL_UI AX25_PID_NO_LAYER3 tc) /\
    value (verify_telecommand hmac_digest tc) = None.

(** Bits between two runs of flags. *)
Definition framed (pre : nat) (data : bits) (post : nat) : bits :=
  flag_run (Z.of_nat pre) ++ data ++ flag_run (Z.of_nat post).

(** ** Runs of a mask ([robot36_decode.py])

    [_run_starts] on a mask given as a list of booleans.  The numpy
    calls are the list functions below; the differences of an array of
    0s and 1s are -1, 0 or 1, so that [int8] does not wrap. *)

(** [mask.astype(np.int8)]. *)
Definition astype_int8 (mask : list bool) : list Z :=
  map (fun b : bool => if b then 1 else 0) mask.

(** [np.diff(m, prepend=m[0])]: the first element is put before the
    array and each element is taken minus the one before it. *)
Fixpoint diff_go (prev : Z) (m : list Z) : list Z :=
  match m with
  | [] => []
  | x :: r => (x - prev) :: diff_go x r
  end.

Definition diff_prepend_first (m : list Z) : list Z :=
  match m with
  | [] => []
  | x :: _ => diff_go x m
  end.

(** [np.where(dm == v)[0].tolist()]: the indices, counted from [i],
    of the elements equal to [v]. *)
Fixpoint where_eq (v i : Z) (dm : list Z) : list Z :=
  match dm with
  | [] => []
  | x :: r => if x =? v then i :: where_eq v (i + 1) r else where_eq v (i + 1) r
  end.

Definition _run_starts (mask : list bool) : list (Z * Z) :=
  match mask with
  | [] => []
  | first :: _ =>
      let m := astype_int8 mask in
      let dm := diff_prepend_first m in
      let starts := where_eq 1 0 dm in
      let ends := where_eq (-1) 0 dm in
      let starts := if first then 0 :: starts else starts in
      let ends := if last mask false then ends ++ [len mask] else ends in
      combine starts ends
  end.

(** The value of the mask at an index. *)
Definition mask_at (mask : list bool) (i : Z) : bool := nth (Z.to_nat i) mask false.

(** The runs of a mask read from left to right: [i] is the index of
    the head of the list, [open] the start of the run that the index
    before it belongs to. *)
Fixpoint runs_go (i : Z) (open : option Z) (mask : list bool) : list (Z * Z) :=
  match mask with
  | [] => match open with Some s => [(s, i)] | None => [] end
  | b :: r =>
      if b then runs_go (i + 1) (Some (match open with Some s => s | None => i end)) r
      else
        match open with
        | Some s => (s, i) :: runs_go (i + 1) None r
        | None => runs_go (i + 1) None r
        end
  end.

(** The rising and the falling edges of a mask after a value [prev]. *)
Fixpoint rising (prev : bool) (i : Z) (mask : list bool) : list Z :=
  match mask with
  | [] => []
  | b :: r => if b && negb prev then i :: rising b (i + 1) r else rising b (i + 1) r
  end.

Fixpoint falling (prev : bool) (i : Z) (mask : list bool) : list Z :=
  match mask with
  | [] => if prev then [i] else []
  | b :: r => if negb b && prev then i :: falling b (i + 1) r else falling b (i + 1) r
  end.

(** What is known before the index [i = len pre]. *)
Definition open_ok (pre : list bool) (open : option Z) : Prop :=
  match open with
  | Some s =>
      0 <= s < len pre /\
      (forall j, s <= j < len pre -> mask_at pre j = true) /\
      (0 < s -> mask_at pre (s - 1) = false)
  | None => pre = [] \/ mask_at pre (len pre - 1) = false
  end.

Definition is_run (mask : list bool) (s e : Z) : Prop :=
  0 <= s < e /\ e <= len mask /\
  (forall j, s <= j < e -> mask_at mask j = true) /\
  (0 < s -> mask_at mask (s - 1) = false) /\
  (e < len mask -> mask_at mask e = false).

(** The sync frames of a capture with two pulses. *)
Definition sample_mask : list bool :=
  [true; true; false; false; true; true; true; false; true].

(** * Properties *)

(** ** Common facts *)

Lemma Ok_inj {A : Type} (a b : A) : Ok a = Ok b -> a = b.
Proof. congruence. Qed.

Lemma land1_cases (x : Z) : Z.land x 1 = 0 \/ Z.land x 1 = 1.
Proof.
  change 1 with (Z.ones 1) at 1 2. rewrite Z.land_ones by lia.
  pose proof (Z.mod_pos_bound x (2 ^ 1)) as H. change (2 ^ 1) with 2 in *. lia.
Qed.

Lemma land1_bit (b : Z) : is_bit b -> Z.land b 1 = b.
Proof. intros [-> | ->]; reflexivity. Qed.

Lemma map_land1_bits (bs : bits) :
  Forall is_bit bs -> map (fun b => Z.land b 1) bs = bs.
Proof.
  induction 1 as [|b bs Hb _ IH]; simpl; [reflexivity|].
  now rewrite land1_bit, IH.
Qed.

Lemma bytes_eqb_eq (a b : bytes) : bytes_eqb a b = true <-> a = b.
Proof.
  unfold bytes_eqb. destruct (list_eq_dec Z.eq_dec a b); split; congruence.
Qed.

Lemma bytes_eqb_refl (a : bytes) : bytes_eqb a a = true.
Proof. now apply bytes_eqb_eq. Qed.

Lemma bytes_eqb_neq (a b : bytes) : a <> b -> bytes_eqb a b = false.
Proof. unfold bytes_eqb. destruct (list_eq_dec Z.eq_dec a b); congruence. Qed.

Lemma in_zrange (n i : Z) : In i (zrange n) <-> 0 <= i < n.
Proof.
  unfold zrange. rewrite in_map_iff. split.
  - intros [k [<- Hk]]. apply in_seq in Hk. lia.
  - intros Hi. exists (Z.to_nat i). split; [lia|]. apply in_seq. lia.
Qed.

Lemma len_zslice {A : Type} (l : list A) (lo hi : Z) :
  0 <= lo <= hi -> hi <= len l -> len (zslice l lo hi) = hi - lo.
Proof.
  intros H1 H2. unfold len, zslice in *. rewrite length_firstn, length_skipn. lia.
Qed.

Lemma Forall_firstn_skipn {A : Type} (P : A -> Prop) (n : nat) (l : list A) :
  Forall P l -> Forall P (firstn n l) /\ Forall P (skipn n l).
Proof.
  intros H. rewrite <- (firstn_skipn n l) in H. now apply Forall_app in H.
Qed.

(** ** CRC *)

(** The check value of CRC-16/X-25 on "123456789". *)
Example crc16_x25_check :
  crc16_x25 [49; 50; 51; 52; 53; 54; 55; 56; 57] = 0x906E.
Proof. reflexivity. Qed.

(** ** Bit stuffing *)

(** Ten 1s get two stuffed 0s: the counter starts again after the
    first of them. *)
Example bitstuff_ten_ones :
  bitstuff (repeat 1 10) = [1; 1; 1; 1; 1; 0; 1; 1; 1; 1; 1; 0] /\
  bitstuff_counter [1; 1; 1; 1; 1] = 0.
Proof. split; reflexivity. Qed.

Lemma byte_bits_are_bits (b : Z) : Forall is_bit (byte_bits b).
Proof.
  unfold byte_bits. apply Forall_forall. intros x Hx.
  apply in_map_iff in Hx. destruct Hx as [i [<- _]]. apply land1_cases.
Qed.

Lemma bytes_to_bits_are_bits (data : bytes) :
  Forall is_bit (bytes_to_bits_lsb_first data).
Proof.
  unfold bytes_to_bits_lsb_first.
  induction data as [|b data IH]; cbn [flat_map]; [constructor|].
  apply Forall_app. split; [apply byte_bits_are_bits | exact IH].
Qed.

Lemma fst_bitstuff_go_cons (ones b : Z) (rest : bits) :
  fst (bitstuff_go ones (b :: rest)) =
  if Z.land b 1 =? 1 then
    if ones + 1 =? 5 then Z.land b 1 :: 0 :: fst (bitstuff_go 0 rest)
    else Z.land b 1 :: fst (bitstuff_go (ones + 1) rest)
  else Z.land b 1 :: fst (bitstuff_go 0 rest).
Proof.
  simpl.
  destruct (Z.land b 1 =? 1); [destruct (ones + 1 =? 5)|];
    match goal with
    | |- context [bitstuff_go ?o rest] => destruct (bitstuff_go o rest)
    end; reflexivity.
Qed.

Lemma snd_bitstuff_go_cons (ones b : Z) (rest : bits) :
  snd (bitstuff_go ones (b :: rest)) =
  if Z.land b 1 =? 1 then
    if ones + 1 =? 5 then snd (bitstuff_go 0 rest)
    else snd (bitstuff_go (ones + 1) rest)
  else snd (bitstuff_go 0 rest).
Proof.
  simpl.
  destruct (Z.land b 1 =? 1); [destruct (ones + 1 =? 5)|];
    match goal with
    | |- context [bitstuff_go ?o rest] => destruct (bitstuff_go o rest)
    end; reflexivity.
Qed.

(** The destuffer follows the stuffer step by step, from any value of
    the counter. *)
Lemma bitunstuff_go_bitstuff_go (bs : bits) :
  forall ones, bitunstuff_go ones (fst (bitstuff_go ones bs))
               = map (fun b => Z.land b 1) bs.
Proof.
  induction bs as [|b rest IH]; intros ones; [reflexivity|].
  rewrite fst_bitstuff_go_cons. cbn [map].
  destruct (land1_cases b) as [Hb | Hb]; rewrite Hb; cbn [Z.eqb].
  - cbn. now rewrite IH.
  - destruct (ones + 1 =? 5) eqn:E.
    + cbn. rewrite E. cbn. now rewrite IH.
    + cbn. rewrite E. now rewrite IH.
Qed.

Lemma bitunstuff_bitstuff (bs : bits) :
  bitunstuff (bitstuff bs) = map (fun b => Z.land b 1) bs.
Proof. apply bitunstuff_go_bitstuff_go. Qed.

Lemma stuffed_ok_bitstuff_go (bs : bits) :
  forall ones, 0 <= ones <= 4 ->
    stuffed_ok (Z.to_nat ones) (fst (bitstuff_go ones bs)) = true.
Proof.
  induction bs as [|b rest IH]; intros ones Ho.
  - simpl. apply Nat.ltb_lt. lia.
  - rewrite fst_bitstuff_go_cons.
    destruct (land1_cases b) as [Hb | Hb]; rewrite Hb; cbn [Z.eqb].
    + cbn [stuffed_ok Z.eqb Pos.eqb]. apply (IH 0). lia.
    + assert (Hlt : (Z.to_nat ones <? 5)%nat = true) by (apply Nat.ltb_lt; lia).
      destruct (ones + 1 =? 5) eqn:E.
      * cbn [stuffed_ok Z.eqb Pos.eqb]. rewrite Hlt. cbn. apply (IH 0). lia.
      * cbn [stuffed_ok Z.eqb Pos.eqb]. rewrite Hlt. cbn [andb].
        replace (S (Z.to_nat ones)) with (Z.to_nat (ones + 1)) by lia.
        apply IH. apply Z.eqb_neq in E. lia.
Qed.

Lemma stuffed_ok_suffix (pre l : bits) :
  forall cur, stuffed_ok cur (pre ++ l) = true ->
              exists cur', stuffed_ok cur' l = true.
Proof.
  induction pre as [|b pre IH]; intros cur H.
  - now exists cur.
  - simpl in H. destruct (b =? 1).
    + apply andb_true_iff in H. destruct H as [_ H]. now apply IH in H.
    + now apply IH in H.
Qed.

Lemma stuffed_ok_ones (n : nat) (l : bits) :
  forall cur, stuffed_ok cur (repeat 1 n ++ l) = true ->
    (n = 0 \/ cur + n <= 5)%nat /\ stuffed_ok (cur + n) l = true.
Proof.
  induction n as [|n IH]; intros cur H.
  - rewrite Nat.add_0_r. split; [now left | exact H].
  - cbn [repeat app stuffed_ok Z.eqb Pos.eqb] in H.
    apply andb_true_iff in H. destruct H as [Hc H].
    apply Nat.ltb_lt in Hc. apply IH in H. destruct H as [Hn H].
    replace (cur + S n)%nat with (S cur + n)%nat by lia.
    split; [right; lia | exact H].
Qed.

Lemma stuffed_ok_no_six (pre post : bits) (cur : nat) :
  stuffed_ok cur (pre ++ repeat 1 6 ++ post) = false.
Proof.
  destruct (stuffed_ok cur (pre ++ repeat 1 6 ++ post)) eqn:E; [|reflexivity].
  apply stuffed_ok_suffix in E. destruct E as [c E].
  apply stuffed_ok_ones in E. lia.
Qed.

Lemma stuffed_ok_five_then (pre post : bits) (cur : nat) :
  stuffed_ok cur (pre ++ repeat 1 5 ++ post) = true ->
  exists b post', post = b :: post' /\ b <> 1.
Proof.
  intros E. apply stuffed_ok_suffix in E. destruct E as [c E].
  apply stuffed_ok_ones in E. destruct E as [Hc E].
  assert (c = 0)%nat by lia. subst c. cbn [Nat.add] in E.
  destruct post as [|b post']; cbn [stuffed_ok] in E; [discriminate|].
  exists b, post'. split; [reflexivity|].
  intros ->. cbn in E. discriminate.
Qed.

Lemma bitstuff_go_bits (bs : bits) :
  forall ones, Forall is_bit (fst (bitstuff_go ones bs)).
Proof.
  induction bs as [|b rest IH]; intros ones; [constructor|].
  rewrite fst_bitstuff_go_cons.
  destruct (Z.land b 1 =? 1); [destruct (ones + 1 =? 5)|];
    repeat (constructor; try apply land1_cases; try (now left)); apply IH.
Qed.

Lemma bitstuff_no_six (bs : bits) : ~ has_run 6 (bitstuff bs).
Proof.
  intros [pre [post E]].
  pose proof (stuffed_ok_bitstuff_go bs 0 ltac:(lia)) as H.
  fold (bitstuff bs) in H. rewrite E in H.
  now rewrite stuffed_ok_no_six in H.
Qed.

Lemma bitstuff_zero_after_five (bs pre post : bits) :
  bitstuff bs = pre ++ repeat 1 5 ++ post -> exists post', post = 0 :: post'.
Proof.
  intros E.
  pose proof (stuffed_ok_bitstuff_go bs 0 ltac:(lia)) as H.
  fold (bitstuff bs) in H. rewrite E in H.
  apply stuffed_ok_five_then in H. destruct H as [b [post' [-> Hb]]].
  exists post'. f_equal.
  pose proof (bitstuff_go_bits bs 0) as Hbits. fold (bitstuff bs) in Hbits.
  rewrite E in Hbits. apply Forall_app in Hbits. destruct Hbits as [_ Hbits].
  apply Forall_app in Hbits. destruct Hbits as [_ Hbits].
  inversion Hbits as [|x l [Hx | Hx] _]; subst; [reflexivity | contradiction].
Qed.

(** The counter after one more data bit. *)
Lemma snd_bitstuff_go_snoc (bs : bits) (b : Z) :
  forall ones,
    snd (bitstuff_go ones (bs ++ [b])) =
    if Z.land b 1 =? 1 then
      if snd (bitstuff_go ones bs) + 1 =? 5 then 0
      else snd (bitstuff_go ones bs) + 1
    else 0.
Proof.
  induction bs as [|x rest IH]; intros ones.
  - cbn [app]. rewrite snd_bitstuff_go_cons. cbn [bitstuff_go snd].
    destruct (Z.land b 1 =? 1); [destruct (ones + 1 =? 5)|]; reflexivity.
  - cbn [app]. rewrite !snd_bitstuff_go_cons.
    destruct (Z.land x 1 =? 1); [destruct (ones + 1 =? 5)|]; apply IH.
Qed.

(** C8 (refuted as written): the counter of [bitstuff] does not go back
    to 0 on a data bit 0 only.  After the data bits 1,1,1,1 a fifth 1
    makes the stuffer insert a 0 and restart its counter, although no
    data bit was 0. *)
Lemma bitstuff_counter_resets_after_stuffing :
  ~ counter_resets_only_on_data_zero.
Proof.
  intros H. specialize (H [1; 1; 1; 1] 1 eq_refl). vm_compute in H. discriminate.
Qed.

(** C8 (as amended): for a byte sequence whose bits hold fewer than
    five 1s in a row, destuffing the stuffed bits gives the bits back;
    for every input the stuffed bits hold no six 1s in a row, five 1s in
    a row are always followed by a 0, and the counter of the stuffer
    restarts on a data bit 0 and after each inserted 0 (on the fifth 1
    of a run). *)
Theorem bitstuff_roundtrip_and_runs :
  (forall S : bytes,
      (longest_run (bytes_to_bits_lsb_first S) < 5)%nat ->
      bitunstuff (bitstuff (bytes_to_bits_lsb_first S))
      = bytes_to_bits_lsb_first S) /\
  (forall bs : bits, ~ has_run 6 (bitstuff bs)) /\
  (forall bs pre post : bits,
      bitstuff bs = pre ++ repeat 1 5 ++ post -> exists post', post = 0 :: post') /\
  (forall (bs : bits) (b : Z),
      bitstuff_counter (bs ++ [b]) =
      if Z.land b 1 =? 1 then
        if bitstuff_counter bs + 1 =? 5 then 0 else bitstuff_counter bs + 1
      else 0).
Proof.
  split; [|split; [|split]].
  - intros S _. rewrite bitunstuff_bitstuff.
    apply map_land1_bits, bytes_to_bits_are_bits.
  - apply bitstuff_no_six.
  - apply bitstuff_zero_after_five.
  - intros bs b. apply snd_bitstuff_go_snoc.
Qed.

Lemma bitstuff_roundtrip_and_runs_witness :
  (longest_run (bytes_to_bits_lsb_first short_run_bytes) < 5)%nat /\
  bitunstuff (bitstuff (bytes_to_bits_lsb_first short_run_bytes))
  = bytes_to_bits_lsb_first short_run_bytes.
Proof.
  assert (H : (longest_run (bytes_to_bits_lsb_first short_run_bytes) < 5)%nat)
    by (vm_compute; lia).
  split; [exact H|].
  exact (proj1 bitstuff_roundtrip_and_runs short_run_bytes H).
Defined.

(** The round trip needs no bound on the runs: it holds for every byte
    sequence, the stuffed 0s being the ones the destuffer drops. *)
Lemma bitstuff_roundtrip_any (S : bytes) :
  bitunstuff (bitstuff (bytes_to_bits_lsb_first S)) = bytes_to_bits_lsb_first S.
Proof.
  rewrite bitunstuff_bitstuff. apply map_land1_bits, bytes_to_bits_are_bits.
Qed.

(** ** Scrambler *)

Lemma lxor_bit_mask (b t : Z) :
  Z.land (Z.lxor (Z.land b 1) (Z.land t 1)) 1 = Z.lxor (Z.land b 1) (Z.land t 1).
Proof.
  destruct (land1_cases b) as [-> | ->], (land1_cases t) as [-> | ->]; reflexivity.
Qed.

Lemma lxor_cancel (b t : Z) : Z.lxor (Z.lxor b t) t = b.
Proof. now rewrite Z.lxor_assoc, Z.lxor_nilpotent, Z.lxor_0_r. Qed.

(** The routine that shifts its input in, then the routine that shifts
    its output in: both registers hold the same value at every step, so
    the second undoes the first. *)
Lemma feedback_after_feedforward (v : Z) (bs : bits) :
  v <> 0 ->
  forall lfsr, descramble_go v lfsr (descramble_go 0 lfsr bs)
               = map (fun b => Z.land b 1) bs.
Proof.
  intros Hv. apply Z.eqb_neq in Hv.
  induction bs as [|b rest IH]; intros lfsr; [reflexivity|].
  cbn [descramble_go map Z.eqb]. rewrite Hv.
  rewrite lxor_bit_mask, lxor_cancel. f_equal. apply IH.
Qed.

Lemma feedforward_after_feedback (v : Z) (bs : bits) :
  v <> 0 ->
  forall lfsr, descramble_go 0 lfsr (descramble_go v lfsr bs)
               = map (fun b => Z.land b 1) bs.
Proof.
  intros Hv. apply Z.eqb_neq in Hv.
  induction bs as [|b rest IH]; intros lfsr; [reflexivity|].
  cbn [descramble_go map Z.eqb]. rewrite Hv.
  rewrite lxor_bit_mask, lxor_cancel. f_equal. apply IH.
Qed.

(** What the code does instead of C1: descrambling with the other
    variant gives every bit back, from the first one on. *)
Lemma g3ruh_other_variant_inverts (B : bits) :
  Forall is_bit B ->
  g3ruh_descramble (g3ruh_scramble B 0) 1 = B /\
  g3ruh_descramble (g3ruh_scramble B 1) 0 = B.
Proof.
  intros HB. unfold g3ruh_scramble, g3ruh_descramble. split.
  - rewrite feedback_after_feedforward by lia. now apply map_land1_bits.
  - rewrite feedforward_after_feedback by lia. now apply map_land1_bits.
Qed.

(** Zeros leave the register at zero, so a stream can start with any
    number of them before the impulse. *)
Lemma descramble_go_zeros (v : Z) (n : nat) (bs : bits) :
  descramble_go v 0 (repeat 0 n ++ bs) = repeat 0 n ++ descramble_go v 0 bs.
Proof.
  induction n as [|n IH]; [reflexivity|].
  cbn [repeat app descramble_go]. destruct (v =? 0); cbn; now rewrite IH.
Qed.

(** C1 (the code at a failing input): scrambling and descrambling the
    stream 1,0,...,0 (twenty-four 0s) with the same variant does not
    give the stream back, for variant 0 and for variant 1, and the
    difference lies after the first seventeen bits: bit 24 comes back
    as 1. *)
Theorem g3ruh_same_variant_not_inverse :
  g3ruh_descramble (g3ruh_scramble impulse24 0) 0 <> impulse24 /\
  g3ruh_descramble (g3ruh_scramble impulse24 1) 1 <> impulse24 /\
  skipn 17 (g3ruh_descramble (g3ruh_scramble impulse24 0) 0) <> skipn 17 impulse24 /\
  skipn 17 (g3ruh_descramble (g3ruh_scramble impulse24 1) 1) <> skipn 17 impulse24 /\
  nth 24 (g3ruh_descramble (g3ruh_scramble impulse24 0) 0) 0 = 1 /\
  nth 24 (g3ruh_descramble (g3ruh_scramble impulse24 1) 1) 0 = 1 /\
  nth 24 impulse24 0 = 0.
Proof. repeat split; vm_compute; congruence. Qed.

(** No length of the fill helps: after [n] zeros the same impulse is
    lost in the same way. *)
Lemma g3ruh_same_variant_not_inverse_later (n : nat) (v : Z) :
  v = 0 \/ v = 1 ->
  nth (n + 24) (g3ruh_descramble (g3ruh_scramble (repeat 0 n ++ impulse24) v) v) 0
  <> nth (n + 24) (repeat 0 n ++ impulse24) 0.
Proof.
  intros Hv. unfold g3ruh_scramble, g3ruh_descramble.
  rewrite !descramble_go_zeros.
  rewrite !app_nth2 by (rewrite repeat_length; lia).
  rewrite repeat_length. replace (n + 24 - n)%nat with 24%nat by lia.
  destruct Hv as [-> | ->]; vm_compute; discriminate.
Qed.

(** ** HDLC framer *)

Lemma in_filter_map {A B : Type} (f : A -> option B) (l : list A) (y : B) :
  In y (filter_map f l) <-> exists x, In x l /\ f x = Some y.
Proof.
  induction l as [|a l IH]; simpl.
  - split; [contradiction | intros [x [[] _]]].
  - destruct (f a) eqn:E; simpl; rewrite IH; split.
    + intros [<- | [x [Hx Hf]]]; [exists a; auto | exists x; auto].
    + intros [x [[<- | Hx] Hf]]; [left; congruence | right; exists x; auto].
    + intros [x [Hx Hf]]. exists x; auto.
    + intros [x [[<- | Hx] Hf]]; [congruence | exists x; auto].
Qed.

Lemma in_combine_tl {A : Type} (l : list A) (a b : A) :
  In (a, b) (combine l (tl l)) <-> neighbours l a b.
Proof.
  unfold neighbours. induction l as [|x l IH]; simpl.
  - split; [contradiction | intros [pre [post H]]; destruct pre; discriminate].
  - destruct l as [|y l]; simpl in *.
    + split; [contradiction|].
      intros [pre [post H]]. destruct pre as [|p [|q pre]]; discriminate.
    + split.
      * intros [H | H].
        -- inversion H; subst. now exists [], l.
        -- apply IH in H. destruct H as [pre [post H]].
           exists (x :: pre), post. simpl. now rewrite H.
      * intros [pre [post H]]. destruct pre as [|p pre]; simpl in H.
        -- inversion H; subst. now left.
        -- right. apply IH. inversion H; subst. now exists pre, post.
Qed.

Lemma len_bits_to_bytes_go (l : bits) :
  forall acc n, 0 <= n < 8 -> len (bits_to_bytes_go acc n l) = (n + len l) / 8.
Proof.
  unfold len. induction l as [|b rest IH]; intros acc n Hn.
  - cbn [bits_to_bytes_go length]. rewrite Z.div_small; lia.
  - cbn [bits_to_bytes_go]. destruct (n + 1 =? 8) eqn:E.
    + apply Z.eqb_eq in E. cbn [length]. rewrite !Nat2Z.inj_succ, IH by lia.
      replace (n + Z.succ (Z.of_nat (length rest)))
        with (1 * 8 + (0 + Z.of_nat (length rest))) by lia.
      rewrite Z.div_add_l by lia. lia.
    + apply Z.eqb_neq in E. rewrite IH by lia. cbn [length].
      f_equal. lia.
Qed.

Lemma len_bits_to_bytes (l : bits) : len (bits_to_bytes_lsb_first l) = len l / 8.
Proof. unfold bits_to_bytes_lsb_first. now rewrite len_bits_to_bytes_go. Qed.

(** Destuffing drops at most every other bit. *)
Lemma length_bitunstuff_go (n : nat) :
  forall l ones, (length l <= n)%nat ->
    (length l <= 2 * length (bitunstuff_go ones l))%nat.
Proof.
  induction n as [|n IH]; intros l ones Hl.
  - destruct l; simpl in *; lia.
  - destruct l as [|b rest]; [simpl; lia|].
    cbn [bitunstuff_go]. cbn [length] in Hl.
    destruct (b =? 1); [destruct (ones + 1 =? 5)|].
    + destruct rest as [|nxt rest']; [simpl; lia|].
      destruct (nxt =? 0); cbn [length].
      * cbn [length] in Hl. specialize (IH rest' 0 ltac:(lia)). lia.
      * specialize (IH (nxt :: rest') 0 ltac:(simpl in *; lia)).
        cbn [length] in IH. lia.
    + cbn [length]. specialize (IH rest (ones + 1) ltac:(lia)). lia.
    + cbn [length]. specialize (IH rest 0 ltac:(lia)). lia.
Qed.

Lemma len_bitunstuff (l : bits) : len l <= 2 * len (bitunstuff l).
Proof.
  unfold len, bitunstuff.
  pose proof (length_bitunstuff_go (length l) l 0 (le_n _)). lia.
Qed.

Lemma frame_candidate_some (bs : bits) (a b : Z) (f : bytes) :
  frame_candidate bs (a, b) = Some f <->
  8 * (7 + 7 + 2 + 2) <= len (zslice bs (a + 8) b) /\
  f = drop_last 2 (candidate_bytes bs a b) /\
  crc16_x25 f = fcs_of (candidate_bytes bs a b).
Proof.
  unfold frame_candidate, candidate_bytes, fcs_of.
  set (p := zslice bs (a + 8) b).
  set (data := bits_to_bytes_lsb_first (bitunstuff p)).
  assert (Hdata : 8 * (7 + 7 + 2 + 2) <= len p -> 2 <= len data).
  { intros Hp. unfold data. rewrite len_bits_to_bytes.
    pose proof (len_bitunstuff p).
    apply Z.div_le_lower_bound; lia. }
  assert (Hab : 8 * (7 + 7 + 2 + 2) <= len p -> a + 8 < b).
  { intros Hp. unfold p, zslice, len in Hp.
    rewrite length_firstn in Hp. lia. }
  destruct (b <=? a + 8) eqn:E1.
  { apply Z.leb_le in E1. split; [discriminate|].
    intros [Hp _]. apply Hab in Hp. lia. }
  destruct (len p <? 8 * (7 + 7 + 2 + 2)) eqn:E2.
  { apply Z.ltb_lt in E2. split; [discriminate|]. intros [Hp _]. lia. }
  apply Z.ltb_ge in E2.
  destruct (len data <? 2) eqn:E3.
  { apply Z.ltb_lt in E3. apply Hdata in E2. lia. }
  destruct (Z.lor _ _ =? crc16_x25 (drop_last 2 data)) eqn:E4; cbn [negb].
  - apply Z.eqb_eq in E4. split.
    + intros H. inversion H; subst. auto.
    + intros [_ [-> _]]. reflexivity.
  - apply Z.eqb_neq in E4. split; [discriminate|].
    intros [_ [-> H]]. congruence.
Qed.

Lemma in_flag_positions (bs : bits) (i : Z) :
  In i (flag_positions bs) <->
  0 <= i /\ i + 8 <= len bs /\ zslice bs i (i + 8) = [0; 1; 1; 1; 1; 1; 1; 0].
Proof.
  unfold flag_positions. rewrite filter_In, in_zrange, bytes_eqb_eq.
  change (len flag_bits) with 8. change flag_bits with [0; 1; 1; 1; 1; 1; 1; 0].
  intuition lia.
Qed.

Lemma zrange_sorted (n : Z) : StronglySorted Z.lt (zrange n).
Proof.
  unfold zrange. generalize 0%nat as s.
  induction (Z.to_nat n) as [|k IH]; intros s; cbn [seq map]; constructor.
  - apply IH.
  - apply Forall_forall. intros x Hx. apply in_map_iff in Hx.
    destruct Hx as [j [<- Hj]]. apply in_seq in Hj. lia.
Qed.

Lemma filter_sorted (p : Z -> bool) (l : list Z) :
  StronglySorted Z.lt l -> StronglySorted Z.lt (filter p l).
Proof.
  induction 1 as [|x l Hs IH Hx]; cbn [filter]; [constructor|].
  destruct (p x); [|exact IH]. constructor; [exact IH|].
  apply Forall_forall. intros y Hy. apply filter_In in Hy.
  rewrite Forall_forall in Hx. now apply Hx.
Qed.

Lemma flag_positions_sorted (bs : bits) : StronglySorted Z.lt (flag_positions bs).
Proof. apply filter_sorted, zrange_sorted. Qed.

(** In an increasing list two neighbours are in order and nothing of
    the list lies between them. *)
Lemma neighbours_sorted (l : list Z) (a b : Z) :
  StronglySorted Z.lt l -> neighbours l a b ->
  a < b /\ forall c, In c l -> c <= a \/ b <= c.
Proof.
  intros Hs [pre [post ->]]. induction pre as [|x pre IH]; cbn [app] in *.
  - inversion Hs as [|? ? Hs' Ha]; subst. inversion Hs' as [|? ? _ Hb]; subst.
    rewrite Forall_forall in Ha, Hb. split; [apply Ha; now left|].
    intros c [<- | [<- | Hc]]; [lia | lia |]. right. apply Hb in Hc. lia.
  - inversion Hs as [|? ? Hs' Hx]; subst. destruct (IH Hs') as [Hab Hbet].
    split; [exact Hab|]. intros c [<- | Hc]; [|now apply Hbet].
    left. rewrite Forall_forall in Hx. apply Z.lt_le_incl, Hx.
    apply in_or_app. right. now left.
Qed.

Lemma neighbours_in {A : Type} (l : list A) (a b : A) :
  neighbours l a b -> In a l /\ In b l.
Proof.
  intros [pre [post ->]]. split; apply in_or_app; right; simpl; auto.
Qed.

(** Neighbouring flag positions are consecutive flags of the stream,
    and the candidate between them has [b - (a + 8)] bits. *)
Lemma flag_neighbours (bs : bits) (a b : Z) :
  neighbours (flag_positions bs) a b ->
  a < b /\
  (forall c, In c (flag_positions bs) -> c <= a \/ b <= c) /\
  (a + 8 <= b -> len (zslice bs (a + 8) b) = b - (a + 8)).
Proof.
  intros Hn.
  destruct (neighbours_sorted _ _ _ (flag_positions_sorted bs) Hn) as [Hab Hbet].
  destruct (neighbours_in _ _ _ Hn) as [Ha Hb].
  apply in_flag_positions in Ha, Hb.
  repeat split; [exact Hab | exact Hbet |].
  intros H. apply len_zslice; lia.
Qed.

(** C7: the flag positions are the places where the eight bits
    0,1,1,1,1,1,1,0 stand; a frame is among the extracted ones exactly
    when it lies between two consecutive flag positions [a] and [b]
    with at least 8 * (7 + 7 + 2 + 2) bits in [a + 8, b), is the
    destuffed bits turned into bytes without the last two, and its
    CRC-16/X-25 equals those two bytes read low byte first.  The
    framer returns a list and never raises: a candidate whose check
    fails is left out. *)
Theorem extract_hdlc_frames_spec (bs : bits) :
  (forall i, In i (flag_positions bs) <->
             0 <= i /\ i + 8 <= len bs /\
             zslice bs i (i + 8) = [0; 1; 1; 1; 1; 1; 1; 0]) /\
  (forall f, In f (_extract_hdlc_frames bs) <->
     exists a b,
       neighbours (flag_positions bs) a b /\
       a < b /\
       (forall c, In c (flag_positions bs) -> c <= a \/ b <= c) /\
       8 * (7 + 7 + 2 + 2) <= b - (a + 8) /\
       f = drop_last 2 (candidate_bytes bs a b) /\
       crc16_x25 f = fcs_of (candidate_bytes bs a b)).
Proof.
  split; [apply in_flag_positions|].
  intros f. unfold _extract_hdlc_frames. rewrite in_filter_map. split.
  - intros [[a b] [Hin Hf]]. exists a, b.
    apply in_combine_tl in Hin. apply frame_candidate_some in Hf.
    destruct Hf as [Hlen [Hf Hcrc]].
    destruct (flag_neighbours bs a b Hin) as [Hab [Hbet Hl]].
    assert (a + 8 < b).
    { unfold zslice, len in Hlen. rewrite length_firstn in Hlen. lia. }
    rewrite Hl in Hlen by lia. tauto.
  - intros [a [b [Hn [Hab [Hbet [Hlen [Hf Hcrc]]]]]]]. exists (a, b). split.
    + now apply in_combine_tl.
    + apply frame_candidate_some.
      destruct (flag_neighbours bs a b Hn) as [_ [_ Hl]].
      rewrite Hl by lia. tauto.
Qed.

(** On the flagged stream of a frame of 20 bytes the framer finds that
    frame and nothing else. *)
Example extract_stream20 : _extract_hdlc_frames stream20 = [frame20].
Proof. vm_compute. reflexivity. Qed.

(** ** Modem *)

(** NRZI decoding undoes NRZI encoding, whatever the first level. *)
Lemma nrzi_decode_go_encode_go (bs : bits) :
  forall level, is_bit level ->
    nrzi_decode_go level (nrzi_encode_go level bs) = map (fun b => Z.land b 1) bs.
Proof.
  induction bs as [|b rest IH]; intros level Hl; [reflexivity|].
  cbn [nrzi_encode_go nrzi_decode_go map].
  destruct (land1_cases b) as [Hb | Hb]; rewrite Hb; cbn [Z.eqb].
  - destruct Hl as [-> | ->]; cbn; (rewrite IH; [reflexivity|]);
      [now right | now left].
  - rewrite Z.eqb_refl. rewrite IH by exact Hl. reflexivity.
Qed.

Lemma nrzi_roundtrip (bs : bits) (initial_level : Z) :
  Forall is_bit bs -> nrzi_decode (nrzi_encode bs initial_level) = bs.
Proof.
  intros Hb. unfold nrzi_encode, nrzi_decode.
  rewrite nrzi_decode_go_encode_go by apply land1_cases.
  now apply map_land1_bits.
Qed.

(** C2 (the code at a failing input): the frame of 20 bytes, modulated
    with the defaults (scramble variant 0) and demodulated, comes back
    as the only frame, at phase 0 and not inverted, but the variant the
    demodulator reports is 1, not the 0 of the encoder. *)
Theorem modem_roundtrip_reports_other_variant :
  mod_default frame20 = Ok wav20 /\
  demod_default wav20 = Ok (mkDemodResult [frame20] 0 false 1).
Proof. split; vm_compute; reflexivity. Qed.

(** With scramble variant 1 in the encoder the demodulator reports 0. *)
Example modem_roundtrip_variant_one :
  mod_ax25_frame_to_wav frame20 9600 48000 20000 32 8 1 1 = Ok wav20_variant1 /\
  demod_default wav20_variant1 = Ok (mkDemodResult [frame20] 0 false 0).
Proof. split; vm_compute; reflexivity. Qed.

(** ** AX.25 *)

Lemma land_7f (x : Z) : 0 <= Z.land x 0x7F < 128.
Proof.
  change 0x7F with (Z.ones 7). rewrite Z.land_ones by lia.
  apply Z.mod_pos_bound. reflexivity.
Qed.

Lemma land_0f (x : Z) : 0 <= Z.land x 0x0F <= 15.
Proof.
  change (Z.land x 0x0F) with (Z.land x (Z.ones 4)). rewrite Z.land_ones by lia.
  pose proof (Z.mod_pos_bound x (2 ^ 4) eq_refl). change (2 ^ 4) with 16 in *. lia.
Qed.

Lemma shift_roundtrip (c : Z) :
  0 <= c < 128 -> Z.land (Z.shiftr (Z.shiftl (Z.land c 0x7F) 1) 1) 0x7F = c.
Proof.
  intros Hc. change 0x7F with (Z.ones 7). rewrite !Z.land_ones by lia.
  rewrite Z.shiftr_shiftl_l by lia. change (1 - 1) with 0. rewrite Z.shiftl_0_r.
  change (2 ^ 7) with 128. rewrite Z.mod_mod by lia. apply Z.mod_small. exact Hc.
Qed.

Lemma decode_ascii_low (l : bytes) :
  Forall (fun c => c < 128) l -> decode_ascii l = Ok l.
Proof.
  induction 1 as [|c l Hc _ IH]; cbn [decode_ascii]; [reflexivity|].
  apply Z.ltb_lt in Hc. now rewrite Hc, IH.
Qed.

Lemma encode_ascii_low (l : pystr) :
  Forall (fun c => c < 128) l -> encode_ascii l = Ok l.
Proof.
  induction 1 as [|c l Hc _ IH]; cbn [encode_ascii]; [reflexivity|].
  apply Z.ltb_lt in Hc. now rewrite Hc, IH.
Qed.

Lemma decode_ascii_shifted (l : bytes) :
  decode_ascii (map (fun b => Z.land (Z.shiftr b 1) 0x7F) l)
  = Ok (map (fun b => Z.land (Z.shiftr b 1) 0x7F) l).
Proof.
  apply decode_ascii_low, Forall_forall. intros c Hc.
  apply in_map_iff in Hc. destruct Hc as [b [<- _]]. apply land_7f.
Qed.

Lemma rstrip_space_chars (s : pystr) (P : Z -> Prop) :
  Forall P s -> Forall P (rstrip_space s).
Proof.
  induction 1 as [|c s Hc _ IH]; cbn [rstrip_space]; [constructor|].
  destruct (rstrip_space s) as [|d t].
  - destruct (c =? 32); constructor; [exact Hc | constructor].
  - constructor; assumption.
Qed.

Lemma str_upper_valid (tbl : Z -> pystr) (s : pystr) :
  Forall callsign_char s -> str_upper tbl s = s.
Proof.
  unfold str_upper.
  induction 1 as [|c s [Hc Hl] _ IH]; cbn [flat_map]; [reflexivity|].
  rewrite IH. destruct (c <? 128) eqn:E; [|apply Z.ltb_ge in E; lia].
  unfold upper_ascii.
  destruct ((97 <=? c) && (c <=? 122)) eqn:E2; [|reflexivity].
  apply andb_true_iff in E2. destruct E2 as [E2 E3].
  apply Z.leb_le in E2, E3. lia.
Qed.

Lemma rstrip_space_spaces (k : nat) : rstrip_space (repeat 32 k) = [].
Proof. induction k as [|k IH]; cbn [repeat rstrip_space]; [|rewrite IH]; reflexivity. Qed.

Lemma rstrip_space_fixed (s : pystr) :
  (forall pre, s <> pre ++ [32]) -> rstrip_space s = s.
Proof.
  induction s as [|c s IH]; intros Hs; [reflexivity|].
  cbn [rstrip_space]. destruct s as [|d s'].
  - cbn. destruct (c =? 32) eqn:E; [|reflexivity].
    apply Z.eqb_eq in E. subst. exfalso. now apply (Hs []).
  - rewrite IH; [reflexivity|].
    intros pre E. apply (Hs (c :: pre)). cbn [app]. now rewrite <- E.
Qed.

Lemma rstrip_space_app_spaces (s : pystr) (k : nat) :
  (forall pre, s <> pre ++ [32]) -> rstrip_space (s ++ repeat 32 k) = s.
Proof.
  induction s as [|c s IH]; intros Hs; cbn [app].
  - apply rstrip_space_spaces.
  - cbn [rstrip_space]. destruct s as [|d s'].
    + cbn [app]. rewrite rstrip_space_spaces.
      destruct (c =? 32) eqn:E; [|reflexivity].
      apply Z.eqb_eq in E. subst. exfalso. now apply (Hs []).
    + rewrite IH; [reflexivity|].
      intros pre E. apply (Hs (c :: pre)). cbn [app]. now rewrite <- E.
Qed.

Lemma ssid_byte_roundtrip (s : Z) (last : bool) :
  0 <= s <= 15 ->
  let ssid_byte :=
    Z.lor (Z.lor 0x60 (Z.shiftl (Z.land s 0x0F) 1)) (if last then 0x01 else 0x00) in
  Z.land (Z.shiftr ssid_byte 1) 0x0F = s /\
  truthy (Z.land ssid_byte 0x01) = last /\
  0 <= ssid_byte < 256.
Proof.
  intros Hs.
  assert (H : In s (zrange 16)).
  { unfold zrange. apply in_map_iff. exists (Z.to_nat s). split; [lia|].
    apply in_seq. lia. }
  destruct last; cbv in H;
    repeat (destruct H as [<- | H]; [cbv; repeat split; congruence|]);
    contradiction.
Qed.

Lemma length7_inv {A : Type} (l : list A) :
  length l = 7%nat -> exists a b c d e f g, l = [a; b; c; d; e; f; g].
Proof.
  intros H.
  destruct l as [|a [|b [|c [|d [|e [|f [|g [|h l]]]]]]]]; try discriminate.
  now exists a, b, c, d, e, f, g.
Qed.

Lemma address_roundtrip (tbl : Z -> pystr) (a : AX25Address) (last : bool) :
  valid_callsign (callsign a) -> 0 <= ssid a <= 15 ->
  exists addr7,
    AX25Address_encode tbl a last = Ok addr7 /\
    length addr7 = 7%nat /\
    AX25Address_decode addr7 = Ok a /\
    AX25Address_is_last addr7 = Ok last.
Proof.
  destruct a as [cs s]. cbn [callsign ssid].
  intros [Hlen [Hchars Hlast]] Hs.
  assert (Htrail : forall pre, cs <> pre ++ [32]).
  { intros pre E. apply Hlast. rewrite E. apply last_last. }
  unfold AX25Address_encode. cbn [callsign ssid].
  rewrite (str_upper_valid tbl cs Hchars).
  destruct (6 <? len cs) eqn:E1; [apply Z.ltb_lt in E1; unfold len in E1; lia|].
  destruct ((0 <=? s) && (s <=? 15)) eqn:E2.
  2:{ apply andb_false_iff in E2. destruct E2 as [E2 | E2];
      [apply Z.leb_gt in E2 | apply Z.leb_gt in E2]; lia. }
  cbn [negb].
  assert (Hpad : Forall (fun c => 0 <= c < 128) (ljust 6 cs)).
  { unfold ljust. apply Forall_app. split.
    - eapply Forall_impl; [|exact Hchars]. intros c [Hc _]. exact Hc.
    - apply Forall_forall. intros c Hc. apply repeat_spec in Hc. subst. lia. }
  rewrite encode_ascii_low
    by (eapply Forall_impl; [|exact Hpad]; cbn; intros; lia).
  cbn [rbind].
  set (shifted := map (fun b => Z.shiftl (Z.land b 0x7F) 1) (ljust 6 cs)).
  set (sb := Z.lor (Z.lor 0x60 (Z.shiftl (Z.land s 0x0F) 1)) (if last then 0x01 else 0x00)).
  assert (Hsl : length shifted = 6%nat).
  { unfold shifted, ljust. rewrite length_map, length_app, repeat_length. lia. }
  destruct (ssid_byte_roundtrip s last Hs) as [Hs1 [Hs2 _]]. fold sb in Hs1, Hs2.
  exists (shifted ++ [sb]). split; [reflexivity|].
  assert (H7 : length (shifted ++ [sb]) = 7%nat) by (rewrite length_app, Hsl; reflexivity).
  split; [exact H7|].
  assert (Hnth : znth (shifted ++ [sb]) 6 = sb).
  { unfold znth. change (Z.to_nat 6) with 6%nat.
    rewrite app_nth2 by lia. rewrite Hsl. reflexivity. }
  assert (Hhead : zslice (shifted ++ [sb]) 0 6 = shifted).
  { unfold zslice. change (Z.to_nat 6 - Z.to_nat 0)%nat with 6%nat.
    change (Z.to_nat 0) with 0%nat. cbn [skipn].
    rewrite <- Hsl at 1. rewrite firstn_app, firstn_all, Nat.sub_diag.
    cbn [firstn]. apply app_nil_r. }
  unfold AX25Address_decode, AX25Address_is_last, len.
  rewrite H7, Hnth, Hhead. cbn [Z.of_nat Pos.of_succ_nat Pos.succ Z.eqb Pos.eqb negb].
  rewrite decode_ascii_shifted. cbn [rbind].
  rewrite Hs1, Hs2. split; [|reflexivity].
  do 2 f_equal. unfold shifted. rewrite map_map.
  rewrite (map_ext_in _ (fun c => c)).
  - rewrite map_id. unfold ljust. now apply rstrip_space_app_spaces.
  - intros c Hc. rewrite Forall_forall in Hpad. now apply shift_roundtrip, Hpad.
Qed.

(** C4: a frame whose two callsigns are at most six ASCII characters
    that [upper] leaves alone (no lowercase letter), without a space at
    the end, whose SSIDs lie in 0..15 and whose control and PID are
    byte values, is encoded without error, and decoding the bytes gives
    the same frame: callsigns, SSIDs, control, PID and payload.  The
    lower bound 1 on the length of a callsign is not needed. *)
Theorem ax25_frame_roundtrip (tbl : Z -> pystr) (f : AX25Frame) :
  valid_callsign (callsign (destination f)) ->
  valid_callsign (callsign (source f)) ->
  0 <= ssid (destination f) <= 15 ->
  0 <= ssid (source f) <= 15 ->
  0 <= control f < 256 ->
  0 <= pid f < 256 ->
  exists raw, AX25Frame_encode tbl f = Ok raw /\ AX25Frame_decode raw = Ok f.
Proof.
  destruct f as [dst src ctl p pl]. cbn [destination source control pid payload].
  intros Hd Hs Hds Hss Hc Hp.
  destruct (address_roundtrip tbl dst false Hd Hds) as [d7 [Ed [Ld [Dd _]]]].
  destruct (address_roundtrip tbl src true Hs Hss) as [s7 [Es [Ls [Ds Is]]]].
  unfold AX25Frame_encode. cbn [destination source control pid payload].
  rewrite Ed, Es. cbn [rbind bytes_of_ints].
  replace ((0 <=? ctl) && (ctl <? 256)) with true
    by (symmetry; apply andb_true_iff; split; [apply Z.leb_le | apply Z.ltb_lt]; lia).
  replace ((0 <=? p) && (p <? 256)) with true
    by (symmetry; apply andb_true_iff; split; [apply Z.leb_le | apply Z.ltb_lt]; lia).
  eexists. split; [reflexivity|].
  destruct (length7_inv d7 Ld) as [d0 [d1 [d2 [d3 [d4 [d5 [d6 ->]]]]]]].
  destruct (length7_inv s7 Ls) as [s0 [s1 [s2 [s3 [s4 [s5 [s6 ->]]]]]]].
  unfold AX25Frame_decode. cbn [app].
  destruct (len _ <? 7 + 7 + 2) eqn:E.
  { apply Z.ltb_lt in E. unfold len in E. cbn [length] in E. lia. }
  change (zslice _ 0 7) with [d0; d1; d2; d3; d4; d5; d6].
  change (zslice _ 7 14) with [s0; s1; s2; s3; s4; s5; s6].
  rewrite Is. cbn [rbind negb]. rewrite Dd, Ds. reflexivity.
Qed.

(** C10: on at least 16 bytes whose byte 13 has its low bit set,
    [AX25Frame.decode] returns a frame.  The twelve callsign bytes
    shifted right by one (and masked) are at most 0x7F, so both ASCII
    decodings succeed; both SSIDs lie in 0..15; control, PID and
    payload are bytes 14, 15 and the rest, unchanged. *)
Theorem ax25_decode_total (raw : bytes) :
  16 <= len raw ->
  Z.land (znth raw 13) 1 = 1 ->
  exists dst src,
    AX25Frame_decode raw
      = Ok (mkFrame dst src (znth raw 14) (znth raw 15) (skipn 16 raw)) /\
    AX25Address_decode (zslice raw 0 7) = Ok dst /\
    AX25Address_decode (zslice raw 7 14) = Ok src /\
    Forall (fun b => 0 <= Z.land (Z.shiftr b 1) 0x7F <= 0x7F) (firstn 6 raw) /\
    Forall (fun b => 0 <= Z.land (Z.shiftr b 1) 0x7F <= 0x7F) (zslice raw 7 13) /\
    (Forall is_byte raw ->
     Forall (fun b => Z.shiftr b 1 <= 0x7F) (firstn 6 raw ++ zslice raw 7 13)) /\
    Forall (fun c => 0 <= c <= 0x7F) (callsign dst) /\
    Forall (fun c => 0 <= c <= 0x7F) (callsign src) /\
    0 <= ssid dst <= 15 /\ 0 <= ssid src <= 15.
Proof.
  intros Hlen Hlast.
  destruct raw as [|b0 [|b1 [|b2 [|b3 [|b4 [|b5 [|b6 [|b7 [|b8 [|b9 [|b10
    [|b11 [|b12 [|b13 [|b14 [|b15 rest]]]]]]]]]]]]]]]];
    try (unfold len in Hlen; cbn [length] in Hlen; lia).
  change (znth _ 13) with b13 in Hlast.
  assert (Hmask : forall l : bytes,
             Forall (fun b => 0 <= Z.land (Z.shiftr b 1) 0x7F <= 0x7F) l).
  { intros l. apply Forall_forall. intros b _.
    pose proof (land_7f (Z.shiftr b 1)). lia. }
  assert (Hchars : forall l : bytes,
             Forall (fun c => 0 <= c <= 0x7F)
               (rstrip_space (map (fun b => Z.land (Z.shiftr b 1) 0x7F) l))).
  { intros l. apply rstrip_space_chars, Forall_forall. intros c Hc.
    apply in_map_iff in Hc. destruct Hc as [b [<- _]].
    pose proof (land_7f (Z.shiftr b 1)). lia. }
  unfold AX25Frame_decode.
  destruct (len _ <? 7 + 7 + 2) eqn:E; [apply Z.ltb_lt in E; lia|].
  change (zslice _ 0 7) with [b0; b1; b2; b3; b4; b5; b6].
  change (zslice _ 7 14) with [b7; b8; b9; b10; b11; b12; b13].
  change (zslice _ 7 13) with [b7; b8; b9; b10; b11; b12].
  unfold AX25Address_is_last, AX25Address_decode.
  change (len [b0; b1; b2; b3; b4; b5; b6] =? 7) with true.
  change (len [b7; b8; b9; b10; b11; b12; b13] =? 7) with true.
  change (znth [b7; b8; b9; b10; b11; b12; b13] 6) with b13.
  change (znth [b0; b1; b2; b3; b4; b5; b6] 6) with b6.
  rewrite Hlast. cbn [negb rbind truthy Z.eqb].
  rewrite !decode_ascii_shifted. cbn [rbind].
  eexists. eexists. split; [reflexivity|].
  split; [reflexivity|]. split; [reflexivity|].
  cbn [callsign ssid].
  split; [apply Hmask|]. split; [apply Hmask|].
  split.
  { intros Hb. eapply Forall_impl; [|apply Forall_app; split;
      [apply (Forall_firstn_skipn _ 6 _ Hb)
      | apply (Forall_firstn_skipn _ 6 _ (proj2 (Forall_firstn_skipn _ 7 _ Hb)))]].
    intros b [Hb0 Hb1]. rewrite Z.shiftr_div_pow2 by lia.
    change (2 ^ 1) with 2. apply Z.lt_succ_r, Z.div_lt_upper_bound; lia. }
  split; [apply Hchars|]. split; [apply Hchars|].
  split; apply land_0f.
Qed.


Lemma ax25_frame_roundtrip_witness :
  exists raw,
    AX25Frame_encode (fun c => [c]) sample_frame = Ok raw /\
    AX25Frame_decode raw = Ok sample_frame.
Proof.
  apply (ax25_frame_roundtrip (fun c => [c]) sample_frame);
    unfold sample_frame, valid_callsign, callsign_char;
    cbn [destination source callsign ssid control pid last length];
    unfold AX25_CONTROL_UI, AX25_PID_NO_LAYER3;
    repeat split; try lia; repeat constructor; lia.
Defined.

(** The encoding scenario: 18 bytes, bit 0 of byte 13 set. *)
Example ax25_encode_sample :
  AX25Frame_encode (fun c => [c]) sample_frame = Ok sample_raw /\
  len sample_raw = 18 /\ Z.land (znth sample_raw 13) 1 = 1.
Proof. repeat split. Qed.

Lemma ax25_decode_total_witness :
  exists dst src,
    AX25Frame_decode sample_raw
    = Ok (mkFrame dst src (znth sample_raw 14) (znth sample_raw 15)
            (skipn 16 sample_raw)).
Proof.
  destruct (ax25_decode_total sample_raw) as [dst [src [H _]]].
  - vm_compute. discriminate.
  - reflexivity.
  - exists dst, src. exact H.
Defined.

(** Without the last-address bit the frame is refused, and a callsign
    of seven characters or an SSID of 16 is refused by the encoder. *)
Example ax25_refusals :
  AX25Frame_decode (firstn 13 sample_raw ++ [96; 3; 240]) =
    Raise (ValueError "Unsupported AX.25 frame: source address not marked last") /\
  AX25Address_encode (fun c => [c]) (mkAddress [65; 65; 65; 65; 65; 65; 65] 0) false =
    Raise (ValueError "AX.25 callsign too long") /\
  AX25Address_encode (fun c => [c]) (mkAddress [65] 16) false =
    Raise (ValueError "AX.25 SSID must be 0..15").
Proof. repeat split. Qed.

(** ** Telemetry decoder *)

Lemma znth_zslice_one (l : bytes) (i : Z) :
  0 <= i -> znth (zslice l i (i + 1)) 0 = znth l i.
Proof.
  intros Hi. unfold znth, zslice.
  replace (Z.to_nat (i + 1) - Z.to_nat i)%nat with 1%nat by lia.
  change (Z.to_nat 0) with 0%nat.
  generalize (Z.to_nat i) as k. intros k. revert l.
  induction k as [|k IH]; intros l.
  - destruct l; reflexivity.
  - destruct l as [|x l]; [reflexivity|]. cbn [skipn nth]. apply IH.
Qed.

Ltac take_step :=
  match goal with
  | |- context [_take ?b ?o ?n] =>
      let E := fresh "E" in
      unfold _take at 1;
      destruct (len b <? o + n) eqn:E; cbn [rbind];
      [apply Z.ltb_lt in E | apply Z.ltb_ge in E]
  end.

Ltac unfold_readers :=
  unfold decode_telemetry, read_lp_string, read_i16be, read_i64be,
    read_u32be, read_u16be, read_u8.

Lemma decode_short (p : bytes) :
  len p < 2 -> decode_telemetry p = Raise (DecodeError "Truncated payload").
Proof.
  intros H. unfold_readers. take_step; [reflexivity | lia].
Qed.

Lemma decode_wrong_type (p : bytes) :
  2 <= len p -> tl_type p <> 0x544C ->
  decode_telemetry p = Raise (DecodeError "Not a TL telemetry packet").
Proof.
  intros H Ht. unfold_readers. take_step; [lia|].
  change (0 + 2) with 2. fold (tl_type p).
  apply Z.eqb_neq in Ht. rewrite Ht. reflexivity.
Qed.

Lemma decode_truncated (p : bytes) :
  2 <= len p -> tl_type p = 0x544C -> truncated p ->
  decode_telemetry p = Raise (DecodeError "Truncated payload").
Proof.
  intros H Ht Htr. unfold_readers. take_step; [lia|].
  change (0 + 2) with 2. fold (tl_type p). rewrite Ht.
  change (negb (0x544C =? 0x544C)) with false. cbv iota.
  do 15 (take_step; [reflexivity|]).
  change (2 + 4 + 8 + 4 + 4 + 1 + 1 + 1 + 2 + 2 + 2 + 2 + 2 + 2 + 2) with 39.
  rewrite znth_zslice_one by lia. change (39 + 1) with 40.
  fold (motd_len p).
  take_step; [reflexivity|].
  unfold truncated in Htr. lia.
Qed.

Lemma decode_ok (p : bytes) :
  tl_type p = 0x544C -> ~ truncated p ->
  exists tl,
    decode_telemetry p = Ok tl /\
    motd tl = match utf8_decode (motd_bytes p) with
              | Some s => s
              | None => motd_bytes p
              end.
Proof.
  intros Ht Htr. unfold truncated in Htr.
  assert (H40 : 40 <= len p) by lia.
  unfold_readers. take_step; [lia|].
  change (0 + 2) with 2. fold (tl_type p). rewrite Ht.
  change (negb (0x544C =? 0x544C)) with false. cbv iota.
  do 15 (take_step; [lia|]).
  change (2 + 4 + 8 + 4 + 4 + 1 + 1 + 1 + 2 + 2 + 2 + 2 + 2 + 2 + 2) with 39.
  rewrite znth_zslice_one by lia. change (39 + 1) with 40.
  fold (motd_len p).
  take_step; [lia|].
  fold (motd_bytes p). unfold latin1_decode.
  destruct (utf8_decode (motd_bytes p)); eexists; split; reflexivity.
Qed.


(** C6: [decode_telemetry] raises exactly when the payload is too
    short for what it reads (fewer than 40 bytes, or fewer than 40 plus
    the length byte of the motd) or when its first two bytes, big
    endian, are not 0x544C; what it raises is a [DecodeError].  A
    payload that is long enough and has the right type is decoded
    whatever the bytes of the motd are: the motd is their strict UTF-8
    decoding, or, when they are not UTF-8, the bytes themselves as code
    points (Latin-1). *)
Theorem decode_telemetry_failures (p : bytes) :
  ((exists e, decode_telemetry p = Raise e) <->
   truncated p \/ tl_type p <> 0x544C) /\
  (forall e, decode_telemetry p = Raise e -> exists msg, e = DecodeError msg) /\
  (~ truncated p -> tl_type p = 0x544C ->
   exists tl,
     decode_telemetry p = Ok tl /\
     motd tl = match utf8_decode (motd_bytes p) with
               | Some s => s
               | None => latin1_decode (motd_bytes p)
               end /\
     (utf8_decode (motd_bytes p) = None -> motd tl = motd_bytes p)).
Proof.
  assert (Hcases :
    decode_telemetry p = Raise (DecodeError "Truncated payload") /\
      truncated p \/
    decode_telemetry p = Raise (DecodeError "Not a TL telemetry packet") /\
      tl_type p <> 0x544C \/
    (exists tl, decode_telemetry p = Ok tl /\
       motd tl = match utf8_decode (motd_bytes p) with
                 | Some s => s
                 | None => motd_bytes p
                 end) /\ ~ truncated p /\ tl_type p = 0x544C).
  { destruct (Z.lt_ge_cases (len p) 2) as [Hs | Hs].
    { left. split; [now apply decode_short | left; lia]. }
    destruct (Z.eq_dec (tl_type p) 0x544C) as [Ht | Ht].
    2:{ right. left. split; [apply decode_wrong_type; [lia | exact Ht] | exact Ht]. }
    destruct (Z.lt_ge_cases (len p) 40) as [H40 | H40].
    { left. split; [apply decode_truncated; [lia | exact Ht | now left] | now left]. }
    destruct (Z.lt_ge_cases (len p) (40 + motd_len p)) as [Hm | Hm].
    { left. split; [apply decode_truncated; [lia | exact Ht | now right] | now right]. }
    right. right.
    assert (Hn : ~ truncated p) by (unfold truncated; lia).
    split; [now apply decode_ok | now split]. }
  split; [|split].
  - split.
    + intros [e He].
      destruct Hcases as [[_ H] | [[_ H] | [[tl [H _]] _]]];
        [now left | now right | congruence].
    + intros H.
      destruct Hcases as [[E _] | [[E _] | [_ [Hn Ht]]]]; eauto.
      destruct H as [H | H]; contradiction.
  - intros e He.
    destruct Hcases as [[E _] | [[E _] | [[tl [E _]] _]]];
      rewrite E in He; [| | discriminate]; injection He as <-; eauto.
  - intros Hn Ht.
    destruct Hcases as [[_ H] | [[_ H] | [[tl [E Hm]] _]]]; try contradiction.
    exists tl. unfold latin1_decode. split; [exact E|]. split; [exact Hm|].
    intros Hu. now rewrite Hu in Hm.
Qed.

Lemma decode_telemetry_failures_witness :
  exists tl,
    decode_telemetry sample_tl_bad_motd = Ok tl /\
    motd tl = [68; 255; 77; 79].
Proof.
  destruct (proj2 (proj2 (decode_telemetry_failures sample_tl_bad_motd)))
    as [tl [E [Hm _]]].
  - vm_compute. intros [H | H]; discriminate H.
  - reflexivity.
  - exists tl. split; [exact E|]. rewrite Hm. reflexivity.
Defined.

(** The decoding scenario, and its motd with a byte that is not UTF-8. *)
Example decode_sample_tl :
  decode_telemetry sample_tl
  = Ok (mkTelemetryTL 7 1 500 2 0 1 0 (4000, 4000, 4000) (100, 100, 100)
          (float_of_int 25) [68; 69; 77; 79]).
Proof. vm_compute. reflexivity. Qed.

Example decode_truncated_sample :
  decode_telemetry (firstn 43 sample_tl) = Raise (DecodeError "Truncated payload") /\
  decode_telemetry (0x54 :: 0x4d :: skipn 2 sample_tl)
  = Raise (DecodeError "Not a TL telemetry packet").
Proof. split; vm_compute; reflexivity. Qed.

(** ** Telecommands *)

Lemma length_set_byte (i : nat) (v : Z) (p : bytes) :
  (i < length p)%nat -> length (set_byte i v p) = length p.
Proof.
  intros H. unfold set_byte.
  rewrite length_app, length_firstn. cbn [length]. rewrite length_skipn. lia.
Qed.

Lemma set_byte_neq (i : nat) (v : Z) (p : bytes) :
  (i < length p)%nat -> v <> nth i p 0 -> set_byte i v p <> p.
Proof.
  intros Hi Hv E. apply Hv. rewrite <- E at 1. unfold set_byte.
  rewrite app_nth2 by (rewrite length_firstn; lia).
  rewrite length_firstn. replace (i - Nat.min i (length p))%nat with 0%nat by lia.
  reflexivity.
Qed.

Lemma set_byte_app_l (i : nat) (v : Z) (a b : bytes) :
  (i < length a)%nat -> set_byte i v (a ++ b) = set_byte i v a ++ b.
Proof.
  intros H. unfold set_byte.
  rewrite firstn_app, skipn_app.
  replace (i - length a)%nat with 0%nat by lia.
  replace (S i - length a)%nat with 0%nat by lia.
  cbn [firstn skipn]. rewrite app_nil_r, <- app_assoc. reflexivity.
Qed.

Lemma set_byte_app_r (i : nat) (v : Z) (a b : bytes) :
  (length a <= i)%nat -> set_byte i v (a ++ b) = a ++ set_byte (i - length a) v b.
Proof.
  intros H. unfold set_byte.
  rewrite firstn_app, skipn_app.
  rewrite firstn_all2 by lia. rewrite skipn_all2 by lia.
  replace (S i - length a)%nat with (S (i - length a)) by lia.
  cbn [app]. rewrite <- app_assoc. reflexivity.
Qed.

Lemma drop_last_app (a b : bytes) (n : nat) :
  length b = n -> drop_last n (a ++ b) = a.
Proof.
  intros <-. unfold drop_last. rewrite length_app.
  replace (length a + length b - length b)%nat with (length a + 0)%nat by lia.
  rewrite firstn_app_2. cbn [firstn]. apply app_nil_r.
Qed.

Lemma take_last_app (a b : bytes) (n : nat) :
  length b = n -> take_last n (a ++ b) = b.
Proof.
  intros <-. unfold take_last. rewrite length_app.
  replace (length a + length b - length b)%nat with (length a) by lia.
  rewrite skipn_app, skipn_all, Nat.sub_diag. reflexivity.
Qed.

Lemma in_range_u (lo hi x : Z) :
  lo <= x <= hi -> negb ((lo <=? x) && (x <=? hi)) = false.
Proof.
  intros H. apply negb_false_iff, andb_true_iff. split; apply Z.leb_le; lia.
Qed.

Lemma checksum_digest_length (key msg : bytes) :
  length (checksum_digest key msg) = 32%nat.
Proof. reflexivity. Qed.

(** The model of the library functions on known values: the digest of
    "abc" of FIPS 180-4 and the tag of the Set-MotD body for sequence 7
    and "hi" under the key of the toolkit. *)
Example sha256_abc :
  SHA256.sha256 [97; 98; 99]
  = [0xba; 0x78; 0x16; 0xbf; 0x8f; 0x01; 0xcf; 0xea; 0x41; 0x41; 0x40; 0xde;
     0x5d; 0xae; 0x22; 0x23; 0xb0; 0x03; 0x61; 0xa3; 0x96; 0x17; 0x7a; 0x9c;
     0xb4; 0x10; 0xff; 0x61; 0xf2; 0x00; 0x15; 0xad].
Proof. vm_compute. reflexivity. Qed.

Example hmac_sha256_set_motd :
  SHA256.hmac_sha256 HMAC_KEY [0x55; 0; 0; 0; 0; 7; 2; 104; 105]
  = [74; 87; 95; 23; 163; 95; 113; 205; 69; 213; 109; 221; 75; 216; 247; 238;
     47; 19; 72; 119; 243; 228; 77; 59; 116; 195; 169; 133; 226; 35; 88; 96].
Proof. vm_compute. reflexivity. Qed.

Lemma digest_bytes_length (s : SHA256.state) :
  length (SHA256.digest_bytes s) = 32%nat.
Proof. destruct s. reflexivity. Qed.

Lemma hmac_sha256_length (key msg : bytes) :
  length (SHA256.hmac_sha256 key msg) = 32%nat.
Proof. unfold SHA256.hmac_sha256, SHA256.sha256. apply digest_bytes_length. Qed.

Section WithDigest.

Variable hmac_digest : bytes -> bytes -> bytes.

(** The builder computes one digest and appends it. *)
Lemma build_telecommand_ok (ct sq : Z) (payload : bytes) :
  0 <= ct <= 0xFFFF -> 0 <= sq <= 0xFFFFFFFF ->
  build_telecommand hmac_digest ct sq payload
  = (Ok (body_of ct sq payload ++ hmac_digest HMAC_KEY (body_of ct sq payload)),
     [EvHmac HMAC_KEY (body_of ct sq payload)]).
Proof.
  intros Hc Hs. unfold build_telecommand.
  rewrite (in_range_u 0 0xFFFF ct Hc), (in_range_u 0 0xFFFFFFFF sq Hs).
  reflexivity.
Qed.

Lemma verify_short (p : bytes) :
  len p < 2 + 4 + 32 ->
  verify_telecommand hmac_digest p = (Some "Telecommand too short"%string, []).
Proof.
  intros H. unfold verify_telecommand.
  apply Z.ltb_lt in H. rewrite H. reflexivity.
Qed.

(** On a body followed by a tag of 32 bytes the verifier compares the
    tag with the digest of the body. *)
Lemma verify_split (body tag : bytes) :
  (6 <= length body)%nat -> length tag = 32%nat ->
  verify_telecommand hmac_digest (body ++ tag)
  = (if bytes_eqb tag (hmac_digest HMAC_KEY body) then None
     else Some "Bad HMAC"%string,
     [EvHmac HMAC_KEY body; EvCompareDigest tag (hmac_digest HMAC_KEY body)]).
Proof.
  intros Hb Ht. unfold verify_telecommand.
  destruct (len (body ++ tag) <? 2 + 4 + 32) eqn:E.
  { apply Z.ltb_lt in E. unfold len in E. rewrite length_app in E. lia. }
  rewrite (drop_last_app body tag 32 Ht), (take_last_app body tag 32 Ht).
  unfold lbind, hmac_new_digest, compare_digest.
  destruct (bytes_eqb tag (hmac_digest HMAC_KEY body)); reflexivity.
Qed.

Lemma length_body_of (ct sq : Z) (payload : bytes) :
  length (body_of ct sq payload) = (6 + length payload)%nat.
Proof. unfold body_of. rewrite !length_app. reflexivity. Qed.

Hypothesis digest_length : forall key msg, length (hmac_digest key msg) = 32%nat.

Lemma verify_build (ct sq : Z) (payload : bytes) :
  0 <= ct <= 0xFFFF -> 0 <= sq <= 0xFFFFFFFF ->
  exists packet,
    value (build_telecommand hmac_digest ct sq payload) = Ok packet /\
    verify_telecommand hmac_digest packet
    = (None, [EvHmac HMAC_KEY (body_of ct sq payload);
              EvCompareDigest (hmac_digest HMAC_KEY (body_of ct sq payload))
                              (hmac_digest HMAC_KEY (body_of ct sq payload))]).
Proof.
  intros Hc Hs. rewrite (build_telecommand_ok ct sq payload Hc Hs).
  eexists. split; [reflexivity|].
  rewrite verify_split; [| rewrite length_body_of; lia | apply digest_length].
  now rewrite bytes_eqb_refl.
Qed.

(** Changing a byte of the tag is always detected. *)
Lemma verify_tag_flip (body : bytes) (j : nat) (v : Z) :
  (6 <= length body)%nat -> (j < 32)%nat ->
  v <> nth j (hmac_digest HMAC_KEY body) 0 ->
  value (verify_telecommand hmac_digest (body ++ set_byte j v (hmac_digest HMAC_KEY body)))
  = Some "Bad HMAC"%string.
Proof.
  intros Hb Hj Hv.
  rewrite verify_split;
    [| exact Hb
     | rewrite length_set_byte by (rewrite digest_length; lia); apply digest_length].
  rewrite bytes_eqb_neq; [reflexivity|].
  apply set_byte_neq; [rewrite digest_length; exact Hj | exact Hv].
Qed.

(** Changing a byte of the body is detected exactly when the digest
    of the changed body differs from the tag. *)
Lemma verify_body_flip (body : bytes) (i : nat) (v : Z) :
  (6 <= length body)%nat -> (i < length body)%nat ->
  value (verify_telecommand hmac_digest (set_byte i v body ++ hmac_digest HMAC_KEY body))
  = if bytes_eqb (hmac_digest HMAC_KEY body) (hmac_digest HMAC_KEY (set_byte i v body))
    then None else Some "Bad HMAC"%string.
Proof.
  intros Hb Hi.
  rewrite verify_split;
    [reflexivity | rewrite length_set_byte; lia | apply digest_length].
Qed.

Lemma be_bytes_are_bytes (w : nat) (v : Z) : Forall is_byte (be_bytes w v).
Proof.
  unfold be_bytes. apply Forall_forall. intros b Hb.
  apply in_map_iff in Hb. destruct Hb as [i [<- _]].
  unfold is_byte. change 0xFF with (Z.ones 8). rewrite Z.land_ones by lia.
  apply Z.mod_pos_bound. reflexivity.
Qed.

End WithDigest.

(** *** The self-check of a built packet *)

Lemma verify_messages (hmac_digest : bytes -> bytes -> bytes) (p : bytes) (msg : string) :
  value (verify_telecommand hmac_digest p) = Some msg ->
  msg = "Telecommand too short"%string \/ msg = "Bad HMAC"%string.
Proof.
  unfold verify_telecommand.
  destruct (len p <? 2 + 4 + 32); cbn [value fst lret].
  - intros H. left. congruence.
  - unfold lbind, hmac_new_digest, compare_digest.
    destruct (bytes_eqb _ _); cbn [negb value fst lret]; [discriminate|].
    intros H. right. congruence.
Qed.

Lemma check_built_ok (hmac_digest : bytes -> bytes -> bytes)
    (built : logged (result bytes)) (tc : bytes) :
  value built = Ok tc ->
  log (check_built hmac_digest built)
  = log built ++ log (verify_telecommand hmac_digest tc) /\
  (value (verify_telecommand hmac_digest tc) = None ->
   value (check_built hmac_digest built) = Ok tc) /\
  (forall msg,
     value (verify_telecommand hmac_digest tc) = Some msg ->
     value (check_built hmac_digest built)
     = Raise (SystemExit ("internal error: produced invalid telecommand: " ++ msg))).
Proof.
  destruct built as [r l]. cbn [value fst]. intros ->.
  unfold check_built, lbind.
  pose proof (verify_messages hmac_digest tc) as Hmsg.
  destruct (verify_telecommand hmac_digest tc) as [[msg|] lv];
    cbn [value fst log snd lret] in *.
  - destruct (Hmsg msg eq_refl) as [-> | ->]; cbn [String.eqb Ascii.eqb Bool.eqb];
      cbn [log snd value fst lret]; rewrite app_nil_r;
      (split; [reflexivity|]); (split; [discriminate|]);
      intros m Hm; apply (f_equal (fun o => match o with Some x => x | None => ""%string end)) in Hm;
      cbn in Hm; subst m; reflexivity.
  - rewrite app_nil_r. split; [reflexivity|]. split; [reflexivity|].
    intros m Hm. discriminate.
Qed.

(** C3 (refuted as written): [build_telecommand] runs no verification
    of its packet.  Building the SSTV command with sequence 7 computes
    one digest and compares nothing, where a verification of the packet
    computes a digest and compares it with the tag; and were the digest
    function to return nothing, the builder would still return the six
    bytes of the body, a packet the verifier refuses as too short. *)
Lemma build_telecommand_runs_no_check :
  ~ runs_verification SHA256.hmac_sha256
      (build_telecommand SHA256.hmac_sha256 0x5533 7 []) /\
  log (build_telecommand SHA256.hmac_sha256 0x5533 7 [])
  = [EvHmac HMAC_KEY [0x55; 0x33; 0; 0; 0; 7]] /\
  value (build_telecommand empty_digest 0x5533 7 []) = Ok [0x55; 0x33; 0; 0; 0; 7] /\
  value (verify_telecommand empty_digest [0x55; 0x33; 0; 0; 0; 7])
  = Some "Telecommand too short"%string.
Proof.
  split; [|repeat split].
  intros H.
  assert (E0 : value (build_telecommand SHA256.hmac_sha256 0x5533 7 [])
               = Ok sstv_packet) by (vm_compute; reflexivity).
  destruct (H sstv_packet E0) as [pre [post E]].
  apply (f_equal (@length event)) in E. rewrite !length_app in E.
  assert (L1 : length (log (build_telecommand SHA256.hmac_sha256 0x5533 7 [])) = 1%nat)
    by reflexivity.
  assert (L2 : length (log (verify_telecommand SHA256.hmac_sha256 sstv_packet)) = 2%nat)
    by reflexivity.
  lia.
Qed.

(** C3 (as amended): [build_telecommand] computes the digest of the
    body once and returns the body followed by it, or raises a
    [ValueError] when the command type or the sequence is out of range;
    it does not verify what it returns.  The check is made by the build
    commands of the command line: they run [verify_telecommand] on the
    packet they built and stop with an internal error when it reports
    one. *)
Theorem build_telecommand_unchecked (hmac_digest : bytes -> bytes -> bytes)
    (ct sq : Z) (payload : bytes) :
  (0 <= ct <= 0xFFFF -> 0 <= sq <= 0xFFFFFFFF ->
   build_telecommand hmac_digest ct sq payload
   = (Ok (body_of ct sq payload ++ hmac_digest HMAC_KEY (body_of ct sq payload)),
      [EvHmac HMAC_KEY (body_of ct sq payload)])) /\
  (~ (0 <= ct <= 0xFFFF /\ 0 <= sq <= 0xFFFFFFFF) ->
   exists msg,
     build_telecommand hmac_digest ct sq payload = (Raise (ValueError msg), [])) /\
  (forall tc,
     value (build_telecommand hmac_digest ct sq payload) = Ok tc ->
     log (check_built hmac_digest (build_telecommand hmac_digest ct sq payload))
     = log (build_telecommand hmac_digest ct sq payload)
       ++ log (verify_telecommand hmac_digest tc) /\
     (value (verify_telecommand hmac_digest tc) = None ->
      value (check_built hmac_digest (build_telecommand hmac_digest ct sq payload))
      = Ok tc) /\
     (forall msg,
        value (verify_telecommand hmac_digest tc) = Some msg ->
        value (check_built hmac_digest (build_telecommand hmac_digest ct sq payload))
        = Raise (SystemExit
                   ("internal error: produced invalid telecommand: " ++ msg)))).
Proof.
  split; [|split].
  - apply build_telecommand_ok.
  - intros Hn. unfold build_telecommand.
    destruct ((0 <=? ct) && (ct <=? 0xFFFF)) eqn:E1; cbn [negb]; [|eexists; reflexivity].
    destruct ((0 <=? sq) && (sq <=? 0xFFFFFFFF)) eqn:E2; cbn [negb]; [|eexists; reflexivity].
    apply andb_true_iff in E1, E2. destruct E1 as [A B], E2 as [C D].
    apply Z.leb_le in A, B, C, D. exfalso. apply Hn. lia.
  - intros tc. apply check_built_ok.
Qed.

Lemma build_telecommand_unchecked_witness :
  build_telecommand empty_digest 0x5533 7 []
  = (Ok [0x55; 0x33; 0; 0; 0; 7], [EvHmac HMAC_KEY [0x55; 0x33; 0; 0; 0; 7]]) /\
  value (cmd_build_sstv empty_digest 7)
  = Raise (SystemExit
             "internal error: produced invalid telecommand: Telecommand too short").
Proof.
  split.
  - apply (proj1 (build_telecommand_unchecked empty_digest 0x5533 7 [])); lia.
  - apply (proj2 (proj2 (proj2 (build_telecommand_unchecked empty_digest 0x5533 7 []))
                    [0x55; 0x33; 0; 0; 0; 7] eq_refl)).
    reflexivity.
Defined.

(** The command-line scenario with HMAC-SHA-256: the Set-MotD packet
    for sequence 7 and "hi" starts with 5500 00000007 02 "hi", passes the
    check, and is refused once its last byte is changed. *)
Example build_set_motd_sample :
  exists tag,
    length tag = 32%nat /\
    value (cmd_build_motd SHA256.hmac_sha256 7 [104; 105])
    = Ok ([0x55; 0x00; 0; 0; 0; 7; 2; 104; 105] ++ tag) /\
    value (verify_telecommand SHA256.hmac_sha256
             ([0x55; 0x00; 0; 0; 0; 7; 2; 104; 105]
                ++ set_byte 31 (Z.lxor (nth 31 tag 0) 1) tag))
    = Some "Bad HMAC"%string.
Proof.
  exists (SHA256.hmac_sha256 HMAC_KEY [0x55; 0x00; 0; 0; 0; 7; 2; 104; 105]).
  repeat split; vm_compute; reflexivity.
Qed.

(** ** Robot36 *)

Lemma shape_zeros {A : Type} (z : A) (r c : Z) :
  0 <= r -> 0 <= c -> shape r c (zeros z r c).
Proof.
  intros Hr Hc. unfold shape, zeros, len. rewrite repeat_length. split; [lia|].
  apply Forall_forall. intros row Hrow. apply repeat_spec in Hrow. subst.
  rewrite repeat_length. lia.
Qed.

Lemma set_row_ok {A : Type} (rows : list A) (i : Z) (row : A) :
  0 <= i < len rows -> exists rows', set_row rows i row = Ok rows'.
Proof.
  intros H. unfold set_row.
  replace ((0 <=? i) && (i <? len rows)) with true; [eauto|].
  symmetry. apply andb_true_iff. split; [apply Z.leb_le | apply Z.ltb_lt]; lia.
Qed.

Lemma set_row_shape {A : Type} (r c : Z) (rows rows' : list (list A))
    (i : Z) (row : list A) :
  shape r c rows -> len row = c -> set_row rows i row = Ok rows' ->
  shape r c rows'.
Proof.
  intros [Hr Hc] Hrow H. unfold set_row in H.
  destruct ((0 <=? i) && (i <? len rows)) eqn:E; [|discriminate].
  apply andb_true_iff in E. destruct E as [E1 E2].
  apply Z.leb_le in E1. apply Z.ltb_lt in E2.
  apply Ok_inj in H. subst rows'. unfold shape, len in *. split.
  - rewrite length_app, length_firstn. cbn [length]. rewrite length_skipn. lia.
  - apply Forall_app. split; [now apply Forall_firstn_skipn|].
    constructor; [exact Hrow | now apply Forall_firstn_skipn].
Qed.

Lemma shape_nth {A : Type} (r c : Z) (rows : list (list A)) (i : nat) :
  shape r c rows -> (Z.of_nat i < r) -> len (nth i rows []) = c.
Proof.
  intros [Hr Hc] Hi. rewrite Forall_forall in Hc. apply Hc, nth_In.
  unfold len in Hr. lia.
Qed.


Section Decode.


Variable sample : Type.
Variable freq_to_byte : sample -> Z.
Variable ycbcr_to_rgb : Z -> Z -> Z -> pixel.
Variable y_index : Z -> Z -> Z -> Z.
Variable c_index : Z -> Z -> Z -> Z.

Lemma sample_row_len (inst_freq : list sample) (idx : Z -> Z) (row : list Z) :
  sample_row freq_to_byte inst_freq idx = Ok row -> len row = width.
Proof.
  unfold sample_row. destruct inst_freq as [|d t]; [discriminate|].
  intros H. apply Ok_inj in H. subst row. unfold len, zrange.
  rewrite !length_map, length_seq. reflexivity.
Qed.

Lemma sample_row_ok (inst_freq : list sample) (idx : Z -> Z) :
  inst_freq <> [] -> exists row, sample_row freq_to_byte inst_freq idx = Ok row.
Proof.
  unfold sample_row. destruct inst_freq as [|d t]; [congruence | eauto].
Qed.

Lemma sample_lines_shape (fs : Z) (inst_freq : list sample) (chain : list Z) :
  forall i p p',
    planes_shape p ->
    sample_lines freq_to_byte y_index c_index fs inst_freq i chain p = Ok p' ->
    planes_shape p'.
Proof.
  induction chain as [|s rest IH]; intros i p p' Hp H; cbn [sample_lines] in H.
  - apply Ok_inj in H. now subst.
  - destruct (sample_row freq_to_byte inst_freq (y_index fs s)) as [yr|] eqn:Ey;
      [|discriminate]. cbn [rbind] in H.
    destruct (set_row (y_lines p) i yr) as [ys|] eqn:Es; [|discriminate].
    cbn [rbind] in H.
    destruct (sample_row freq_to_byte inst_freq (c_index fs s)) as [cr|] eqn:Ec;
      [|discriminate]. cbn [rbind] in H.
    destruct Hp as [Hy [Hcb Hcr]].
    apply sample_row_len in Ey, Ec.
    assert (Hys : shape height width ys)
      by exact (set_row_shape _ _ _ _ _ _ Hy Ey Es).
    destruct (i mod 2 =? 0).
    + destruct (set_row (cb_lines p) (i / 2) cr) as [cb'|] eqn:E2; [|discriminate].
      cbn [rbind] in H. eapply IH; [|exact H].
      unfold planes_shape. cbn [y_lines cb_lines cr_lines].
      split; [exact Hys | split; [exact (set_row_shape _ _ _ _ _ _ Hcb Ec E2) | exact Hcr]].
    + destruct (set_row (cr_lines p) (i / 2) cr) as [cr'|] eqn:E2; [|discriminate].
      cbn [rbind] in H. eapply IH; [|exact H].
      unfold planes_shape. cbn [y_lines cb_lines cr_lines].
      split; [exact Hys | split; [exact Hcb | exact (set_row_shape _ _ _ _ _ _ Hcr Ec E2)]].
Qed.

Lemma sample_lines_ok (fs : Z) (inst_freq : list sample) (chain : list Z) :
  inst_freq <> [] ->
  forall i p,
    planes_shape p -> 0 <= i -> i + len chain <= height ->
    exists p', sample_lines freq_to_byte y_index c_index fs inst_freq i chain p = Ok p'.
Proof.
  intros Hne. induction chain as [|s rest IH]; intros i p Hp Hi Hlen;
    cbn [sample_lines]; [eauto|].
  unfold len in Hlen. cbn [length] in Hlen. rewrite Nat2Z.inj_succ in Hlen.
  destruct (sample_row_ok inst_freq (y_index fs s) Hne) as [yr Ey].
  destruct (sample_row_ok inst_freq (c_index fs s) Hne) as [cr Ec].
  rewrite Ey, Ec. cbn [rbind].
  destruct Hp as [Hy [Hcb Hcr]].
  pose proof (sample_row_len _ _ _ Ey) as Ly.
  pose proof (sample_row_len _ _ _ Ec) as Lc.
  destruct (set_row_ok (y_lines p) i yr) as [ys Es].
  { destruct Hy as [Hy _]. rewrite Hy. lia. }
  rewrite Es. cbn [rbind].
  assert (Hys : shape height width ys)
    by exact (set_row_shape _ _ _ _ _ _ Hy Ly Es).
  assert (Hpair : 0 <= i / 2 < height / 2).
  { change (height / 2) with 120. change height with 240 in Hlen.
    split; [apply Z.div_pos; lia | apply Z.div_lt_upper_bound; lia]. }
  destruct (i mod 2 =? 0).
  - destruct (set_row_ok (cb_lines p) (i / 2) cr) as [cb' E2].
    { destruct Hcb as [Hcb _]. rewrite Hcb. exact Hpair. }
    rewrite E2. cbn [rbind]. apply IH; [|lia|unfold len; lia].
    unfold planes_shape. cbn [y_lines cb_lines cr_lines].
    split; [exact Hys | split; [exact (set_row_shape _ _ _ _ _ _ Hcb Lc E2) | exact Hcr]].
  - destruct (set_row_ok (cr_lines p) (i / 2) cr) as [cr' E2].
    { destruct Hcr as [Hcr _]. rewrite Hcr. exact Hpair. }
    rewrite E2. cbn [rbind]. apply IH; [|lia|unfold len; lia].
    unfold planes_shape. cbn [y_lines cb_lines cr_lines].
    split; [exact Hys | split; [exact Hcb | exact (set_row_shape _ _ _ _ _ _ Hcr Lc E2)]].
Qed.

Lemma len_rgb_row (c : Z) (ys cbs crs : list Z) :
  len ys = c -> len cbs = c -> len crs = c ->
  len (rgb_row ycbcr_to_rgb ys cbs crs) = c.
Proof.
  unfold len. revert c cbs crs.
  induction ys as [|y ys IH]; intros c cbs crs H1 H2 H3; [exact H1|].
  destruct cbs as [|cb cbs]; [cbn [length] in *; lia|].
  destruct crs as [|cr crs]; [cbn [length] in *; lia|].
  cbn [rgb_row length] in *. rewrite Nat2Z.inj_succ in *.
  rewrite (IH (c - 1) cbs crs); lia.
Qed.

Lemma rgb_pair_shape (p : planes) (rgb rgb' : list (list pixel)) (pair : Z) :
  planes_shape p -> 0 <= pair < height / 2 ->
  shape height width rgb ->
  rgb_pair ycbcr_to_rgb p (Ok rgb) pair = Ok rgb' ->
  shape height width rgb'.
Proof.
  intros [Hy [Hcb Hcr]] Hpair Hrgb H. unfold rgb_pair in H. cbn [rbind] in H.
  change (height / 2) with 120 in *. change height with 240 in *.
  assert (Lcb : len (nth (Z.to_nat pair) (cb_lines p) []) = width)
    by (eapply shape_nth; [exact Hcb | lia]).
  assert (Lcr : len (nth (Z.to_nat pair) (cr_lines p) []) = width)
    by (eapply shape_nth; [exact Hcr | lia]).
  destruct (set_row rgb (2 * pair) _) as [r1|] eqn:E1; [|discriminate].
  cbn [rbind] in H.
  assert (H1 : shape 240 width r1).
  { eapply set_row_shape; [exact Hrgb | | exact E1].
    apply len_rgb_row; try assumption. eapply shape_nth; [exact Hy | lia]. }
  eapply set_row_shape; [exact H1 | | exact H].
  apply len_rgb_row; try assumption. eapply shape_nth; [exact Hy | lia].
Qed.

Lemma rgb_pair_ok (p : planes) (rgb : list (list pixel)) (pair : Z) :
  0 <= pair < height / 2 -> shape height width rgb ->
  exists rgb', rgb_pair ycbcr_to_rgb p (Ok rgb) pair = Ok rgb'.
Proof.
  intros Hpair Hrgb. unfold rgb_pair. cbn [rbind].
  change (height / 2) with 120 in *. change height with 240 in *.
  destruct (set_row_ok rgb (2 * pair)
              (rgb_row ycbcr_to_rgb (nth (Z.to_nat (2 * pair)) (y_lines p) [])
                 (nth (Z.to_nat pair) (cb_lines p) [])
                 (nth (Z.to_nat pair) (cr_lines p) []))) as [r1 E1].
  { destruct Hrgb as [Hr _]. rewrite Hr. lia. }
  rewrite E1. cbn [rbind]. apply set_row_ok.
  unfold set_row in E1.
  destruct ((0 <=? 2 * pair) && (2 * pair <? len rgb)); [|discriminate].
  apply Ok_inj in E1. subst r1. destruct Hrgb as [Hr _]. unfold len in *.
  rewrite length_app, length_firstn. cbn [length]. rewrite length_skipn. lia.
Qed.

Lemma fold_rgb_pair_raise (p : planes) (e : exn) (pairs : list Z) :
  fold_left (rgb_pair ycbcr_to_rgb p) pairs (Raise e) = Raise e.
Proof. induction pairs as [|x t IH]; cbn [fold_left]; [reflexivity | exact IH]. Qed.

Lemma fold_rgb_pair_shape (p : planes) (pairs : list Z) :
  planes_shape p -> Forall (fun pair => 0 <= pair < height / 2) pairs ->
  forall rgb rgb',
    shape height width rgb ->
    fold_left (rgb_pair ycbcr_to_rgb p) pairs (Ok rgb) = Ok rgb' ->
    shape height width rgb'.
Proof.
  intros Hp Hpairs. induction Hpairs as [|x t Hx _ IH]; intros rgb rgb' Hs H;
    cbn [fold_left] in H.
  - apply Ok_inj in H. now subst.
  - destruct (rgb_pair ycbcr_to_rgb p (Ok rgb) x) as [r1|e] eqn:E.
    + eapply IH; [|exact H]. eapply rgb_pair_shape; eauto.
    + rewrite fold_rgb_pair_raise in H. discriminate.
Qed.

Lemma fold_rgb_pair_ok (p : planes) (pairs : list Z) :
  planes_shape p -> Forall (fun pair => 0 <= pair < height / 2) pairs ->
  forall rgb, shape height width rgb ->
    exists rgb', fold_left (rgb_pair ycbcr_to_rgb p) pairs (Ok rgb) = Ok rgb'.
Proof.
  intros Hp Hpairs. induction Hpairs as [|x t Hx _ IH]; intros rgb Hs;
    cbn [fold_left]; [eauto|].
  destruct (rgb_pair_ok p rgb x Hx Hs) as [r1 E]. rewrite E.
  apply IH. eapply rgb_pair_shape; eauto.
Qed.



(** C9: when the sync chain has fewer than 200 lines the decoder
    raises the error that tells how many lines were found; whenever it
    returns an image, the image is 320 pixels wide and 240 pixels tall,
    each row holding 320 RGB pixels; and it does return one when the
    chain has at least 200 lines and there are frequency samples. *)
Theorem decode_robot36_shape (fs : Z) (inst_freq : list sample) (chain : list Z) :
  (len chain < 200 ->
   decode_robot36 freq_to_byte ycbcr_to_rgb y_index c_index fs inst_freq chain
   = Raise (RuntimeError (sync_failure_message (length chain)))) /\
  (forall img,
     decode_robot36 freq_to_byte ycbcr_to_rgb y_index c_index fs inst_freq chain
     = Ok img ->
     200 <= len chain /\
     img_width img = 320 /\ img_height img = 240 /\
     shape 240 320 (img_rows img)) /\
  (200 <= len chain -> inst_freq <> [] ->
   exists img,
     decode_robot36 freq_to_byte ycbcr_to_rgb y_index c_index fs inst_freq chain
     = Ok img).
Proof.
  assert (Hp0 : planes_shape
                  (mkPlanes (zeros 0 height width) (zeros 0 (height / 2) width)
                            (zeros 0 (height / 2) width))).
  { unfold planes_shape. cbn [y_lines cb_lines cr_lines].
    repeat split; try apply shape_zeros; try (vm_compute; discriminate). }
  assert (Hr0 : shape height width (zeros ((0, 0, 0) : pixel) height width))
    by (apply shape_zeros; vm_compute; discriminate).
  assert (Hpairs : Forall (fun pair => 0 <= pair < height / 2) (zrange (height / 2)))
    by (apply Forall_forall; intros x Hx; now apply in_zrange in Hx).
  unfold decode_robot36. split; [|split].
  - intros H. apply Z.ltb_lt in H. now rewrite H.
  - intros img H. destruct (len chain <? 200) eqn:E; [discriminate|].
    apply Z.ltb_ge in E. split; [exact E|].
    destruct (sample_lines _ _ _ _ _ _ _ _) as [p|] eqn:Es; [|discriminate].
    cbn [rbind] in H.
    destruct (fold_left _ _ _) as [rgb|] eqn:Ef; [|discriminate].
    cbn [rbind] in H. apply Ok_inj in H. subst img.
    pose proof (sample_lines_shape _ _ _ _ _ _ Hp0 Es) as Hp.
    pose proof (fold_rgb_pair_shape _ _ Hp Hpairs _ _ Hr0 Ef) as [Hh Hw].
    unfold image_fromarray. cbn [img_width img_height img_rows].
    change height with 240 in *. change width with 320 in *.
    split; [|split; [exact Hh | split; [exact Hh | exact Hw]]].
    destruct rgb as [|row rgb]; [discriminate Hh|].
    cbn [hd]. now inversion Hw.
  - intros Hc Hne. destruct (len chain <? 200) eqn:E; [apply Z.ltb_lt in E; lia|].
    destruct (sample_lines_ok fs inst_freq (firstn 240 chain) Hne 0 _ Hp0)
      as [p Es]; [lia | |].
    { unfold len. rewrite length_firstn. change height with 240. lia. }
    rewrite Es. cbn [rbind].
    pose proof (sample_lines_shape _ _ _ _ _ _ Hp0 Es) as Hp.
    destruct (fold_rgb_pair_ok p _ Hp Hpairs _ Hr0) as [rgb Ef].
    rewrite Ef. cbn [rbind]. eauto.
Qed.

End Decode.

Lemma decode_robot36_shape_witness :
  (exists img,
     decode_robot36 (fun f : Z => f) (fun y cb cr => (y, cb, cr))
       (fun fs s k => s + k) (fun fs s k => s + 4512 + k) 48000 [0; 1; 2]
       (chain_of 200) = Ok img /\
     img_width img = 320 /\ img_height img = 240) /\
  decode_robot36 (fun f : Z => f) (fun y cb cr => (y, cb, cr))
    (fun fs s k => s + k) (fun fs s k => s + 4512 + k) 48000 [0; 1; 2]
    (chain_of 199)
  = Raise (RuntimeError
      "Could not find a stable Robot36 line sync chain (found 199 lines). Try a different capture, or decode with RX-SSTV.").
Proof.
  pose proof (decode_robot36_shape Z (fun f : Z => f) (fun y cb cr => (y, cb, cr))
                (fun fs s k => s + k) (fun fs s k => s + 4512 + k)
                48000 [0; 1; 2]) as T.
  split.
  - destruct (T (chain_of 200)) as [_ [Hs Hex]].
    destruct Hex as [img E]; [vm_compute; discriminate | discriminate |].
    exists img. split; [exact E|]. destruct (Hs img E) as [_ [Hw [Hh _]]].
    now split.
  - destruct (T (chain_of 199)) as [Hr _]. rewrite Hr; [reflexivity|].
    vm_compute. reflexivity.
Defined.
(** ** More on the bit utilities *)

Ltac bits_ok :=
  repeat first [apply Forall_nil | apply Forall_cons; [unfold is_bit; lia|]].

Ltac bytes_ok :=
  repeat first [apply Forall_nil | apply Forall_cons; [unfold is_byte; lia|]].

Lemma forallb_zrange (p : Z -> bool) (n : Z) :
  forallb p (zrange n) = true -> forall i, 0 <= i < n -> p i = true.
Proof.
  intros H i Hi. rewrite forallb_forall in H. apply H. now apply in_zrange.
Qed.

Lemma length_nrzi_encode_go (bs : bits) :
  forall level, length (nrzi_encode_go level bs) = length bs.
Proof.
  induction bs as [|b rest IH]; intros level; [reflexivity|].
  cbn [nrzi_encode_go length]. now rewrite IH.
Qed.

Lemma nrzi_encode_go_bits (bs : bits) :
  forall level, is_bit level -> Forall is_bit (nrzi_encode_go level bs).
Proof.
  induction bs as [|b rest IH]; intros level Hl; [constructor|].
  cbn [nrzi_encode_go].
  assert (Hn : is_bit (if Z.land b 1 =? 0 then Z.lxor level 1 else level)).
  { destruct (Z.land b 1 =? 0); [|exact Hl].
    destruct Hl as [-> | ->]; [now right | now left]. }
  constructor; [exact Hn | now apply IH].
Qed.

(** X1: NRZI: the encoder gives one level more than it gets bits, each of
    them 0 or 1, and the decoder gives the bits back, whatever the
    initial level. *)
Theorem nrzi_encode_decode (bs : bits) (initial_level : Z) :
  Forall is_bit bs ->
  len (nrzi_encode bs initial_level) = len bs + 1 /\
  Forall is_bit (nrzi_encode bs initial_level) /\
  nrzi_decode (nrzi_encode bs initial_level) = bs.
Proof.
  intros Hb. split; [|split].
  - unfold nrzi_encode, len. cbn [length]. rewrite length_nrzi_encode_go. lia.
  - unfold nrzi_encode. constructor; [apply land1_cases|].
    apply nrzi_encode_go_bits, land1_cases.
  - now apply nrzi_roundtrip.
Qed.

Lemma nrzi_encode_decode_witness :
  nrzi_decode (nrzi_encode [0; 1; 1; 0; 0; 1] 0) = [0; 1; 1; 0; 0; 1].
Proof.
  apply (nrzi_encode_decode [0; 1; 1; 0; 0; 1] 0).
  bits_ok.
Defined.

Lemma lxor_1_eqb (a b : Z) : (Z.lxor a 1 =? Z.lxor b 1) = (a =? b).
Proof.
  destruct (Z.eqb_spec a b) as [-> | Hne]; [apply Z.eqb_refl|].
  apply Z.eqb_neq. intros E. apply Hne.
  rewrite <- (Z.lxor_0_r a), <- (Z.lxor_0_r b), <- (Z.lxor_nilpotent 1).
  now rewrite <- !Z.lxor_assoc, E.
Qed.

Lemma nrzi_decode_go_invert (levels : list Z) :
  forall prev,
    nrzi_decode_go (Z.lxor prev 1) (invert_levels levels)
    = nrzi_decode_go prev levels.
Proof.
  induction levels as [|l rest IH]; intros prev; [reflexivity|].
  cbn [invert_levels map nrzi_decode_go]. rewrite lxor_1_eqb. f_equal. apply IH.
Qed.

(** X2: NRZI decoding: one bit less than levels, and the same bits when
    every level is inverted, so the polarity of the line does not
    matter. *)
Theorem nrzi_decode_polarity (levels : list Z) :
  len (nrzi_decode levels) = Z.max 0 (len levels - 1) /\
  nrzi_decode (invert_levels levels) = nrzi_decode levels.
Proof.
  destruct levels as [|first rest]; [split; reflexivity|].
  cbn [invert_levels map nrzi_decode]. split.
  - unfold len. cbn [length].
    assert (H : forall l p, length (nrzi_decode_go p l) = length l).
    { induction l as [|x l IH]; intros p; [reflexivity|].
      cbn [nrzi_decode_go length]. now rewrite IH. }
    rewrite H. lia.
  - apply nrzi_decode_go_invert.
Qed.

(** The stuffed stream is never shorter than its input and has at most
    one more bit for every five. *)
Lemma length_bitstuff_go (bs : bits) :
  forall ones, 0 <= ones <= 4 ->
    (length bs <= length (fst (bitstuff_go ones bs)))%nat /\
    5 * (len (fst (bitstuff_go ones bs)) - len bs) <= ones + len bs.
Proof.
  unfold len. induction bs as [|b rest IH]; intros ones Ho.
  - cbn. lia.
  - rewrite fst_bitstuff_go_cons. cbn [length].
    destruct (Z.land b 1 =? 1); [destruct (ones + 1 =? 5) eqn:E|].
    + apply Z.eqb_eq in E. destruct (IH 0 ltac:(lia)) as [H1 H2].
      cbn [length]. lia.
    + apply Z.eqb_neq in E. destruct (IH (ones + 1) ltac:(lia)) as [H1 H2].
      cbn [length]. lia.
    + destruct (IH 0 ltac:(lia)) as [H1 H2]. cbn [length]. lia.
Qed.

(** X3: Bit stuffing and destuffing on any bit list: the round trip holds
    without a bound on the runs of 1s, and stuffing adds at most one bit
    for every five. *)
Theorem bitstuff_any_bits (bs : bits) :
  Forall is_bit bs ->
  bitunstuff (bitstuff bs) = bs /\
  Forall is_bit (bitstuff bs) /\
  len bs <= len (bitstuff bs) <= len bs + len bs / 5.
Proof.
  intros Hb. split; [|split].
  - rewrite bitunstuff_bitstuff. now apply map_land1_bits.
  - apply bitstuff_go_bits.
  - destruct (length_bitstuff_go bs 0 ltac:(lia)) as [H1 H2].
    fold (bitstuff bs) in H1, H2. unfold len in *. split; [lia|].
    assert (len (bitstuff bs) - len bs <= len bs / 5).
    { apply Z.div_le_lower_bound; unfold len; lia. }
    unfold len in *. lia.
Qed.

Lemma bitstuff_any_bits_witness :
  bitunstuff (bitstuff (repeat 1 12)) = repeat 1 12.
Proof.
  apply (bitstuff_any_bits (repeat 1 12)).
  cbn [repeat]. bits_ok.
Defined.

Lemma byte_of_bits (b : Z) :
  is_byte b ->
  fold_left (fun acc i => Z.lor acc (Z.shiftl (Z.land (Z.land (Z.shiftr b i) 1) 1) i))
            (zrange 8) 0 = b.
Proof.
  intros Hb.
  apply Z.eqb_eq.
  apply (forallb_zrange
           (fun b => fold_left
                       (fun acc i => Z.lor acc (Z.shiftl (Z.land (Z.land (Z.shiftr b i) 1) 1) i))
                       (zrange 8) 0 =? b) 256); [vm_compute; reflexivity | exact Hb].
Qed.

Lemma bits_to_bytes_go_byte (b : Z) (rest : bits) :
  bits_to_bytes_go 0 0 (byte_bits b ++ rest)
  = fold_left (fun acc i => Z.lor acc (Z.shiftl (Z.land (Z.land (Z.shiftr b i) 1) 1) i))
              (zrange 8) 0
    :: bits_to_bytes_go 0 0 rest.
Proof. reflexivity. Qed.

Lemma len_bytes_to_bits (data : bytes) :
  len (bytes_to_bits_lsb_first data) = 8 * len data.
Proof.
  unfold len, bytes_to_bits_lsb_first.
  induction data as [|b data IH]; [reflexivity|].
  cbn [flat_map]. rewrite length_app. cbn [length] in *.
  change (length (byte_bits b)) with 8%nat. lia.
Qed.

Lemma bits_to_bytes_short (tail : bits) :
  (length tail < 8)%nat -> bits_to_bytes_lsb_first tail = [].
Proof.
  intros H.
  do 8 (destruct tail as [|? tail]; [reflexivity|]).
  cbn [length] in H. lia.
Qed.

Lemma bits_to_bytes_of_bytes (data : bytes) (tail : bits) :
  Forall is_byte data -> (length tail < 8)%nat ->
  bits_to_bytes_lsb_first (bytes_to_bits_lsb_first data ++ tail) = data.
Proof.
  intros Hd Ht.
  unfold bits_to_bytes_lsb_first, bytes_to_bits_lsb_first.
  induction Hd as [|b data Hb _ IH]; cbn [flat_map app].
  - now apply bits_to_bytes_short.
  - rewrite <- app_assoc, bits_to_bytes_go_byte, byte_of_bits by exact Hb.
    now rewrite IH.
Qed.

(** X4: Bytes to bits and back: eight bits a byte, least significant
    first; the bytes come back, and up to seven more bits at the end
    are dropped. *)
Theorem bytes_bits_roundtrip (data : bytes) (tail : bits) :
  Forall is_byte data -> (length tail < 8)%nat ->
  len (bytes_to_bits_lsb_first data) = 8 * len data /\
  Forall is_bit (bytes_to_bits_lsb_first data) /\
  bits_to_bytes_lsb_first (bytes_to_bits_lsb_first data ++ tail) = data.
Proof.
  intros Hd Ht. split; [apply len_bytes_to_bits|].
  split; [apply bytes_to_bits_are_bits|].
  now apply bits_to_bytes_of_bytes.
Qed.

Lemma bytes_bits_roundtrip_witness :
  bits_to_bytes_lsb_first (bytes_to_bits_lsb_first [0x7E; 0xFF; 0x00] ++ [1; 0; 1])
  = [0x7E; 0xFF; 0x00].
Proof.
  apply (bytes_bits_roundtrip [0x7E; 0xFF; 0x00] [1; 0; 1]).
  - bytes_ok.
  - cbn. lia.
Defined.

(** ** More on the CRC *)

Lemma forallb_zrange2 (p : Z -> bool) (n m : Z) :
  0 < m ->
  forallb (fun h => forallb (fun l => p (h * m + l)) (zrange m)) (zrange n) = true ->
  forall i, 0 <= i < n * m -> p i = true.
Proof.
  intros Hm H i Hi.
  pose proof (Z.div_mod i m ltac:(lia)) as E.
  pose proof (Z.mod_pos_bound i m Hm) as Hl.
  assert (Hh : 0 <= i / m < n).
  { split; [apply Z.div_pos; lia | apply Z.div_lt_upper_bound; lia]. }
  pose proof (forallb_zrange _ n H (i / m) Hh) as H1. cbv beta in H1.
  pose proof (forallb_zrange _ m H1 (i mod m) Hl) as H2. cbv beta in H2.
  replace (i / m * m + i mod m) with i in H2 by lia. exact H2.
Qed.

Lemma lxor_range (n a b : Z) :
  0 <= n -> 0 <= a < 2 ^ n -> 0 <= b < 2 ^ n -> 0 <= Z.lxor a b < 2 ^ n.
Proof.
  intros Hn Ha Hb.
  assert (H0 : 0 <= Z.lxor a b) by (apply Z.lxor_nonneg; lia).
  split; [exact H0|].
  destruct (Z.eq_dec (Z.lxor a b) 0) as [-> | Hne]; [lia|].
  assert (Hpos : 0 < n).
  { destruct (Z.eq_dec n 0) as [-> | ?]; [|lia].
    change (2 ^ 0) with 1 in *. assert (a = 0) by lia. assert (b = 0) by lia.
    subst. now contradiction Hne. }
  apply Z.log2_lt_pow2; [lia|].
  eapply Z.le_lt_trans; [apply Z.log2_lxor; lia|].
  apply Z.max_lub_lt.
  - destruct (Z.eq_dec a 0) as [-> | ?]; [cbn; lia|]. apply Z.log2_lt_pow2; lia.
  - destruct (Z.eq_dec b 0) as [-> | ?]; [cbn; lia|]. apply Z.log2_lt_pow2; lia.
Qed.

Lemma crc_shift_range (n : nat) :
  forall crc, 0 <= crc < 65536 -> 0 <= crc_shift n crc < 65536.
Proof.
  induction n as [|n IH]; intros crc Hc; [exact Hc|].
  cbn [crc_shift]. apply IH.
  assert (Hs : 0 <= Z.shiftr crc 1 < 32768).
  { rewrite Z.shiftr_div_pow2 by lia. change (2 ^ 1) with 2.
    split; [apply Z.div_pos; lia | apply Z.div_lt_upper_bound; lia]. }
  destruct (truthy (Z.land crc 1)); [|lia].
  apply (lxor_range 16); [lia | change (2 ^ 16) with 65536; lia | cbn; lia].
Qed.

Lemma crc_step_range (crc b : Z) :
  0 <= crc < 65536 -> is_byte b -> 0 <= crc_step crc b < 65536.
Proof.
  intros Hc Hb. unfold crc_step. apply crc_shift_range.
  apply (lxor_range 16); [lia | exact Hc | unfold is_byte in Hb; cbn; lia].
Qed.

Lemma crc_fold_range (data : bytes) :
  Forall is_byte data ->
  forall crc, 0 <= crc < 65536 -> 0 <= fold_left crc_step data crc < 65536.
Proof.
  induction 1 as [|b data Hb _ IH]; intros crc Hc; [exact Hc|].
  cbn [fold_left]. apply IH. now apply crc_step_range.
Qed.

(** X5: The frame check sequence fits two bytes, and the CRC of a frame
    followed by its check sequence, low byte first, is always 0x0F47:
    a receiver can check a frame without splitting off the two bytes. *)
Theorem crc16_x25_residue (frame : bytes) :
  Forall is_byte frame ->
  0 <= crc16_x25 frame <= 0xFFFF /\
  crc16_x25 (frame ++ [Z.land (crc16_x25 frame) 0xFF; Z.shiftr (crc16_x25 frame) 8])
  = 0x0F47.
Proof.
  intros Hf. unfold crc16_x25. rewrite fold_left_app. cbn [fold_left].
  pose proof (crc_fold_range frame Hf 0xFFFF ltac:(lia)) as Hs.
  revert Hs. generalize (fold_left crc_step frame 0xFFFF) as s. intros s Hs.
  split.
  - change 0xFFFF with (Z.ones 16). rewrite Z.land_ones by lia.
    pose proof (Z.mod_pos_bound (Z.lnot s) (2 ^ 16) eq_refl).
    change (2 ^ 16) with 65536 in *. change (Z.ones 16) with 65535. lia.
  - apply Z.eqb_eq.
    apply (forallb_zrange2
             (fun s =>
                Z.land (Z.lnot
                  (crc_step
                     (crc_step s (Z.land (Z.land (Z.lnot s) 0xFFFF) 0xFF))
                     (Z.shiftr (Z.land (Z.lnot s) 0xFFFF) 8))) 0xFFFF =? 0x0F47)
             256 256); [lia | vm_compute; reflexivity | exact Hs].
Qed.

Lemma crc16_x25_residue_witness :
  crc16_x25 (sample_raw ++ [Z.land (crc16_x25 sample_raw) 0xFF;
                            Z.shiftr (crc16_x25 sample_raw) 8]) = 0x0F47.
Proof.
  apply (crc16_x25_residue sample_raw).
  unfold sample_raw. bytes_ok.
Defined.

(** ** More on the scrambler *)

Lemma length_descramble_go (v : Z) (bs : bits) :
  forall lfsr, length (descramble_go v lfsr bs) = length bs.
Proof.
  induction bs as [|b rest IH]; intros lfsr; [reflexivity|].
  cbn [descramble_go length]. now rewrite IH.
Qed.

Lemma descramble_go_app (v : Z) (a b : bits) :
  forall lfsr,
    descramble_go v lfsr (a ++ b)
    = descramble_go v lfsr a ++ descramble_go v (lfsr_after v lfsr a) b.
Proof.
  induction a as [|x a IH]; intros lfsr; [reflexivity|].
  cbn [app descramble_go lfsr_after]. now rewrite IH.
Qed.

Lemma testbit_step0 (l b i : Z) :
  0 <= i ->
  Z.testbit (Z.land (Z.lor (Z.shiftl l 1) (Z.land b 1)) 0x1FFFF) i
  = (Z.testbit l (i - 1) || Z.testbit (Z.land b 1) i) && (i <? 17).
Proof.
  intros Hi. change 0x1FFFF with (Z.ones 17).
  rewrite Z.land_spec, Z.lor_spec, Z.shiftl_spec by exact Hi.
  now rewrite Z.testbit_ones_nonneg by lia.
Qed.

(** After [k] input bits the low [k] bits of the register are input
    bits only. *)
Lemma lfsr_after_agree (a : bits) :
  forall l1 l2 k,
    0 <= k ->
    (forall i, 0 <= i < k -> Z.testbit l1 i = Z.testbit l2 i) ->
    forall i, 0 <= i < k + len a ->
      Z.testbit (lfsr_after 0 l1 a) i = Z.testbit (lfsr_after 0 l2 a) i.
Proof.
  unfold len. induction a as [|x a IH]; intros l1 l2 k Hk H i Hi.
  - cbn [lfsr_after]. apply H. cbn [length] in Hi. lia.
  - cbn [lfsr_after Z.eqb]. apply (IH _ _ (k + 1)); [lia | | cbn [length] in Hi; lia].
    intros j Hj. rewrite !testbit_step0 by lia.
    destruct (Z.eq_dec j 0) as [-> | Hne].
    + now rewrite !Z.testbit_neg_r by lia.
    + now rewrite (H (j - 1)) by lia.
Qed.

Lemma lfsr_after_high (a : bits) (x : Z) :
  forall l i, 17 <= i -> Z.testbit (lfsr_after 0 l (x :: a)) i = false.
Proof.
  revert x. induction a as [|y a IH]; intros x l i Hi.
  - cbn [lfsr_after Z.eqb]. rewrite testbit_step0 by lia.
    replace (i <? 17) with false by (symmetry; apply Z.ltb_ge; lia).
    apply andb_false_r.
  - change (lfsr_after 0 l (x :: y :: a))
      with (lfsr_after 0 (Z.land (Z.lor (Z.shiftl l 1) (Z.land x 1)) 0x1FFFF) (y :: a)).
    now apply IH.
Qed.

Lemma lfsr_after_17 (a : bits) (l1 l2 : Z) :
  length a = 17%nat -> lfsr_after 0 l1 a = lfsr_after 0 l2 a.
Proof.
  intros Ha. apply Z.bits_inj'. intros i Hi.
  destruct (Z.lt_ge_cases i 17) as [Hlt | Hge].
  - apply (lfsr_after_agree a l1 l2 0); [lia | intros j Hj; lia |].
    unfold len. lia.
  - destruct a as [|x a]; [discriminate|].
    now rewrite !lfsr_after_high by exact Hge.
Qed.

Lemma skipn_descramble_go (bs : bits) (l : Z) :
  skipn 17 (descramble_go 0 l bs)
  = descramble_go 0 (lfsr_after 0 l (firstn 17 bs)) (skipn 17 bs).
Proof.
  rewrite <- (firstn_skipn 17 bs) at 1. rewrite descramble_go_app, skipn_app.
  rewrite length_descramble_go.
  rewrite skipn_all2 by (rewrite length_descramble_go, length_firstn; lia).
  cbn [app]. rewrite length_firstn.
  destruct (Nat.le_gt_cases 17 (length bs)) as [H | H].
  - replace (17 - Nat.min 17 (length bs))%nat with 0%nat by lia. reflexivity.
  - rewrite (skipn_all2 bs) by lia. cbn [descramble_go]. apply skipn_nil.
Qed.

(** X6: The descrambler of variant 0 synchronises itself: whatever bits
    came before, after seventeen bits of a stream its output is the one
    it gives on the stream alone. *)
Theorem g3ruh_descramble_self_sync (before stream : bits) :
  skipn (length before + 17) (g3ruh_descramble (before ++ stream) 0)
  = skipn 17 (g3ruh_descramble stream 0).
Proof.
  unfold g3ruh_descramble. rewrite descramble_go_app.
  rewrite skipn_app, length_descramble_go.
  rewrite skipn_all2 by (rewrite length_descramble_go; lia).
  replace (length before + 17 - length before)%nat with 17%nat by lia.
  cbn [app]. rewrite !skipn_descramble_go.
  destruct (Nat.le_gt_cases 17 (length stream)) as [H | H].
  - f_equal. apply lfsr_after_17. rewrite length_firstn. lia.
  - rewrite (skipn_all2 stream) by lia. reflexivity.
Qed.

(** Both variants give as many bits as they get, each 0 or 1. *)
Lemma descramble_go_bits (v : Z) (bs : bits) :
  forall lfsr, Forall is_bit (descramble_go v lfsr bs).
Proof.
  induction bs as [|b rest IH]; intros lfsr; [constructor|].
  cbn [descramble_go]. constructor; [|apply IH].
  rewrite <- lxor_bit_mask. apply land1_cases.
Qed.

(** X7: The two variants undo each other: what one of them scrambles, the
    other one descrambles, from the first bit on and whatever the
    length; scrambling keeps the number of bits and gives bits. *)
Theorem g3ruh_variants_undo_each_other (B : bits) :
  Forall is_bit B ->
  g3ruh_descramble (g3ruh_scramble B 0) 1 = B /\
  g3ruh_descramble (g3ruh_scramble B 1) 0 = B /\
  (forall v, len (g3ruh_scramble B v) = len B /\
             Forall is_bit (g3ruh_scramble B v)).
Proof.
  intros HB. destruct (g3ruh_other_variant_inverts B HB) as [H0 H1].
  split; [exact H0|]. split; [exact H1|]. intros v. split.
  - unfold g3ruh_scramble, g3ruh_descramble, len.
    now rewrite length_descramble_go.
  - apply descramble_go_bits.
Qed.

Lemma g3ruh_variants_undo_each_other_witness :
  g3ruh_descramble (g3ruh_scramble impulse24 0) 1 = impulse24.
Proof.
  apply (g3ruh_variants_undo_each_other impulse24).
  unfold impulse24. cbn [repeat]. bits_ok.
Defined.

(** ** More on AX.25 *)

Lemma rstrip_space_app_any (s : pystr) (k : nat) :
  rstrip_space (s ++ repeat 32 k) = rstrip_space s.
Proof.
  induction s as [|c s IH]; cbn [app].
  - apply rstrip_space_spaces.
  - cbn [rstrip_space]. now rewrite IH.
Qed.

Lemma encode_ascii_ok (s : pystr) (b : bytes) :
  encode_ascii s = Ok b -> b = s /\ Forall (fun c => c < 128) s.
Proof.
  revert b. induction s as [|c s IH]; intros b H; cbn [encode_ascii] in H.
  - apply Ok_inj in H. subst. split; [reflexivity | constructor].
  - destruct (c <? 128) eqn:E; [|discriminate].
    destruct (encode_ascii s) as [r|] eqn:Er; [|discriminate].
    apply Ok_inj in H. subst b. destruct (IH r eq_refl) as [-> Hs].
    split; [reflexivity|]. constructor; [now apply Z.ltb_lt | exact Hs].
Qed.

Lemma encode_ascii_raise (s : pystr) (e : exn) :
  encode_ascii s = Raise e -> e = UnicodeEncodeError /\ Exists (fun c => 128 <= c) s.
Proof.
  induction s as [|c s IH]; cbn [encode_ascii]; [discriminate|].
  destruct (c <? 128) eqn:E.
  - destruct (encode_ascii s) as [r|e'] eqn:Er; [discriminate|].
    intros H. assert (e' = e) by congruence. subst e'.
    destruct (IH eq_refl) as [-> Hs]. split; [reflexivity | now right].
  - intros H. apply Z.ltb_ge in E. split; [congruence | now left].
Qed.

(** X8: [AX25Address.encode] gives seven bytes or raises, and it raises
    exactly in three cases, tried in this order: the upper-cased
    callsign is longer than six characters, the SSID is not in 0..15, a
    character is not ASCII.  The bytes it gives are byte values, the six
    callsign bytes are even, and bit 0 of the last one is the [last]
    flag, which [is_last] reads back. *)
Theorem ax25_address_encode_cases (tbl : Z -> pystr) (a : AX25Address) (last : bool) :
  let u := str_upper tbl (callsign a) in
  (6 < len u ->
   AX25Address_encode tbl a last = Raise (ValueError "AX.25 callsign too long")) /\
  (len u <= 6 -> ~ (0 <= ssid a <= 15) ->
   AX25Address_encode tbl a last = Raise (ValueError "AX.25 SSID must be 0..15")) /\
  (len u <= 6 -> 0 <= ssid a <= 15 -> Exists (fun c => 128 <= c) u ->
   AX25Address_encode tbl a last = Raise UnicodeEncodeError) /\
  (len u <= 6 -> 0 <= ssid a <= 15 -> Forall (fun c => c < 128) u ->
   exists addr7,
     AX25Address_encode tbl a last = Ok addr7 /\
     length addr7 = 7%nat /\
     Forall is_byte addr7 /\
     Forall (fun b => Z.land b 1 = 0) (firstn 6 addr7) /\
     AX25Address_is_last addr7 = Ok last).
Proof.
  intros u. unfold AX25Address_encode. fold u.
  assert (Hr : 0 <= ssid a <= 15 ->
               negb ((0 <=? ssid a) && (ssid a <=? 15)) = false).
  { intros H. apply negb_false_iff, andb_true_iff.
    split; apply Z.leb_le; lia. }
  assert (Hnr : ~ (0 <= ssid a <= 15) ->
                negb ((0 <=? ssid a) && (ssid a <=? 15)) = true).
  { intros H. apply negb_true_iff, andb_false_iff.
    destruct (Z.leb_spec 0 (ssid a)); [right | left; reflexivity].
    apply Z.leb_gt. lia. }
  split; [|split; [|split]].
  - intros H. apply Z.ltb_lt in H. now rewrite H.
  - intros H Hs. apply Z.ltb_ge in H. now rewrite H, (Hnr Hs).
  - intros H Hs Hex. apply Z.ltb_ge in H. rewrite H, (Hr Hs).
    destruct (encode_ascii (ljust 6 u)) as [b|e] eqn:E.
    + apply encode_ascii_ok in E. destruct E as [_ E]. exfalso.
      unfold ljust in E. apply Forall_app in E. destruct E as [E _].
      apply Exists_exists in Hex. destruct Hex as [c [Hc Hge]].
      rewrite Forall_forall in E. specialize (E c Hc). lia.
    + apply encode_ascii_raise in E. destruct E as [-> _]. reflexivity.
  - intros H Hs Hall. pose proof H as Hlen. apply Z.ltb_ge in H. rewrite H, (Hr Hs).
    assert (Hpad : Forall (fun c => c < 128) (ljust 6 u)).
    { unfold ljust. apply Forall_app. split; [exact Hall|].
      apply Forall_forall. intros c Hc. apply repeat_spec in Hc. subst. lia. }
    rewrite (encode_ascii_low _ Hpad). cbn [rbind].
    set (shifted := map (fun b => Z.shiftl (Z.land b 0x7F) 1) (ljust 6 u)).
    set (sb := Z.lor (Z.lor 0x60 (Z.shiftl (Z.land (ssid a) 0x0F) 1))
                     (if last then 0x01 else 0x00)).
    assert (Hsl : length shifted = 6%nat).
    { unfold shifted, ljust. rewrite length_map, length_app, repeat_length.
      unfold len in Hlen. lia. }
    destruct (ssid_byte_roundtrip (ssid a) last Hs) as [_ [Hs2 Hs3]].
    fold sb in Hs2, Hs3.
    assert (Hsh : forall b, In b shifted -> is_byte b /\ Z.land b 1 = 0).
    { intros b Hb. unfold shifted in Hb. apply in_map_iff in Hb.
      destruct Hb as [c [<- _]]. pose proof (land_7f c) as Hc.
      rewrite Z.shiftl_mul_pow2 by lia. change (2 ^ 1) with 2.
      split; [unfold is_byte; lia|].
      change 1 with (Z.ones 1). rewrite Z.land_ones by lia.
      change (2 ^ 1) with 2. apply Z.mod_mul. lia. }
    exists (shifted ++ [sb]). split; [reflexivity|].
    assert (H7 : length (shifted ++ [sb]) = 7%nat)
      by (rewrite length_app, Hsl; reflexivity).
    split; [exact H7|]. split; [|split].
    + apply Forall_app. split.
      * apply Forall_forall. intros b Hb. now apply Hsh.
      * constructor; [exact Hs3 | constructor].
    + rewrite <- Hsl at 1. rewrite firstn_app, firstn_all, Nat.sub_diag.
      cbn [firstn]. rewrite app_nil_r.
      apply Forall_forall. intros b Hb. now apply Hsh.
    + unfold AX25Address_is_last, len. rewrite H7.
      cbn [Z.of_nat Pos.of_succ_nat Pos.succ Z.eqb Pos.eqb negb].
      unfold znth. change (Z.to_nat 6) with 6%nat.
      rewrite app_nth2 by lia. rewrite Hsl. cbn [Nat.sub nth].
      now rewrite Hs2.
Qed.

Lemma ax25_address_encode_cases_witness :
  AX25Address_encode (fun c => [c]) (mkAddress [104; 97; 55; 102; 108; 114; 120] 0) true
  = Raise (ValueError "AX.25 callsign too long") /\
  AX25Address_encode (fun c => [c]) (mkAddress [104; 97] 16) true
  = Raise (ValueError "AX.25 SSID must be 0..15") /\
  AX25Address_encode (fun c => [c]) (mkAddress [104; 233] 3) true
  = Raise UnicodeEncodeError.
Proof.
  split; [|split].
  - apply (proj1 (ax25_address_encode_cases (fun c => [c])
                    (mkAddress [104; 97; 55; 102; 108; 114; 120] 0) true)).
    vm_compute. reflexivity.
  - apply (proj1 (proj2 (ax25_address_encode_cases (fun c => [c])
                           (mkAddress [104; 97] 16) true))).
    + vm_compute. discriminate.
    + cbn. lia.
  - apply (proj1 (proj2 (proj2 (ax25_address_encode_cases (fun c => [c])
                                  (mkAddress [104; 233] 3) true)))).
    + vm_compute. discriminate.
    + cbn. lia.
    + right. left. lia.
Defined.

Lemma address_decode_encode (tbl : Z -> pystr) (a : AX25Address) (last : bool)
    (addr7 : bytes) :
  AX25Address_encode tbl a last = Ok addr7 ->
  Forall (fun c => 0 <= c) (str_upper tbl (callsign a)) ->
  length addr7 = 7%nat /\
  AX25Address_decode addr7 = Ok (normalise_address tbl a) /\
  AX25Address_is_last addr7 = Ok last.
Proof.
  unfold AX25Address_encode, normalise_address.
  set (u := str_upper tbl (callsign a)).
  destruct (6 <? len u) eqn:E1; [discriminate|]. apply Z.ltb_ge in E1.
  destruct ((0 <=? ssid a) && (ssid a <=? 15)) eqn:E2; [|discriminate].
  apply andb_true_iff in E2. destruct E2 as [E2 E3]. apply Z.leb_le in E2, E3.
  cbn [negb].
  destruct (encode_ascii (ljust 6 u)) as [cb|] eqn:E4; [|discriminate].
  apply encode_ascii_ok in E4. destruct E4 as [-> Hlow].
  cbn [rbind]. intros H Hnn. apply Ok_inj in H. subst addr7.
  set (shifted := map (fun b => Z.shiftl (Z.land b 0x7F) 1) (ljust 6 u)).
  set (sb := Z.lor (Z.lor 0x60 (Z.shiftl (Z.land (ssid a) 0x0F) 1))
                   (if last then 0x01 else 0x00)).
  assert (Hsl : length shifted = 6%nat).
  { unfold shifted, ljust. rewrite length_map, length_app, repeat_length.
    unfold len in E1. lia. }
  destruct (ssid_byte_roundtrip (ssid a) last ltac:(lia)) as [Hs1 [Hs2 _]].
  fold sb in Hs1, Hs2.
  assert (H7 : length (shifted ++ [sb]) = 7%nat)
    by (rewrite length_app, Hsl; reflexivity).
  split; [exact H7|].
  assert (Hnth : znth (shifted ++ [sb]) 6 = sb).
  { unfold znth. change (Z.to_nat 6) with 6%nat.
    rewrite app_nth2 by lia. rewrite Hsl. reflexivity. }
  assert (Hhead : zslice (shifted ++ [sb]) 0 6 = shifted).
  { unfold zslice. change (Z.to_nat 6 - Z.to_nat 0)%nat with 6%nat.
    change (Z.to_nat 0) with 0%nat. cbn [skipn].
    rewrite <- Hsl at 1. rewrite firstn_app, firstn_all, Nat.sub_diag.
    cbn [firstn]. apply app_nil_r. }
  unfold AX25Address_decode, AX25Address_is_last, len.
  rewrite H7, Hnth, Hhead. cbn [Z.of_nat Pos.of_succ_nat Pos.succ Z.eqb Pos.eqb negb].
  rewrite decode_ascii_shifted. cbn [rbind].
  rewrite Hs1, Hs2. split; [|reflexivity].
  do 2 f_equal. unfold shifted. rewrite map_map.
  rewrite (map_ext_in _ (fun c => c)).
  - rewrite map_id. unfold ljust. apply rstrip_space_app_any.
  - intros c Hc. apply shift_roundtrip.
    rewrite Forall_forall in Hlow. specialize (Hlow c Hc).
    unfold ljust in Hc. apply in_app_or in Hc. destruct Hc as [Hc | Hc].
    + rewrite Forall_forall in Hnn. specialize (Hnn c Hc). lia.
    + apply repeat_spec in Hc. lia.
Qed.

Lemma bytes_of_ints_ok (l : list Z) (b : bytes) :
  bytes_of_ints l = Ok b -> b = l /\ Forall is_byte l.
Proof.
  revert b. induction l as [|x l IH]; intros b H; cbn [bytes_of_ints] in H.
  - apply Ok_inj in H. subst. split; [reflexivity | constructor].
  - destruct ((0 <=? x) && (x <? 256)) eqn:E; [|discriminate].
    destruct (bytes_of_ints l) as [r|] eqn:Er; [|discriminate].
    apply Ok_inj in H. subst b. destruct (IH r eq_refl) as [-> Hl].
    split; [reflexivity|]. constructor; [|exact Hl].
    apply andb_true_iff in E. destruct E as [E1 E2].
    apply Z.leb_le in E1. apply Z.ltb_lt in E2. unfold is_byte. lia.
Qed.

(** X9: Whatever frame [AX25Frame.encode] accepts, [AX25Frame.decode]
    accepts its bytes: they are 16 bytes of header and the payload, and
    the frame that comes back has the same SSIDs, control, PID and
    payload, its callsigns being the ones given in upper case and
    without spaces at the end. *)
Theorem ax25_decode_encode_normalises (tbl : Z -> pystr) (f : AX25Frame)
    (raw : bytes) :
  AX25Frame_encode tbl f = Ok raw ->
  Forall (fun c => 0 <= c) (str_upper tbl (callsign (destination f))) ->
  Forall (fun c => 0 <= c) (str_upper tbl (callsign (source f))) ->
  len raw = 16 + len (payload f) /\
  skipn 16 raw = payload f /\
  AX25Frame_decode raw
  = Ok (mkFrame (normalise_address tbl (destination f))
                (normalise_address tbl (source f))
                (control f) (pid f) (payload f)).
Proof.
  unfold AX25Frame_encode. intros H Hd Hs.
  destruct (AX25Address_encode tbl (destination f) false) as [d7|] eqn:Ed;
    [|discriminate]. cbn [rbind] in H.
  destruct (AX25Address_encode tbl (source f) true) as [s7|] eqn:Es;
    [|discriminate]. cbn [rbind] in H.
  destruct (bytes_of_ints [control f; pid f]) as [cp|] eqn:Ec; [|discriminate].
  cbn [rbind] in H. apply Ok_inj in H. subst raw.
  apply bytes_of_ints_ok in Ec. destruct Ec as [-> _].
  destruct (address_decode_encode tbl _ _ _ Ed Hd) as [Ld [Dd _]].
  destruct (address_decode_encode tbl _ _ _ Es Hs) as [Ls [Ds Is]].
  destruct (length7_inv d7 Ld) as [d0 [d1 [d2 [d3 [d4 [d5 [d6 ->]]]]]]].
  destruct (length7_inv s7 Ls) as [s0 [s1 [s2 [s3 [s4 [s5 [s6 ->]]]]]]].
  cbn [app]. split; [|split].
  - unfold len. cbn [length]. lia.
  - reflexivity.
  - unfold AX25Frame_decode.
    destruct (len _ <? 7 + 7 + 2) eqn:E.
    { apply Z.ltb_lt in E. unfold len in E. cbn [length] in E. lia. }
    change (zslice _ 0 7) with [d0; d1; d2; d3; d4; d5; d6].
    change (zslice _ 7 14) with [s0; s1; s2; s3; s4; s5; s6].
    rewrite Is. cbn [rbind negb]. rewrite Dd, Ds. reflexivity.
Qed.

Lemma ax25_decode_encode_normalises_witness :
  AX25Frame_decode
    [144; 130; 64; 64; 64; 64; 96; 142; 164; 158; 170; 156; 136; 103;
     3; 240; 9]
  = Ok (mkFrame (mkAddress [72; 65] 0) (mkAddress [71; 82; 79; 85; 78; 68] 3)
                3 240 [9]).
Proof.
  apply (ax25_decode_encode_normalises (fun c => [c])
           (mkFrame (mkAddress [104; 97; 32] 0)
                    (mkAddress [103; 114; 111; 117; 110; 100] 3) 3 240 [9])).
  - reflexivity.
  - cbn. repeat constructor; lia.
  - cbn. repeat constructor; lia.
Defined.

Lemma ax25_decode_cases (raw : bytes) :
  (len raw < 16 /\
   AX25Frame_decode raw = Raise (ValueError "Frame too short to be AX.25")) \/
  (16 <= len raw /\ Z.land (znth raw 13) 1 = 0 /\
   AX25Frame_decode raw
   = Raise (ValueError "Unsupported AX.25 frame: source address not marked last")) \/
  (16 <= len raw /\ Z.land (znth raw 13) 1 = 1 /\
   exists dst src,
     AX25Frame_decode raw
     = Ok (mkFrame dst src (znth raw 14) (znth raw 15) (skipn 16 raw))).
Proof.
  destruct (Z.lt_ge_cases (len raw) 16) as [Hlt | Hlen].
  { left. split; [exact Hlt|]. unfold AX25Frame_decode. apply Z.ltb_lt in Hlt.
    change (7 + 7 + 2) with 16. now rewrite Hlt. }
  right.
  destruct raw as [|b0 [|b1 [|b2 [|b3 [|b4 [|b5 [|b6 [|b7 [|b8 [|b9 [|b10
    [|b11 [|b12 [|b13 [|b14 [|b15 rest]]]]]]]]]]]]]]]];
    try (unfold len in Hlen; cbn [length] in Hlen; lia).
  change (znth _ 13) with b13. change (znth _ 14) with b14.
  change (znth _ 15) with b15.
  change (skipn 16 _) with rest.
  unfold AX25Frame_decode.
  destruct (len _ <? 7 + 7 + 2) eqn:E0; [apply Z.ltb_lt in E0; lia|].
  change (zslice _ 0 7) with [b0; b1; b2; b3; b4; b5; b6].
  change (zslice _ 7 14) with [b7; b8; b9; b10; b11; b12; b13].
  unfold AX25Address_is_last, AX25Address_decode.
  change (len [b0; b1; b2; b3; b4; b5; b6] =? 7) with true.
  change (len [b7; b8; b9; b10; b11; b12; b13] =? 7) with true.
  change (znth [b7; b8; b9; b10; b11; b12; b13] 6) with b13.
  destruct (land1_cases b13) as [H0 | H1].
  - left. split; [exact Hlen|]. split; [exact H0|]. rewrite H0. reflexivity.
  - right. split; [exact Hlen|]. split; [exact H1|]. rewrite H1.
    cbn [negb rbind truthy Z.eqb].
    rewrite !decode_ascii_shifted. cbn [rbind]. eauto.
Qed.

(** X10: [AX25Frame.decode] raises in two cases only, fewer than 16 bytes
    and a byte 13 whose bit 0 is clear, each with its own message; on
    every other input it returns a frame. *)
Theorem ax25_decode_failures (raw : bytes) :
  (len raw < 16 ->
   AX25Frame_decode raw = Raise (ValueError "Frame too short to be AX.25")) /\
  (16 <= len raw -> Z.land (znth raw 13) 1 = 0 ->
   AX25Frame_decode raw
   = Raise (ValueError "Unsupported AX.25 frame: source address not marked last")) /\
  ((exists f, AX25Frame_decode raw = Ok f) <->
   16 <= len raw /\ Z.land (znth raw 13) 1 = 1).
Proof.
  destruct (ax25_decode_cases raw)
    as [[H E] | [[H [H0 E]] | [H [H1 [dst [src E]]]]]].
  - split; [intros _; exact E|]. split; [lia|]. split.
    + intros [f Hf]. rewrite E in Hf. discriminate.
    + lia.
  - split; [lia|]. split; [intros _ _; exact E|]. split.
    + intros [f Hf]. rewrite E in Hf. discriminate.
    + lia.
  - split; [lia|]. split; [lia|]. split; [now intros _ | intros _; eauto].
Qed.

Lemma ax25_decode_failures_witness :
  AX25Frame_decode (firstn 15 sample_raw)
  = Raise (ValueError "Frame too short to be AX.25") /\
  AX25Frame_decode (firstn 13 sample_raw ++ [96; 3; 240])
  = Raise (ValueError "Unsupported AX.25 frame: source address not marked last").
Proof.
  split.
  - apply (proj1 (ax25_decode_failures (firstn 15 sample_raw))).
    vm_compute. reflexivity.
  - apply (proj1 (proj2 (ax25_decode_failures (firstn 13 sample_raw ++ [96; 3; 240]))));
      [vm_compute; discriminate | reflexivity].
Defined.

(** ** More on the telemetry decoder *)

Lemma decode_telemetry_record (p : bytes) :
  tl_type p = 0x544C -> ~ truncated p -> decode_telemetry p = Ok (tl_record p).
Proof.
  intros Ht Htr. unfold truncated in Htr.
  unfold_readers. take_step; [lia|].
  change (0 + 2) with 2. fold (tl_type p). rewrite Ht.
  change (negb (0x544C =? 0x544C)) with false. cbv iota.
  do 15 (take_step; [lia|]).
  change (2 + 4 + 8 + 4 + 4 + 1 + 1 + 1 + 2 + 2 + 2 + 2 + 2 + 2 + 2) with 39.
  rewrite znth_zslice_one by lia. change (39 + 1) with 40.
  fold (motd_len p).
  take_step; [lia|].
  fold (motd_bytes p). unfold tl_record.
  rewrite <- (znth_zslice_one p 22), <- (znth_zslice_one p 23),
    <- (znth_zslice_one p 24) by lia.
  destruct (utf8_decode (motd_bytes p)); reflexivity.
Qed.

Lemma zslice_app_l {A : Type} (l e : list A) (lo hi : Z) :
  hi <= len l -> zslice (l ++ e) lo hi = zslice l lo hi.
Proof.
  intros H. unfold zslice, len in *.
  destruct (Nat.le_gt_cases (Z.to_nat lo) (length l)) as [Hlo | Hlo].
  - rewrite skipn_app.
    replace (Z.to_nat lo - length l)%nat with 0%nat by lia. cbn [skipn].
    rewrite firstn_app, length_skipn.
    replace (Z.to_nat hi - Z.to_nat lo - (length l - Z.to_nat lo))%nat
      with 0%nat by lia.
    cbn [firstn]. apply app_nil_r.
  - replace (Z.to_nat hi - Z.to_nat lo)%nat with 0%nat by lia. reflexivity.
Qed.

Lemma znth_app_l (l e : bytes) (i : Z) :
  0 <= i < len l -> znth (l ++ e) i = znth l i.
Proof. intros H. unfold znth, len in *. apply app_nth1. lia. Qed.

(** X11: The telemetry packet is read at fixed offsets (sequence at 2,
    timestamp at 6, uptime at 14, boot count at 18, three single bytes
    at 22, the voltages at 25, the currents at 31, the temperature at
    37, the motd from 39 on), and bytes after the motd are ignored: a
    packet followed by anything decodes to the same record. *)
Theorem decode_telemetry_layout (p extra : bytes) :
  tl_type p = 0x544C -> ~ truncated p ->
  decode_telemetry p = Ok (tl_record p) /\
  decode_telemetry (p ++ extra) = decode_telemetry p.
Proof.
  intros Ht Htr. pose proof Htr as Hn. unfold truncated in Hn.
  assert (H40 : 40 <= len p) by lia.
  assert (Hm : 40 + motd_len p <= len p) by lia.
  rewrite (decode_telemetry_record p Ht Htr). split; [reflexivity|].
  assert (Hml : motd_len (p ++ extra) = motd_len p)
    by (unfold motd_len; apply znth_app_l; lia).
  assert (Hlen : len p <= len (p ++ extra))
    by (unfold len; rewrite length_app; lia).
  rewrite decode_telemetry_record.
  - f_equal. unfold tl_record, motd_bytes. rewrite Hml.
    rewrite !zslice_app_l by lia. rewrite !znth_app_l by lia. reflexivity.
  - unfold tl_type. rewrite zslice_app_l by lia. exact Ht.
  - unfold truncated. rewrite Hml. lia.
Qed.

Lemma decode_telemetry_layout_witness :
  decode_telemetry sample_tl_trailing = decode_telemetry sample_tl.
Proof.
  apply (decode_telemetry_layout sample_tl [1; 2; 3]).
  - reflexivity.
  - vm_compute. intros [H | H]; discriminate H.
Defined.

Lemma be_unsigned_range (chunk : bytes) :
  Forall is_byte chunk -> 0 <= be_unsigned chunk < 256 ^ len chunk.
Proof.
  unfold be_unsigned, len.
  assert (H : forall l acc n,
             Forall is_byte l -> 0 <= n -> 0 <= acc < 256 ^ n ->
             0 <= fold_left (fun a b => a * 256 + b) l acc
               < 256 ^ (n + Z.of_nat (length l))).
  { induction l as [|b l IH]; intros acc n Hl Hn Ha.
    - cbn [fold_left length]. now rewrite Z.add_0_r.
    - inversion Hl as [|? ? Hb Hl']; subst. cbn [fold_left length].
      replace (n + Z.of_nat (S (length l))) with ((n + 1) + Z.of_nat (length l)) by lia.
      apply IH; [exact Hl' | lia |].
      rewrite Z.pow_add_r by lia. change (256 ^ 1) with 256.
      unfold is_byte in Hb. nia. }
  intros Hc. apply (H chunk 0 0 Hc); [lia | cbn; lia].
Qed.

Lemma be_signed_range (chunk : bytes) :
  Forall is_byte chunk -> 0 < len chunk ->
  - 2 ^ (8 * len chunk - 1) <= be_signed chunk < 2 ^ (8 * len chunk - 1).
Proof.
  intros Hc Hl. unfold be_signed.
  pose proof (be_unsigned_range chunk Hc) as Hu.
  replace (256 ^ len chunk) with (2 ^ (8 * len chunk)) in Hu
    by (change 256 with (2 ^ 8); rewrite <- Z.pow_mul_r; lia).
  assert (E : 2 ^ (8 * len chunk) = 2 * 2 ^ (8 * len chunk - 1)).
  { rewrite <- Z.pow_succ_r by lia. f_equal. lia. }
  destruct (Z.ltb_spec (be_unsigned chunk) (2 ^ (8 * len chunk - 1))); lia.
Qed.

Lemma zslice_bytes (p : bytes) (lo hi : Z) :
  Forall is_byte p -> Forall is_byte (zslice p lo hi).
Proof.
  intros H. unfold zslice.
  apply Forall_firstn_skipn. now apply Forall_firstn_skipn.
Qed.

Lemma znth_byte (p : bytes) (i : Z) :
  Forall is_byte p -> 0 <= i < len p -> is_byte (znth p i).
Proof.
  intros H Hi. unfold znth, len in *. rewrite Forall_forall in H.
  apply H, nth_In. lia.
Qed.

(** The strict UTF-8 decoder gives at most one code point per byte. *)
Lemma length_utf8_decode (n : nat) :
  forall b s, (length b <= n)%nat -> utf8_decode b = Some s ->
              (length s <= length b)%nat.
Proof.
  induction n as [|n IH]; intros b s Hb H.
  - destruct b; [|cbn in Hb; lia]. cbn in H. injection H as <-. cbn. lia.
  - destruct b as [|b0 r0]; [cbn in H; injection H as <-; cbn; lia|].
    cbn [length] in Hb. cbn [utf8_decode] in H.
    assert (Hstep : forall (c : Z) (r : bytes) (k : nat),
              (length r + k <= length r0)%nat ->
              option_map (cons c) (utf8_decode r) = Some s ->
              (length s <= S (length r0))%nat).
    { intros c r k Hr Hs. destruct (utf8_decode r) as [t|] eqn:Et; [|discriminate].
      cbn in Hs. injection Hs as <-. cbn [length].
      specialize (IH r t ltac:(lia) Et). lia. }
    cbn [length].
    destruct (in_range 0 0x7F b0).
    { apply (Hstep b0 r0 0%nat); [lia | exact H]. }
    destruct (in_range 0xC2 0xDF b0).
    { destruct r0 as [|b1 r1]; [discriminate|].
      destruct (is_cont b1); [|discriminate].
      eapply (Hstep _ r1 1%nat); [cbn; lia | exact H]. }
    destruct (in_range 0xE0 0xEF b0).
    { destruct r0 as [|b1 [|b2 r2]]; try discriminate.
      destruct (_ && is_cont b2); [|discriminate].
      eapply (Hstep _ r2 2%nat); [cbn; lia | exact H]. }
    destruct (in_range 0xF0 0xF4 b0); [|discriminate].
    destruct r0 as [|b1 [|b2 [|b3 r3]]]; try discriminate.
    destruct (_ && is_cont b3); [|discriminate].
    eapply (Hstep _ r3 3%nat); [cbn; lia | exact H].
Qed.

(** X12: Every field of a decoded telemetry record lies in the range of its
    wire type, and the motd has at most 255 characters. *)
Theorem decode_telemetry_ranges (p : bytes) (tl : TelemetryTL) :
  Forall is_byte p -> decode_telemetry p = Ok tl ->
  0 <= sequence tl < 2 ^ 32 /\
  - 2 ^ 63 <= timestamp tl < 2 ^ 63 /\
  0 <= uptime tl < 2 ^ 32 /\
  0 <= boot_count tl < 2 ^ 32 /\
  is_byte (restart_reason tl) /\ is_byte (mode tl) /\ is_byte (flags tl) /\
  (let '(a, b, c) := battery_voltages_mv tl in
   0 <= a < 65536 /\ 0 <= b < 65536 /\ 0 <= c < 65536) /\
  (let '(a, b, c) := battery_currents_ma tl in
   0 <= a < 65536 /\ 0 <= b < 65536 /\ 0 <= c < 65536) /\
  len (motd tl) <= 255.
Proof.
  intros Hp H.
  destruct (Z.lt_ge_cases (len p) 2) as [Hs | Hs].
  { rewrite (decode_short p Hs) in H. discriminate. }
  destruct (Z.eq_dec (tl_type p) 0x544C) as [Ht | Ht].
  2:{ rewrite (decode_wrong_type p Hs Ht) in H. discriminate. }
  assert (Htr : ~ truncated p).
  { intros Htr. rewrite (decode_truncated p Hs Ht Htr) in H. discriminate. }
  rewrite (decode_telemetry_record p Ht Htr) in H. apply Ok_inj in H. subst tl.
  unfold truncated in Htr.
  assert (Hu : forall lo hi, 0 <= lo <= hi -> hi <= 40 ->
               0 <= be_unsigned (zslice p lo hi) < 256 ^ (hi - lo)).
  { intros lo hi H1 H2. rewrite <- (len_zslice p lo hi) by lia.
    apply be_unsigned_range, zslice_bytes, Hp. }
  assert (Hml : is_byte (motd_len p)) by (apply znth_byte; [exact Hp | lia]).
  unfold tl_record.
  cbn [sequence timestamp uptime boot_count restart_reason mode flags
       battery_voltages_mv battery_currents_ma motd].
  repeat split;
    try (apply (Hu 2 6); lia);
    try (apply (Hu 14 18); lia); try (apply (Hu 18 22); lia);
    try (apply (Hu 25 27); lia); try (apply (Hu 27 29); lia);
    try (apply (Hu 29 31); lia); try (apply (Hu 31 33); lia);
    try (apply (Hu 33 35); lia); try (apply (Hu 35 37); lia);
    try (apply (znth_byte p); [exact Hp | lia]).
  - pose proof (be_signed_range (zslice p 6 14) (zslice_bytes p 6 14 Hp)) as Hb.
    rewrite (len_zslice p 6 14) in Hb by lia. apply Hb. lia.
  - pose proof (be_signed_range (zslice p 6 14) (zslice_bytes p 6 14 Hp)) as Hb.
    rewrite (len_zslice p 6 14) in Hb by lia. apply Hb. lia.
  - assert (Hlb : len (motd_bytes p) = motd_len p).
    { unfold motd_bytes. unfold is_byte in Hml. rewrite len_zslice; lia. }
    unfold is_byte in Hml.
    destruct (utf8_decode (motd_bytes p)) as [s|] eqn:E.
    + pose proof (length_utf8_decode _ _ _ (le_n _) E). unfold len in *. lia.
    + unfold latin1_decode. lia.
Qed.

Lemma decode_telemetry_ranges_witness :
  exists tl, decode_telemetry sample_tl = Ok tl /\ 0 <= sequence tl < 2 ^ 32.
Proof.
  destruct (decode_telemetry sample_tl) as [tl|] eqn:E; [|discriminate E].
  exists tl. split; [reflexivity|].
  apply (decode_telemetry_ranges sample_tl tl); [|exact E].
  unfold sample_tl. bytes_ok.
Defined.

(** ** Length-prefixed strings *)

Lemma utf8_decode_app (n : nat) :
  forall a s b, (length a <= n)%nat -> utf8_decode a = Some s ->
                utf8_decode (a ++ b) = option_map (app s) (utf8_decode b).
Proof.
  induction n as [|n IH]; intros a s b Ha H.
  - destruct a; [|cbn in Ha; lia]. cbn in H. injection H as <-. cbn [app].
    now destruct (utf8_decode b).
  - destruct a as [|b0 r0].
    { cbn in H. injection H as <-. cbn [app]. now destruct (utf8_decode b). }
    cbn [length] in Ha.
    assert (Hstep : forall (c : Z) (r : bytes),
              (length r <= n)%nat ->
              option_map (cons c) (utf8_decode r) = Some s ->
              option_map (cons c) (utf8_decode (r ++ b))
              = option_map (app s) (utf8_decode b)).
    { intros c r Hr Hs. destruct (utf8_decode r) as [t|] eqn:Et; [|discriminate].
      cbn in Hs. injection Hs as <-. rewrite (IH r t b Hr Et).
      now destruct (utf8_decode b). }
    cbn [app]. cbn [utf8_decode] in H |- *.
    destruct (in_range 0 0x7F b0).
    { apply Hstep; [lia | exact H]. }
    destruct (in_range 0xC2 0xDF b0).
    { destruct r0 as [|b1 r1]; [discriminate|]. cbn [app].
      destruct (is_cont b1); [|discriminate].
      apply Hstep; [cbn [length] in Ha; lia | exact H]. }
    destruct (in_range 0xE0 0xEF b0).
    { destruct r0 as [|b1 [|b2 r2]]; try discriminate. cbn [app].
      destruct (_ && is_cont b2); [|discriminate].
      apply Hstep; [cbn [length] in Ha; lia | exact H]. }
    destruct (in_range 0xF0 0xF4 b0); [|discriminate].
    destruct r0 as [|b1 [|b2 [|b3 r3]]]; try discriminate. cbn [app].
    destruct (_ && is_cont b3); [|discriminate].
    apply Hstep; [cbn [length] in Ha; lia | exact H].
Qed.

Lemma split_bits (a n : Z) :
  0 <= n -> Z.lor (Z.shiftl (Z.shiftr a n) n) (Z.land a (Z.ones n)) = a.
Proof.
  intros Hn. apply Z.bits_inj'. intros i Hi.
  rewrite Z.lor_spec, Z.land_spec.
  destruct (Z.lt_ge_cases i n) as [H | H].
  - rewrite Z.shiftl_spec_low by lia.
    rewrite Z.testbit_ones_nonneg by lia.
    replace (i <? n) with true by (symmetry; apply Z.ltb_lt; lia).
    cbn [orb]. apply andb_true_r.
  - rewrite Z.shiftl_spec, Z.shiftr_spec by lia.
    replace (i - n + n) with i by lia.
    rewrite Z.ones_spec_high by lia. rewrite andb_false_r. apply orb_false_r.
Qed.

Lemma low6 (z : Z) : 0 <= Z.land z 0x3F < 64.
Proof.
  change 0x3F with (Z.ones 6). rewrite Z.land_ones by lia.
  change (2 ^ 6) with 64. apply Z.mod_pos_bound. lia.
Qed.

(** A continuation byte carries six bits. *)
Lemma cont_byte (z : Z) :
  is_cont (Z.lor 0x80 (Z.land z 0x3F)) = true /\
  Z.land (Z.lor 0x80 (Z.land z 0x3F)) 0x3F = Z.land z 0x3F /\
  is_byte (Z.lor 0x80 (Z.land z 0x3F)).
Proof.
  pose proof (low6 z) as H. revert H. generalize (Z.land z 0x3F) as x. intros x Hx.
  pose proof (forallb_zrange
                (fun x => is_cont (Z.lor 0x80 x)
                          && (Z.land (Z.lor 0x80 x) 0x3F =? x)
                          && (Z.lor 0x80 x <? 256)) 64 eq_refl x Hx) as H.
  cbv beta in H. apply andb_true_iff in H. destruct H as [H H3].
  apply andb_true_iff in H. destruct H as [H1 H2].
  apply Z.eqb_eq in H2. apply Z.ltb_lt in H3.
  split; [exact H1|]. split; [exact H2|].
  unfold is_cont in H1. apply andb_true_iff in H1. destruct H1 as [H1 _].
  apply Z.leb_le in H1. unfold is_byte. lia.
Qed.

Lemma shiftr_range (c k lo hi : Z) :
  0 <= k -> lo * 2 ^ k <= c < hi * 2 ^ k -> lo <= Z.shiftr c k < hi.
Proof.
  intros Hk H. rewrite Z.shiftr_div_pow2 by exact Hk.
  assert (0 < 2 ^ k) by (apply Z.pow_pos_nonneg; lia).
  split; [apply Z.div_le_lower_bound; lia | apply Z.div_lt_upper_bound; lia].
Qed.

Lemma utf8_two_bytes (c : Z) :
  0x80 <= c < 0x800 ->
  utf8_decode [Z.lor 0xC0 (Z.shiftr c 6); Z.lor 0x80 (Z.land c 0x3F)] = Some [c] /\
  is_byte (Z.lor 0xC0 (Z.shiftr c 6)).
Proof.
  intros Hc.
  pose proof (forallb_zrange
    (fun c => (c <? 0x80) ||
       match utf8_decode [Z.lor 0xC0 (Z.shiftr c 6); Z.lor 0x80 (Z.land c 0x3F)] with
       | Some [d] => (d =? c) && (Z.lor 0xC0 (Z.shiftr c 6) <? 256)
                     && (0 <=? Z.lor 0xC0 (Z.shiftr c 6))
       | _ => false
       end) 0x800 eq_refl c ltac:(lia)) as H.
  cbv beta in H.
  replace (c <? 0x80) with false in H by (symmetry; apply Z.ltb_ge; lia).
  cbn [orb] in H.
  destruct (utf8_decode _) as [[|d [|? ?]]|]; try discriminate H.
  apply andb_true_iff in H. destruct H as [H H3].
  apply andb_true_iff in H. destruct H as [H1 H2].
  apply Z.eqb_eq in H1. apply Z.ltb_lt in H2. apply Z.leb_le in H3.
  subst d. split; [reflexivity | unfold is_byte; lia].
Qed.

Lemma utf8_three_bytes (c : Z) :
  0x800 <= c < 0x10000 -> ~ surrogate c ->
  utf8_decode [Z.lor 0xE0 (Z.shiftr c 12);
               Z.lor 0x80 (Z.land (Z.shiftr c 6) 0x3F);
               Z.lor 0x80 (Z.land c 0x3F)] = Some [c] /\
  is_byte (Z.lor 0xE0 (Z.shiftr c 12)).
Proof.
  intros Hc Hs. unfold surrogate in Hs.
  assert (E12 : Z.shiftr c 12 = Z.shiftr (Z.shiftr c 6) 6)
    by (rewrite Z.shiftr_shiftr by lia; reflexivity).
  pose proof (shiftr_range c 6 0x20 0x400 ltac:(lia) ltac:(lia)) as Ht.
  assert (Hns : ~ (0x360 <= Z.shiftr c 6 <= 0x37F)).
  { intros H. apply Hs. rewrite Z.shiftr_div_pow2 in H by lia.
    change (2 ^ 6) with 64 in H.
    pose proof (Z.div_mod c 64 ltac:(lia)).
    pose proof (Z.mod_pos_bound c 64 ltac:(lia)). lia. }
  pose proof (split_bits c 6 ltac:(lia)) as Sc.
  pose proof (split_bits (Z.shiftr c 6) 6 ltac:(lia)) as St.
  change (Z.ones 6) with 0x3F in Sc, St.
  rewrite E12. revert Ht Hns St Sc. generalize (Z.shiftr c 6) as t.
  intros t Ht Hns St Sc.
  destruct (cont_byte c) as [C1 [C2 _]].
  set (b2 := Z.lor 0x80 (Z.land c 0x3F)) in *.
  pose proof (forallb_zrange
    (fun t =>
       (t <? 0x20) || in_range 0x360 0x37F t ||
       (let b0 := Z.lor 0xE0 (Z.shiftr t 6) in
        let b1 := Z.lor 0x80 (Z.land t 0x3F) in
        negb (in_range 0 0x7F b0) && negb (in_range 0xC2 0xDF b0)
        && in_range 0xE0 0xEF b0
        && in_range (if b0 =? 0xE0 then 0xA0 else 0x80)
                    (if b0 =? 0xED then 0x9F else 0xBF) b1
        && (Z.land b0 0x0F =? Z.shiftr t 6)
        && (Z.land b1 0x3F =? Z.land t 0x3F))) 0x400 eq_refl t ltac:(lia)) as H.
  cbv beta zeta in H.
  replace (t <? 0x20) with false in H by (symmetry; apply Z.ltb_ge; lia).
  replace (in_range 0x360 0x37F t) with false in H.
  2:{ symmetry. unfold in_range. apply andb_false_iff.
      destruct (Z.leb_spec 0x360 t); [right; apply Z.leb_gt; lia | now left]. }
  cbn [orb] in H.
  set (b0 := Z.lor 0xE0 (Z.shiftr t 6)) in *.
  set (b1 := Z.lor 0x80 (Z.land t 0x3F)) in *.
  repeat (apply andb_true_iff in H; let H' := fresh "H" in destruct H as [H H']).
  apply negb_true_iff in H, H4. apply Z.eqb_eq in H1, H0.
  split.
  - cbn [utf8_decode]. rewrite H, H4, H3, H2, C1. cbn [andb option_map].
    rewrite H1, H0, C2. do 2 f_equal.
    transitivity (Z.lor (Z.shiftl t 6) (Z.land c 0x3F)); [|exact Sc]. f_equal.
    transitivity (Z.shiftl (Z.lor (Z.shiftl (Z.shiftr t 6) 6) (Z.land t 0x3F)) 6);
      [|now rewrite St].
    rewrite Z.shiftl_lor, Z.shiftl_shiftl by lia. reflexivity.
  - unfold in_range in H3. apply andb_true_iff in H3. destruct H3 as [A B].
    apply Z.leb_le in A, B. unfold is_byte. lia.
Qed.

Lemma utf8_four_bytes (c : Z) :
  0x10000 <= c <= 0x10FFFF ->
  utf8_decode [Z.lor 0xF0 (Z.shiftr c 18);
               Z.lor 0x80 (Z.land (Z.shiftr c 12) 0x3F);
               Z.lor 0x80 (Z.land (Z.shiftr c 6) 0x3F);
               Z.lor 0x80 (Z.land c 0x3F)] = Some [c] /\
  is_byte (Z.lor 0xF0 (Z.shiftr c 18)).
Proof.
  intros Hc.
  assert (E18 : Z.shiftr c 18 = Z.shiftr (Z.shiftr c 12) 6)
    by (rewrite Z.shiftr_shiftr by lia; reflexivity).
  assert (E12 : Z.shiftr c 12 = Z.shiftr (Z.shiftr c 6) 6)
    by (rewrite Z.shiftr_shiftr by lia; reflexivity).
  pose proof (shiftr_range c 12 0x10 0x110 ltac:(lia) ltac:(lia)) as Ht.
  pose proof (split_bits c 6 ltac:(lia)) as Sc.
  pose proof (split_bits (Z.shiftr c 6) 6 ltac:(lia)) as Su.
  pose proof (split_bits (Z.shiftr c 12) 6 ltac:(lia)) as St.
  change (Z.ones 6) with 0x3F in Sc, Su, St.
  rewrite <- E12 in Su.
  destruct (cont_byte c) as [C1 [C2 _]].
  destruct (cont_byte (Z.shiftr c 6)) as [D1 [D2 _]].
  set (b3 := Z.lor 0x80 (Z.land c 0x3F)) in *.
  set (b2 := Z.lor 0x80 (Z.land (Z.shiftr c 6) 0x3F)) in *.
  rewrite E18. revert Ht St Su. generalize (Z.shiftr c 12) as t.
  intros t Ht St Su.
  pose proof (forallb_zrange
    (fun t =>
       (t <? 0x10) ||
       (let b0 := Z.lor 0xF0 (Z.shiftr t 6) in
        let b1 := Z.lor 0x80 (Z.land t 0x3F) in
        negb (in_range 0 0x7F b0) && negb (in_range 0xC2 0xDF b0)
        && negb (in_range 0xE0 0xEF b0) && in_range 0xF0 0xF4 b0
        && in_range (if b0 =? 0xF0 then 0x90 else 0x80)
                    (if b0 =? 0xF4 then 0x8F else 0xBF) b1
        && (Z.land b0 0x07 =? Z.shiftr t 6)
        && (Z.land b1 0x3F =? Z.land t 0x3F))) 0x110 eq_refl t ltac:(lia)) as H.
  cbv beta zeta in H.
  replace (t <? 0x10) with false in H by (symmetry; apply Z.ltb_ge; lia).
  cbn [orb] in H.
  set (b0 := Z.lor 0xF0 (Z.shiftr t 6)) in *.
  set (b1 := Z.lor 0x80 (Z.land t 0x3F)) in *.
  repeat (apply andb_true_iff in H; let H' := fresh "H" in destruct H as [H H']).
  apply negb_true_iff in H, H5, H4. apply Z.eqb_eq in H1, H0.
  split.
  - cbn [utf8_decode]. rewrite H, H5, H4, H3, H2, D1, C1. cbn [andb option_map].
    rewrite H1, H0, D2, C2. do 2 f_equal.
    transitivity (Z.lor (Z.shiftl (Z.shiftr c 6) 6) (Z.land c 0x3F)); [|exact Sc].
    f_equal.
    transitivity (Z.shiftl (Z.lor (Z.shiftl t 6) (Z.land (Z.shiftr c 6) 0x3F)) 6);
      [|now rewrite Su].
    rewrite Z.shiftl_lor, Z.shiftl_shiftl by lia. f_equal.
    transitivity (Z.shiftl (Z.lor (Z.shiftl (Z.shiftr t 6) 6) (Z.land t 0x3F)) (6 + 6));
      [|now rewrite St].
    rewrite Z.shiftl_lor, Z.shiftl_shiftl by lia. reflexivity.
  - unfold in_range in H3. apply andb_true_iff in H3. destruct H3 as [A B].
    apply Z.leb_le in A, B. unfold is_byte. lia.
Qed.

Lemma utf8_encode_char_ok (c : Z) (h : bytes) :
  code_point c -> utf8_encode_char c = Ok h ->
  utf8_decode h = Some [c] /\ Forall is_byte h /\ 1 <= len h <= 4.
Proof.
  unfold code_point, utf8_encode_char. intros Hc E.
  destruct (c <? 0x80) eqn:A; [apply Z.ltb_lt in A | apply Z.ltb_ge in A].
  { apply Ok_inj in E. subst h. cbn [utf8_decode]. unfold in_range.
    rewrite (proj2 (Z.leb_le 0 c)), (proj2 (Z.leb_le c 0x7F)) by lia.
    cbn [andb option_map]. split; [reflexivity|].
    split; [|unfold len; cbn [length]; lia].
    constructor; [unfold is_byte; lia | constructor]. }
  destruct (c <? 0x800) eqn:B; [apply Z.ltb_lt in B | apply Z.ltb_ge in B].
  { apply Ok_inj in E. subst h.
    destruct (utf8_two_bytes c ltac:(lia)) as [Hd Hb].
    destruct (cont_byte c) as [_ [_ Hb1]].
    split; [exact Hd|]. split; [|unfold len; cbn [length]; lia].
    repeat (constructor; [assumption|]). constructor. }
  destruct (c <? 0x10000) eqn:C; [apply Z.ltb_lt in C | apply Z.ltb_ge in C].
  { destruct (in_range 0xD800 0xDFFF c) eqn:S; [discriminate|].
    apply Ok_inj in E. subst h.
    assert (Hs : ~ surrogate c).
    { unfold surrogate. intros [S1 S2]. unfold in_range in S.
      rewrite (proj2 (Z.leb_le _ _) S1), (proj2 (Z.leb_le _ _) S2) in S.
      discriminate S. }
    destruct (utf8_three_bytes c ltac:(lia) Hs) as [Hd Hb].
    destruct (cont_byte c) as [_ [_ Hb2]].
    destruct (cont_byte (Z.shiftr c 6)) as [_ [_ Hb1]].
    split; [exact Hd|]. split; [|unfold len; cbn [length]; lia].
    repeat (constructor; [assumption|]). constructor. }
  apply Ok_inj in E. subst h.
  destruct (utf8_four_bytes c ltac:(lia)) as [Hd Hb].
  destruct (cont_byte c) as [_ [_ Hb3]].
  destruct (cont_byte (Z.shiftr c 6)) as [_ [_ Hb2]].
  destruct (cont_byte (Z.shiftr c 12)) as [_ [_ Hb1]].
  split; [exact Hd|]. split; [|unfold len; cbn [length]; lia].
  repeat (constructor; [assumption|]). constructor.
Qed.

Lemma utf8_encode_char_raise (c : Z) (e : exn) :
  utf8_encode_char c = Raise e -> e = UnicodeEncodeError /\ surrogate c.
Proof.
  unfold utf8_encode_char, surrogate, in_range.
  destruct (c <? 0x80); [discriminate|].
  destruct (c <? 0x800); [discriminate|].
  destruct (c <? 0x10000); [|discriminate].
  destruct ((0xD800 <=? c) && (c <=? 0xDFFF)) eqn:E; [|discriminate].
  apply andb_true_iff in E. destruct E as [A B]. apply Z.leb_le in A, B.
  intros H. injection H as <-. split; [reflexivity | lia].
Qed.

Lemma utf8_encode_ok (s : pystr) :
  Forall code_point s ->
  forall data, utf8_encode s = Ok data ->
    utf8_decode data = Some s /\ Forall is_byte data /\
    len s <= len data <= 4 * len s.
Proof.
  unfold len. induction 1 as [|c t Hc _ IH]; intros data E; cbn [utf8_encode] in E.
  - apply Ok_inj in E. subst data. cbn. repeat split; [constructor | lia | lia].
  - destruct (utf8_encode_char c) as [h|] eqn:Eh; [|discriminate].
    cbn [rbind] in E.
    destruct (utf8_encode t) as [r|] eqn:Er; [|discriminate].
    cbn [rbind] in E. apply Ok_inj in E. subst data.
    destruct (utf8_encode_char_ok c h Hc Eh) as [Hd [Hb Hl]].
    destruct (IH r eq_refl) as [Hd' [Hb' Hl']].
    rewrite (utf8_decode_app _ h [c] r (le_n _) Hd), Hd'.
    split; [reflexivity|]. split; [apply Forall_app; now split|].
    unfold len in Hl. rewrite length_app. cbn [length]. lia.
Qed.

Lemma utf8_encode_raise (s : pystr) (e : exn) :
  utf8_encode s = Raise e -> e = UnicodeEncodeError /\ Exists surrogate s.
Proof.
  induction s as [|c t IH]; cbn [utf8_encode]; [discriminate|].
  destruct (utf8_encode_char c) as [h|e'] eqn:Eh; cbn [rbind].
  - destruct (utf8_encode t) as [r|e'']; cbn [rbind]; [discriminate|].
    intros H. injection H as <-. destruct (IH eq_refl) as [-> Hx].
    split; [reflexivity | now apply Exists_cons_tl].
  - intros H. injection H as <-.
    destruct (utf8_encode_char_raise c e' Eh) as [-> Hs].
    split; [reflexivity | now apply Exists_cons_hd].
Qed.

Lemma zslice_app_mid {A : Type} (pre mid post : list A) :
  zslice (pre ++ mid ++ post) (len pre) (len pre + len mid) = mid.
Proof.
  unfold zslice, len. rewrite Nat2Z.id, skipn_app, skipn_all, Nat.sub_diag.
  cbn [app skipn].
  replace (Z.to_nat (Z.of_nat (length pre) + Z.of_nat (length mid)) - length pre)%nat
    with (length mid) by lia.
  rewrite firstn_app, firstn_all, Nat.sub_diag. cbn [firstn]. apply app_nil_r.
Qed.

Lemma znth_app_mid (pre post : bytes) (x : Z) :
  znth (pre ++ x :: post) (len pre) = x.
Proof.
  unfold znth, len. rewrite Nat2Z.id, app_nth2, Nat.sub_diag by lia. reflexivity.
Qed.

Lemma read_lp_string_at (pre data post : bytes) :
  len data <= 255 ->
  read_lp_string (pre ++ (len data :: data) ++ post) (len pre)
  = Ok (match utf8_decode data with
        | Some s => s
        | None => latin1_decode data
        end, len pre + 1 + len data).
Proof.
  intros Hl. unfold read_lp_string, read_u8.
  assert (Hbuf : len (pre ++ (len data :: data) ++ post)
                 = len pre + 1 + len data + len post).
  { unfold len. rewrite !length_app. cbn [length]. lia. }
  assert (Hp : 0 <= len post) by (unfold len; lia).
  assert (Hq : 0 <= len pre) by (unfold len; lia).
  assert (Hd : 0 <= len data) by (unfold len; lia).
  take_step; [lia|].
  rewrite znth_zslice_one by lia.
  cbn [app]. rewrite znth_app_mid.
  unfold _take. rewrite <- app_comm_cons in Hbuf. rewrite Hbuf.
  destruct (_ <? _) eqn:E2; [apply Z.ltb_lt in E2; lia|]. cbn [rbind].
  replace (pre ++ len data :: data ++ post)
    with ((pre ++ [len data]) ++ data ++ post)
    by (rewrite <- app_assoc; reflexivity).
  replace (len pre + 1) with (len (pre ++ [len data]))
    by (unfold len; rewrite length_app; cbn [length]; lia).
  rewrite zslice_app_mid.
  destruct (utf8_decode data); reflexivity.
Qed.

Lemma write_read_lp_string (s : pystr) (w pre post : bytes) :
  Forall code_point s -> write_lp_string s = Ok w ->
  Forall is_byte w /\ 1 + len s <= len w <= 256 /\ znth w 0 = len w - 1 /\
  read_lp_string (pre ++ w ++ post) (len pre) = Ok (s, len pre + len w).
Proof.
  intros Hs H. unfold write_lp_string in H.
  destruct (utf8_encode s) as [data|] eqn:E; [|discriminate]. cbn [rbind] in H.
  destruct (255 <? len data) eqn:E2; [discriminate|]. apply Z.ltb_ge in E2.
  apply Ok_inj in H. subst w.
  destruct (utf8_encode_ok s Hs data E) as [Hd [Hb Hl]].
  assert (Hw : len (len data :: data) = 1 + len data)
    by (unfold len; cbn [length]; lia).
  split; [|split; [|split]].
  - constructor; [unfold is_byte, len in *; lia | exact Hb].
  - lia.
  - rewrite Hw. change (znth (len data :: data) 0) with (len data). lia.
  - rewrite (read_lp_string_at pre data post E2), Hd, Hw. f_equal. f_equal. lia.
Qed.

(** X13: What [write_lp_string] accepts, [read_lp_string] reads back,
    wherever the string lies in the buffer: one byte of length and at
    most 255 bytes of UTF-8, then the offset of the next field. *)
Theorem lp_string_roundtrip (s : pystr) (w pre post : bytes) :
  Forall code_point s -> write_lp_string s = Ok w ->
  Forall is_byte w /\ 1 + len s <= len w <= 256 /\ znth w 0 = len w - 1 /\
  read_lp_string (pre ++ w ++ post) (len pre) = Ok (s, len pre + len w).
Proof. apply write_read_lp_string. Qed.

Lemma lp_string_roundtrip_witness :
  read_lp_string ([0x55; 0x00; 0; 0; 0; 7]
                  ++ [14; 83; 122; 105; 97; 33; 195; 169; 226; 130; 172;
                      240; 159; 154; 128]
                  ++ [1; 2; 3]) 6
  = Ok (sample_motd, 21).
Proof.
  apply (lp_string_roundtrip sample_motd
           [14; 83; 122; 105; 97; 33; 195; 169; 226; 130; 172; 240; 159; 154; 128]
           [0x55; 0x00; 0; 0; 0; 7] [1; 2; 3]).
  - unfold sample_motd.
    repeat first [apply Forall_nil | apply Forall_cons; [unfold code_point; lia|]].
  - reflexivity.
Defined.

(** X14: [write_lp_string] fails in two ways only: a surrogate in the string
    ([UnicodeEncodeError]) or more than 255 bytes of UTF-8
    ([ValueError]). *)
Theorem write_lp_string_failures (s : pystr) (e : exn) :
  write_lp_string s = Raise e ->
  (e = UnicodeEncodeError /\ Exists surrogate s) \/
  (e = ValueError "String too long for length-prefixed encoding" /\
   exists data, utf8_encode s = Ok data /\ 255 < len data).
Proof.
  unfold write_lp_string.
  destruct (utf8_encode s) as [data|e'] eqn:E; cbn [rbind].
  - destruct (255 <? len data) eqn:E2; [|discriminate].
    apply Z.ltb_lt in E2. intros H. injection H as <-.
    right. split; [reflexivity|]. now exists data.
  - intros H. injection H as <-. left. now apply utf8_encode_raise.
Qed.

Lemma write_lp_string_failures_witness :
  Exists surrogate [65; 0xD800].
Proof.
  destruct (write_lp_string_failures [65; 0xD800] UnicodeEncodeError eq_refl)
    as [[_ H] | [H _]]; [exact H | discriminate H].
Defined.

(** ** More on the telecommands *)

Lemma be_unsigned_be_bytes_2 (v : Z) :
  0 <= v <= 0xFFFF -> be_unsigned (be_bytes 2 v) = v.
Proof.
  intros Hv.
  change (be_bytes 2 v) with [Z.land (Z.shiftr v 8) 0xFF; Z.land (Z.shiftr v 0) 0xFF].
  unfold be_unsigned. cbn [fold_left].
  change 0xFF with (Z.ones 8). rewrite !Z.land_ones, !Z.shiftr_div_pow2 by lia.
  change (2 ^ 8) with 256. change (2 ^ 0) with 1. rewrite Z.div_1_r.
  Z.div_mod_to_equations. lia.
Qed.

Lemma be_unsigned_be_bytes_4 (v : Z) :
  0 <= v <= 0xFFFFFFFF -> be_unsigned (be_bytes 4 v) = v.
Proof.
  intros Hv.
  change (be_bytes 4 v)
    with [Z.land (Z.shiftr v 24) 0xFF; Z.land (Z.shiftr v 16) 0xFF;
          Z.land (Z.shiftr v 8) 0xFF; Z.land (Z.shiftr v 0) 0xFF].
  unfold be_unsigned. cbn [fold_left].
  change 0xFF with (Z.ones 8). rewrite !Z.land_ones, !Z.shiftr_div_pow2 by lia.
  change (2 ^ 8) with 256. change (2 ^ 0) with 1. rewrite Z.div_1_r.
  change (2 ^ 16) with 65536. change (2 ^ 24) with 16777216.
  Z.div_mod_to_equations. lia.
Qed.

Lemma build_telecommand_cases (hmac_digest : bytes -> bytes -> bytes)
    (ct sq : Z) (payload : bytes) :
  (0 <= ct <= 0xFFFF /\ 0 <= sq <= 0xFFFFFFFF /\
   build_telecommand hmac_digest ct sq payload
   = (Ok (body_of ct sq payload ++ hmac_digest HMAC_KEY (body_of ct sq payload)),
      [EvHmac HMAC_KEY (body_of ct sq payload)])) \/
  (~ 0 <= ct <= 0xFFFF /\
   build_telecommand hmac_digest ct sq payload
   = (Raise (ValueError "command_type must fit uint16"), [])) \/
  (0 <= ct <= 0xFFFF /\ ~ 0 <= sq <= 0xFFFFFFFF /\
   build_telecommand hmac_digest ct sq payload
   = (Raise (ValueError "sequence must fit uint32"), [])).
Proof.
  unfold build_telecommand.
  destruct ((0 <=? ct) && (ct <=? 0xFFFF)) eqn:E1; cbn [negb].
  - apply andb_true_iff in E1. destruct E1 as [A B]. apply Z.leb_le in A, B.
    destruct ((0 <=? sq) && (sq <=? 0xFFFFFFFF)) eqn:E2; cbn [negb].
    + apply andb_true_iff in E2. destruct E2 as [C D]. apply Z.leb_le in C, D.
      left. repeat split; lia.
    + right. right. split; [lia|]. split; [|reflexivity].
      apply andb_false_iff in E2. destruct E2 as [C | C]; apply Z.leb_gt in C; lia.
  - right. left. split; [|reflexivity].
    apply andb_false_iff in E1. destruct E1 as [C | C]; apply Z.leb_gt in C; lia.
Qed.

Section WithDigestLength.

Variable hmac_digest : bytes -> bytes -> bytes.
Hypothesis digest_length : forall key msg, length (hmac_digest key msg) = 32%nat.

Lemma build_telecommand_inv (ct sq : Z) (payload packet : bytes) :
  value (build_telecommand hmac_digest ct sq payload) = Ok packet ->
  0 <= ct <= 0xFFFF /\ 0 <= sq <= 0xFFFFFFFF /\
  packet = (be_bytes 2 ct ++ be_bytes 4 sq) ++ payload
           ++ hmac_digest HMAC_KEY (body_of ct sq payload).
Proof.
  intros H.
  destruct (build_telecommand_cases hmac_digest ct sq payload)
    as [[Hc [Hs E]] | [[_ E] | [_ [_ E]]]]; rewrite E in H; cbn [value fst] in H;
    try discriminate H.
  apply Ok_inj in H. subst packet. split; [exact Hc|]. split; [exact Hs|].
  unfold body_of. now rewrite <- !app_assoc.
Qed.

Lemma header_reads (ct sq : Z) (rest : bytes) :
  0 <= ct <= 0xFFFF -> 0 <= sq <= 0xFFFFFFFF ->
  read_u16be ((be_bytes 2 ct ++ be_bytes 4 sq) ++ rest) 0 = Ok (ct, 2) /\
  read_u32be ((be_bytes 2 ct ++ be_bytes 4 sq) ++ rest) 2 = Ok (sq, 6).
Proof.
  intros Hc Hs.
  assert (Hl : 6 <= len ((be_bytes 2 ct ++ be_bytes 4 sq) ++ rest)).
  { unfold len. rewrite !length_app.
    change (length (be_bytes 2 ct)) with 2%nat.
    change (length (be_bytes 4 sq)) with 4%nat. lia. }
  unfold read_u16be, read_u32be. split.
  - take_step; [lia|].
    change (zslice ((be_bytes 2 ct ++ be_bytes 4 sq) ++ rest) 0 (0 + 2))
      with (be_bytes 2 ct).
    now rewrite be_unsigned_be_bytes_2.
  - take_step; [lia|].
    change (zslice ((be_bytes 2 ct ++ be_bytes 4 sq) ++ rest) 2 (2 + 4))
      with (be_bytes 4 sq).
    now rewrite be_unsigned_be_bytes_4.
Qed.

(** X15: The wire layout of a telecommand: a packet that
    [build_telecommand] returns is six bytes of header, the payload and
    the 32 bytes of the digest of what comes before them; the command
    type and the sequence number are read back from offsets 0 and 2. *)
Theorem build_telecommand_layout (ct sq : Z) (payload packet : bytes) :
  value (build_telecommand hmac_digest ct sq payload) = Ok packet ->
  len packet = 6 + len payload + 32 /\
  read_u16be packet 0 = Ok (ct, 2) /\
  read_u32be packet 2 = Ok (sq, 6) /\
  zslice packet 6 (6 + len payload) = payload /\
  take_last 32 packet = hmac_digest HMAC_KEY (drop_last 32 packet).
Proof.
  intros H. destruct (build_telecommand_inv ct sq payload packet H) as [Hc [Hs E]].
  pose proof (digest_length HMAC_KEY (body_of ct sq payload)) as Hd.
  split; [|split; [|split; [|split]]].
  - subst packet. unfold len. rewrite !length_app, Hd.
    change (length (be_bytes 2 ct)) with 2%nat.
    change (length (be_bytes 4 sq)) with 4%nat. lia.
  - subst packet. now apply header_reads.
  - subst packet. now apply header_reads.
  - subst packet.
    change 6 with (len (be_bytes 2 ct ++ be_bytes 4 sq)). apply zslice_app_mid.
  - replace packet
      with (body_of ct sq payload ++ hmac_digest HMAC_KEY (body_of ct sq payload))
      by (subst packet; unfold body_of; now rewrite <- !app_assoc).
    now rewrite (take_last_app _ _ 32 Hd), (drop_last_app _ _ 32 Hd).
Qed.

Lemma check_built_build (ct sq : Z) (payload : bytes) :
  value (check_built hmac_digest (build_telecommand hmac_digest ct sq payload))
  = value (build_telecommand hmac_digest ct sq payload).
Proof.
  destruct (build_telecommand_cases hmac_digest ct sq payload)
    as [[Hc [Hs E]] | [[_ E] | [_ [_ E]]]]; rewrite E; try reflexivity.
  unfold check_built, lbind.
  rewrite verify_split; [| rewrite length_body_of; lia | apply digest_length].
  rewrite bytes_eqb_refl. reflexivity.
Qed.

(** X16: The check of the build commands never fires: with a digest of 32
    bytes, [cmd_build_motd] and [cmd_build_sstv] return what
    [build_set_motd] and [build_sstv] return, a packet or the error of
    the builder, and never the internal error. *)
Theorem cmd_build_check_passes (sq : Z) (motd : pystr) :
  value (cmd_build_motd hmac_digest sq motd)
  = value (build_set_motd hmac_digest sq motd) /\
  value (cmd_build_sstv hmac_digest sq) = value (build_sstv hmac_digest sq) /\
  (forall msg, value (cmd_build_motd hmac_digest sq motd) <> Raise (SystemExit msg)) /\
  (forall msg, value (cmd_build_sstv hmac_digest sq) <> Raise (SystemExit msg)).
Proof.
  assert (Hm : value (cmd_build_motd hmac_digest sq motd)
               = value (build_set_motd hmac_digest sq motd)).
  { unfold cmd_build_motd, build_set_motd.
    destruct (write_lp_string motd) as [payload|e]; [apply check_built_build|].
    reflexivity. }
  assert (Hv : value (cmd_build_sstv hmac_digest sq)
               = value (build_sstv hmac_digest sq))
    by apply check_built_build.
  split; [exact Hm|]. split; [exact Hv|]. split; intros msg.
  - rewrite Hm. unfold build_set_motd.
    destruct (write_lp_string motd) as [payload|e] eqn:Ew.
    + destruct (build_telecommand_cases hmac_digest 0x5500 sq payload)
        as [[_ [_ E]] | [[_ E] | [_ [_ E]]]]; rewrite E; discriminate.
    + unfold write_lp_string in Ew.
      destruct (utf8_encode motd) as [data|e'] eqn:Eu; cbn [rbind] in Ew.
      * destruct (255 <? len data); [|discriminate Ew].
        injection Ew as <-. discriminate.
      * injection Ew as <-. apply utf8_encode_raise in Eu.
        destruct Eu as [-> _]. discriminate.
  - rewrite Hv. unfold build_sstv.
    destruct (build_telecommand_cases hmac_digest 0x5533 sq [])
      as [[_ [_ E]] | [[_ E] | [_ [_ E]]]]; rewrite E; discriminate.
Qed.

(** X17: The Set-MotD telecommand carries its motd: command type 0x5500 and
    the sequence number in the header, then the motd as a
    length-prefixed string that [read_lp_string] reads back at offset 6,
    ending where the digest begins; the packet has at most 294 bytes.
    When the builder raises, it has computed no digest. *)
Theorem build_set_motd_carries_motd (sq : Z) (motd : pystr) :
  Forall code_point motd ->
  (forall packet,
     value (build_set_motd hmac_digest sq motd) = Ok packet ->
     read_u16be packet 0 = Ok (0x5500, 2) /\
     read_u32be packet 2 = Ok (sq, 6) /\
     read_lp_string packet 6 = Ok (motd, len packet - 32) /\
     len packet <= 294) /\
  (forall e,
     value (build_set_motd hmac_digest sq motd) = Raise e ->
     log (build_set_motd hmac_digest sq motd) = [] /\
     (e = UnicodeEncodeError \/
      e = ValueError "String too long for length-prefixed encoding" \/
      e = ValueError "sequence must fit uint32")).
Proof.
  intros Hm. unfold build_set_motd. split.
  - intros packet H.
    destruct (write_lp_string motd) as [w|e] eqn:Ew; [|discriminate H].
    destruct (build_telecommand_inv 0x5500 sq w packet H) as [Hc [Hs E]].
    pose proof (digest_length HMAC_KEY (body_of 0x5500 sq w)) as Hd.
    destruct (write_read_lp_string motd w (be_bytes 2 0x5500 ++ be_bytes 4 sq)
                (hmac_digest HMAC_KEY (body_of 0x5500 sq w)) Hm Ew)
      as [_ [Hl [_ Hr]]].
    assert (Hlen : len packet = 6 + len w + 32).
    { subst packet. unfold len. rewrite !length_app, Hd.
      change (length (be_bytes 2 0x5500)) with 2%nat.
      change (length (be_bytes 4 sq)) with 4%nat. lia. }
    split; [|split; [|split]].
    + subst packet. now apply header_reads.
    + subst packet. now apply header_reads.
    + rewrite Hlen. subst packet.
      change (len (be_bytes 2 0x5500 ++ be_bytes 4 sq)) with 6 in Hr.
      rewrite Hr. f_equal. f_equal. lia.
    + lia.
  - intros e H.
    destruct (write_lp_string motd) as [w|e'] eqn:Ew.
    + destruct (build_telecommand_cases hmac_digest 0x5500 sq w)
        as [[_ [_ E]] | [[Hc E] | [_ [_ E]]]]; rewrite E in H |- *;
        cbn [value fst] in H; try discriminate H.
      * exfalso. apply Hc. lia.
      * injection H as <-. split; [reflexivity | right; right; reflexivity].
    + cbn [value fst lret] in H. injection H as <-. split; [reflexivity|].
      unfold write_lp_string in Ew.
      destruct (utf8_encode motd) as [data|e''] eqn:Eu; cbn [rbind] in Ew.
      * destruct (255 <? len data); [|discriminate Ew].
        injection Ew as <-. right. left. reflexivity.
      * injection Ew as <-. apply utf8_encode_raise in Eu.
        destruct Eu as [-> _]. left. reflexivity.
Qed.

End WithDigestLength.

Lemma build_telecommand_layout_witness :
  exists packet,
    value (build_telecommand checksum_digest 0x5533 7 [1; 2]) = Ok packet /\
    len packet = 40 /\ read_u32be packet 2 = Ok (7, 6).
Proof.
  exists ([0x55; 0x33; 0; 0; 0; 7; 1; 2]
          ++ checksum_digest HMAC_KEY [0x55; 0x33; 0; 0; 0; 7; 1; 2]).
  split; [reflexivity|].
  destruct (build_telecommand_layout checksum_digest checksum_digest_length
              0x5533 7 [1; 2] _ eq_refl) as [H1 [_ [H3 _]]].
  split; [exact H1 | exact H3].
Defined.

Lemma cmd_build_check_passes_witness :
  value (cmd_build_sstv SHA256.hmac_sha256 7)
  = value (build_sstv SHA256.hmac_sha256 7).
Proof.
  apply (cmd_build_check_passes SHA256.hmac_sha256 hmac_sha256_length 7 []).
Defined.

Lemma build_set_motd_carries_motd_witness :
  exists packet,
    value (build_set_motd checksum_digest 7 sample_motd) = Ok packet /\
    read_lp_string packet 6 = Ok (sample_motd, len packet - 32).
Proof.
  eexists. split; [reflexivity|].
  apply (build_set_motd_carries_motd checksum_digest checksum_digest_length
           7 sample_motd); [|reflexivity].
  unfold sample_motd.
  repeat first [apply Forall_nil | apply Forall_cons; [unfold code_point; lia|]].
Defined.

(** ** Framing: from a frame to the bits and back *)

Lemma sorted_neighbours (l : list Z) (a b : Z) :
  StronglySorted Z.lt l -> In a l -> In b l -> a < b ->
  (forall c, In c l -> c <= a \/ b <= c) ->
  neighbours l a b.
Proof.
  intros Hs. induction Hs as [|x l Hs IH Hx]; intros Ha Hb Hab Hbet; [contradiction|].
  rewrite Forall_forall in Hx.
  destruct Ha as [-> | Ha].
  - destruct Hb as [-> | Hb]; [lia|].
    destruct l as [|y l']; [contradiction|].
    exists [], l'. cbn [app]. f_equal. f_equal.
    assert (Hay : a < y) by (apply Hx; now left).
    assert (Hy : y <= a \/ b <= y) by (apply Hbet; right; now left).
    inversion Hs as [|? ? _ Hgy]; subst. rewrite Forall_forall in Hgy.
    destruct Hb as [-> | Hb]; [reflexivity|].
    specialize (Hgy b Hb). lia.
  - destruct Hb as [-> | Hb]; [specialize (Hx a Ha); lia|].
    destruct IH as [pre [post E]]; [exact Ha | exact Hb | exact Hab | |].
    + intros c Hc. apply Hbet. now right.
    + exists (x :: pre), post. cbn [app]. now rewrite E.
Qed.

Lemma sorted_NoDup (l : list Z) : StronglySorted Z.lt l -> NoDup l.
Proof.
  induction 1 as [|x l Hs IH Hx]; constructor; [|exact IH].
  intros Hin. rewrite Forall_forall in Hx. specialize (Hx x Hin). lia.
Qed.

Lemma NoDup_combine {A B : Type} (l : list A) :
  NoDup l -> forall l' : list B, NoDup (combine l l').
Proof.
  induction 1 as [|x l Hx _ IH]; intros l'; [constructor|].
  destruct l' as [|y l']; [constructor|]. cbn [combine]. constructor; [|apply IH].
  intros Hin. apply in_combine_l in Hin. contradiction.
Qed.

Lemma filter_map_single {A B : Type} (f : A -> option B) (l : list A) (x : A) :
  NoDup l -> In x l -> (forall z, In z l -> z <> x -> f z = None) ->
  filter_map f l = match f x with Some y => [y] | None => [] end.
Proof.
  intros Hn. revert x. induction Hn as [|a l Ha _ IH]; intros x Hx Hz; [contradiction|].
  assert (Hnone : forall l0 : list A,
             (forall z, In z l0 -> f z = None) -> filter_map f l0 = []).
  { induction l0 as [|z l0 IH0]; intros H; [reflexivity|].
    cbn [filter_map]. rewrite (H z (or_introl eq_refl)). apply IH0.
    intros z' Hz'. apply H. now right. }
  cbn [filter_map]. destruct Hx as [-> | Hx].
  - rewrite (Hnone l).
    + now destruct (f x).
    + intros z Hzl. apply Hz; [now right|]. intros ->. contradiction.
  - rewrite (Hz a (or_introl eq_refl)) by (intros ->; contradiction).
    apply IH; [exact Hx|]. intros z Hzl. apply Hz. now right.
Qed.

Lemma all_ones (n : nat) :
  forall l : bits, length l = n -> (forall k, (k < n)%nat -> nth k l 0 = 1) ->
                   l = repeat 1 n.
Proof.
  induction n as [|n IH]; intros l Hl H.
  - destruct l; [reflexivity | discriminate].
  - destruct l as [|x l]; [discriminate|]. cbn [repeat]. f_equal.
    + apply (H 0%nat). lia.
    + apply IH; [cbn [length] in Hl; lia|].
      intros k Hk. apply (H (S k)). lia.
Qed.

Lemma six_ones_run (l : bits) (i : nat) :
  (i + 6 <= length l)%nat ->
  (forall k, (k < 6)%nat -> nth (i + k) l 0 = 1) -> has_run 6 l.
Proof.
  intros Hl H. exists (firstn i l), (skipn 6 (skipn i l)).
  rewrite <- (all_ones 6 (firstn 6 (skipn i l))).
  - now rewrite firstn_skipn, firstn_skipn.
  - rewrite length_firstn, length_skipn. lia.
  - intros k Hk. rewrite nth_firstn.
    replace (k <? 6)%nat with true by (symmetry; apply Nat.ltb_lt; lia).
    rewrite nth_skipn. now apply H.
Qed.

(** [n] flags, bit by bit. *)
Lemma flag_run_S (n : nat) :
  flag_run (Z.of_nat (S n)) = flag_bits ++ flag_run (Z.of_nat n).
Proof.
  unfold flag_run. rewrite !Nat2Z.id. reflexivity.
Qed.

Lemma length_flag_run (n : nat) : length (flag_run (Z.of_nat n)) = (8 * n)%nat.
Proof.
  induction n as [|n IH]; [reflexivity|].
  rewrite flag_run_S, length_app, IH. change (length flag_bits) with 8%nat. lia.
Qed.

Lemma nth_flag_run (n : nat) :
  forall i, (i < 8 * n)%nat ->
            nth i (flag_run (Z.of_nat n)) 0 = nth (i mod 8) flag_bits 0.
Proof.
  induction n as [|n IH]; intros i Hi; [lia|].
  rewrite flag_run_S.
  destruct (Nat.lt_ge_cases i 8) as [H | H].
  - rewrite app_nth1 by (change (length flag_bits) with 8%nat; lia).
    now rewrite Nat.mod_small.
  - rewrite app_nth2 by (change (length flag_bits) with 8%nat; lia).
    change (length flag_bits) with 8%nat. rewrite IH by lia. f_equal.
    replace i with ((i - 8) + 1 * 8)%nat at 2 by lia.
    now rewrite Nat.Div0.mod_add.
Qed.

Lemma flag_run_split (n i : nat) :
  (i < n)%nat ->
  flag_run (Z.of_nat n)
  = flag_run (Z.of_nat i) ++ flag_bits ++ flag_run (Z.of_nat (n - i - 1)).
Proof.
  revert n. induction i as [|i IH]; intros n Hi.
  - destruct n as [|n]; [lia|]. rewrite flag_run_S.
    replace (S n - 0 - 1)%nat with n by lia. reflexivity.
  - destruct n as [|n]; [lia|]. rewrite !flag_run_S, (IH n) by lia.
    replace (S n - S i - 1)%nat with (n - i - 1)%nat by lia.
    now rewrite <- app_assoc.
Qed.

Lemma run_in_flags (g : nat -> Z) (base n c : nat) :
  (forall i, (base <= i < base + 8 * n)%nat ->
             g i = nth ((i - base) mod 8) flag_bits 0) ->
  (base <= c + 1 < base + 8 * n)%nat ->
  (forall k, (1 <= k <= 6)%nat -> g (c + k)%nat = 1) ->
  (base <= c)%nat /\ ((c - base) mod 8 = 0)%nat.
Proof.
  intros Hg Hc H1.
  pose proof (Nat.div_mod_eq (c + 1 - base) 8) as E.
  pose proof (Nat.mod_upper_bound (c + 1 - base) 8 ltac:(lia)) as Hm.
  set (d := ((c + 1 - base) / 8)%nat) in *.
  set (m := ((c + 1 - base) mod 8)%nat) in *.
  pose proof (Hg (c + 1)%nat ltac:(lia)) as G1.
  rewrite (H1 1%nat ltac:(lia)) in G1. fold m in G1.
  assert (Hlast : forall k, (1 <= k <= 6)%nat -> (k + m = 8)%nat -> False).
  { intros k Hk Hkm.
    pose proof (Hg (c + k)%nat ltac:(lia)) as G.
    rewrite (H1 k Hk) in G.
    replace (c + k - base)%nat with (7 + d * 8)%nat in G by lia.
    rewrite Nat.Div0.mod_add in G. cbn in G. discriminate G. }
  destruct m as [|[|[|[|[|[|[|[|m]]]]]]]]; try (cbn in G1; discriminate G1);
    try lia.
  - split; [lia|]. replace (c - base)%nat with (0 + d * 8)%nat by lia.
    now rewrite Nat.Div0.mod_add.
  - exfalso. apply (Hlast 6%nat); lia.
  - exfalso. apply (Hlast 5%nat); lia.
  - exfalso. apply (Hlast 4%nat); lia.
  - exfalso. apply (Hlast 3%nat); lia.
  - exfalso. apply (Hlast 2%nat); lia.
Qed.

Section Stream.

Variables (p q : nat) (D : bits).
Hypothesis D_no_six : ~ has_run 6 D.

Lemma length_stream : length (framed p D q) = (8 * p + length D + 8 * q)%nat.
Proof. unfold framed. rewrite !length_app, !length_flag_run. lia. Qed.

Lemma nth_stream_pre (i : nat) :
  (i < 8 * p)%nat -> nth i (framed p D q) 0 = nth (i mod 8) flag_bits 0.
Proof.
  intros H. unfold framed. rewrite app_nth1 by (rewrite length_flag_run; lia).
  now apply nth_flag_run.
Qed.

Lemma nth_stream_mid (i : nat) :
  (8 * p <= i < 8 * p + length D)%nat -> nth i (framed p D q) 0 = nth (i - 8 * p) D 0.
Proof.
  intros H. unfold framed. rewrite app_nth2 by (rewrite length_flag_run; lia).
  rewrite length_flag_run. apply app_nth1. lia.
Qed.

Lemma nth_stream_post (i : nat) :
  (8 * p + length D <= i < 8 * p + length D + 8 * q)%nat ->
  nth i (framed p D q) 0 = nth ((i - (8 * p + length D)) mod 8) flag_bits 0.
Proof.
  intros H. unfold framed. rewrite app_nth2 by (rewrite length_flag_run; lia).
  rewrite length_flag_run. rewrite app_nth2 by lia.
  rewrite nth_flag_run by lia. f_equal. f_equal. lia.
Qed.

(** A flag pattern in the stream lies on one of the flags. *)
Lemma flag_at_aligned (c : nat) :
  (c + 8 <= length (framed p D q))%nat ->
  (forall k, (k < 8)%nat -> nth (c + k) (framed p D q) 0 = nth k flag_bits 0) ->
  ((c < 8 * p)%nat /\ (c mod 8 = 0)%nat) \/
  ((8 * p + length D <= c)%nat /\ ((c - (8 * p + length D)) mod 8 = 0)%nat).
Proof.
  intros Hlen Hf. rewrite length_stream in Hlen.
  assert (H1 : forall k, (1 <= k <= 6)%nat -> nth (c + k) (framed p D q) 0 = 1).
  { intros k Hk. rewrite Hf by lia.
    destruct k as [|[|[|[|[|[|[|k]]]]]]]; try lia; reflexivity. }
  destruct (Nat.lt_ge_cases (c + 1) (8 * p)) as [A | A].
  { left.
    destruct (run_in_flags (fun i => nth i (framed p D q) 0) 0 p c) as [_ Hm].
    - intros i Hi. rewrite Nat.sub_0_r. apply nth_stream_pre. lia.
    - lia.
    - exact H1.
    - rewrite Nat.sub_0_r in Hm. split; [lia | exact Hm]. }
  destruct (Nat.lt_ge_cases (c + 1) (8 * p + length D)) as [B | B].
  { exfalso.
    destruct (Nat.lt_ge_cases (c + 6) (8 * p + length D)) as [C | C].
    - apply D_no_six. apply (six_ones_run D (c + 1 - 8 * p)); [lia|].
      intros k Hk.
      replace (c + 1 - 8 * p + k)%nat with (c + (1 + k) - 8 * p)%nat by lia.
      rewrite <- nth_stream_mid by lia. apply H1. lia.
    - pose proof (nth_stream_post (8 * p + length D) ltac:(lia)) as G.
      rewrite Nat.sub_diag in G. cbn in G.
      replace (8 * p + length D)%nat
        with (c + (8 * p + length D - c))%nat in G at 1 by lia.
      rewrite H1 in G by lia. discriminate G. }
  right.
  apply (run_in_flags (fun i => nth i (framed p D q) 0) (8 * p + length D) q c).
  - intros i Hi. now apply nth_stream_post.
  - lia.
  - exact H1.
Qed.

End Stream.

Lemma zslice_flag_nth (s : bits) (c : Z) :
  0 <= c -> zslice s c (c + 8) = flag_bits ->
  forall k, (k < 8)%nat -> nth (Z.to_nat c + k) s 0 = nth k flag_bits 0.
Proof.
  intros Hc H k Hk. rewrite <- H. unfold zslice.
  replace (Z.to_nat (c + 8) - Z.to_nat c)%nat with 8%nat by lia.
  rewrite nth_firstn.
  replace (k <? 8)%nat with true by (symmetry; apply Nat.ltb_lt; lia).
  now rewrite nth_skipn.
Qed.

Lemma len_flag_run (n : nat) : len (flag_run (Z.of_nat n)) = 8 * Z.of_nat n.
Proof. unfold len. rewrite length_flag_run. lia. Qed.

Section Positions.

Variables (p q : nat) (D : bits).
Hypothesis D_no_six : ~ has_run 6 D.

Lemma len_stream : len (framed p D q) = 8 * Z.of_nat p + len D + 8 * Z.of_nat q.
Proof. unfold len, framed. rewrite !length_app, !length_flag_run. lia. Qed.

Lemma stream_flag_positions (c : Z) :
  In c (flag_positions (framed p D q)) <->
  (exists i, 0 <= i < Z.of_nat p /\ c = 8 * i) \/
  (exists j, 0 <= j < Z.of_nat q /\ c = 8 * Z.of_nat p + len D + 8 * j).
Proof.
  rewrite in_flag_positions. change [0; 1; 1; 1; 1; 1; 1; 0] with flag_bits. split.
  - intros [Hc [Hl Hz]].
    pose proof (zslice_flag_nth (framed p D q) c Hc Hz) as Hn.
    destruct (flag_at_aligned p q D D_no_six (Z.to_nat c)) as [[A B] | [A B]].
    + fold (framed p D q). unfold len in Hl. lia.
    + exact Hn.
    + left. exists (Z.of_nat (Z.to_nat c / 8)).
      pose proof (Nat.div_mod_eq (Z.to_nat c) 8). lia.
    + right. exists (Z.of_nat ((Z.to_nat c - (8 * p + length D)) / 8)).
      pose proof (Nat.div_mod_eq (Z.to_nat c - (8 * p + length D)) 8).
      rewrite len_stream in Hl. unfold len in *. lia.
  - intros [[i [Hi ->]] | [j [Hj ->]]].
    + split; [lia|]. split; [rewrite len_stream; unfold len; lia|].
      unfold framed.
      rewrite (flag_run_split p (Z.to_nat i)) by lia. rewrite <- !app_assoc.
      replace (8 * i) with (len (flag_run (Z.of_nat (Z.to_nat i))))
        by (rewrite len_flag_run; lia).
      change 8 with (len flag_bits). apply zslice_app_mid.
    + split; [unfold len; lia|]. split; [rewrite len_stream; lia|].
      unfold framed.
      rewrite (flag_run_split q (Z.to_nat j)) by lia.
      replace (flag_run (Z.of_nat p) ++ D ++ flag_run (Z.of_nat (Z.to_nat j))
               ++ flag_bits ++ flag_run (Z.of_nat (q - Z.to_nat j - 1)))
        with ((flag_run (Z.of_nat p) ++ D ++ flag_run (Z.of_nat (Z.to_nat j)))
              ++ flag_bits ++ flag_run (Z.of_nat (q - Z.to_nat j - 1)))
        by (now rewrite <- !app_assoc).
      replace (8 * Z.of_nat p + len D + 8 * j)
        with (len (flag_run (Z.of_nat p) ++ D ++ flag_run (Z.of_nat (Z.to_nat j)))).
      * change 8 with (len flag_bits). apply zslice_app_mid.
      * unfold len. rewrite !length_app, !length_flag_run. lia.
Qed.

Lemma stream_payload :
  zslice (framed p D q) (8 * (Z.of_nat p - 1) + 8) (8 * Z.of_nat p + len D) = D.
Proof.
  unfold framed.
  replace (8 * (Z.of_nat p - 1) + 8) with (len (flag_run (Z.of_nat p)))
    by (rewrite len_flag_run; lia).
  replace (8 * Z.of_nat p) with (len (flag_run (Z.of_nat p)))
    by (rewrite len_flag_run; lia).
  apply zslice_app_mid.
Qed.

Hypothesis p_pos : (1 <= p)%nat.
Hypothesis q_pos : (1 <= q)%nat.

(** Only the bits between the last opening flag and the first closing
    flag can give a frame. *)
Lemma extract_stream :
  _extract_hdlc_frames (framed p D q)
  = match frame_candidate (framed p D q)
            (8 * (Z.of_nat p - 1), 8 * Z.of_nat p + len D) with
    | Some f => [f]
    | None => []
    end.
Proof.
  unfold _extract_hdlc_frames.
  pose proof (flag_positions_sorted (framed p D q)) as Hs.
  assert (HD : 0 <= len D) by (unfold len; lia).
  apply filter_map_single.
  - apply NoDup_combine, sorted_NoDup, Hs.
  - apply in_combine_tl. apply sorted_neighbours; [exact Hs | | | lia |].
    + apply stream_flag_positions. left. exists (Z.of_nat p - 1). lia.
    + apply stream_flag_positions. right. exists 0. lia.
    + intros c Hc. apply stream_flag_positions in Hc.
      destruct Hc as [[i [Hi ->]] | [j [Hj ->]]]; lia.
  - intros [x y] Hin Hne. apply in_combine_tl in Hin.
    destruct (neighbours_sorted _ _ _ Hs Hin) as [Hxy Hbet].
    destruct (neighbours_in _ _ _ Hin) as [Hx Hy].
    apply stream_flag_positions in Hx, Hy.
    assert (Hnext : y = x + 8 -> frame_candidate (framed p D q) (x, y) = None).
    { intros ->. unfold frame_candidate. now rewrite Z.leb_refl. }
    destruct Hx as [[i [Hi ->]] | [j [Hj ->]]];
      destruct Hy as [[i' [Hi' ->]] | [j' [Hj' ->]]].
    + apply Hnext.
      destruct (Hbet (8 * (i + 1))); [|lia|lia].
      apply stream_flag_positions. left. exists (i + 1). lia.
    + exfalso. apply Hne.
      assert (i = Z.of_nat p - 1).
      { destruct (Z.eq_dec i (Z.of_nat p - 1)) as [E | E]; [exact E|].
        destruct (Hbet (8 * (i + 1))); [|lia|lia].
        apply stream_flag_positions. left. exists (i + 1). lia. }
      assert (j' = 0).
      { destruct (Z.eq_dec j' 0) as [E | E]; [exact E|].
        destruct (Hbet (8 * Z.of_nat p + len D + 8 * 0)); [|lia|lia].
        apply stream_flag_positions. right. exists 0. lia. }
      subst. f_equal. lia.
    + lia.
    + apply Hnext.
      destruct (Hbet (8 * Z.of_nat p + len D + 8 * (j + 1))); [|lia|lia].
      apply stream_flag_positions. right. exists (j + 1). lia.
Qed.

End Positions.

Lemma fcs_recombine (c : Z) :
  0 <= c < 65536 ->
  Z.lor (Z.land c 0xFF) (Z.shiftl (Z.land (Z.shiftr c 8) 0xFF) 8) = c.
Proof.
  intros Hc.
  assert (E : Z.land (Z.shiftr c 8) 0xFF = Z.shiftr c 8).
  { change 0xFF with (Z.ones 8). rewrite Z.land_ones by lia.
    apply Z.mod_small. change (2 ^ 8) with 256.
    apply (shiftr_range c 8 0 256); lia. }
  rewrite E, Z.lor_comm. apply (split_bits c 8). lia.
Qed.

Lemma crc16_x25_range (data : bytes) : 0 <= crc16_x25 data < 65536.
Proof.
  unfold crc16_x25. change 0xFFFF with (Z.ones 16). rewrite Z.land_ones by lia.
  apply Z.mod_pos_bound. reflexivity.
Qed.

Lemma frame_with_fcs_bytes (frame : bytes) :
  Forall is_byte frame -> Forall is_byte (frame_with_fcs frame).
Proof.
  intros H. unfold frame_with_fcs. apply Forall_app. split; [exact H|].
  assert (Hb : forall x, is_byte (Z.land x 0xFF)).
  { intros x. unfold is_byte. change 0xFF with (Z.ones 8).
    rewrite Z.land_ones by lia. apply Z.mod_pos_bound. reflexivity. }
  repeat constructor; apply Hb.
Qed.

Lemma unstuff_stuffed_frame (frame : bytes) :
  Forall is_byte frame ->
  bits_to_bytes_lsb_first (bitunstuff (stuffed_frame frame)) = frame_with_fcs frame.
Proof.
  intros H. unfold stuffed_frame.
  rewrite bitunstuff_bitstuff, map_land1_bits by apply bytes_to_bits_are_bits.
  rewrite <- (app_nil_r (bytes_to_bits_lsb_first _)).
  apply bits_to_bytes_of_bytes; [now apply frame_with_fcs_bytes | cbn; lia].
Qed.

Lemma len_stuffed_frame (frame : bytes) :
  8 * (len frame + 2) <= len (stuffed_frame frame).
Proof.
  unfold stuffed_frame.
  destruct (length_bitstuff_go (bytes_to_bits_lsb_first (frame_with_fcs frame)) 0
              ltac:(lia)) as [H _].
  fold (bitstuff (bytes_to_bits_lsb_first (frame_with_fcs frame))) in H.
  pose proof (len_bytes_to_bits (frame_with_fcs frame)) as Hl.
  unfold frame_with_fcs, len in *. rewrite length_app in Hl. cbn [length] in Hl. lia.
Qed.

Lemma extract_hdlc_bits (frame : bytes) (pre post : Z) :
  Forall is_byte frame -> 1 <= pre -> 1 <= post ->
  _extract_hdlc_frames (hdlc_bits frame pre post)
  = if len (stuffed_frame frame) <? 8 * (7 + 7 + 2 + 2) then [] else [frame].
Proof.
  intros Hf Hp Hq. unfold hdlc_bits.
  rewrite <- (Z2Nat.id pre), <- (Z2Nat.id post) by lia.
  set (D := stuffed_frame frame).
  fold (framed (Z.to_nat pre) D (Z.to_nat post)).
  assert (Hno : ~ has_run 6 D) by apply bitstuff_no_six.
  rewrite (extract_stream (Z.to_nat pre) (Z.to_nat post) D Hno) by lia.
  pose proof (stream_payload (Z.to_nat pre) (Z.to_nat post) D) as Hpay.
  set (stream := framed (Z.to_nat pre) D (Z.to_nat post)) in *.
  set (a := 8 * (Z.of_nat (Z.to_nat pre) - 1)) in *.
  set (b := 8 * Z.of_nat (Z.to_nat pre) + len D) in *.
  destruct (len D <? 8 * (7 + 7 + 2 + 2)) eqn:E.
  - unfold frame_candidate. destruct (b <=? a + 8); [reflexivity|].
    rewrite Hpay, E. reflexivity.
  - apply Z.ltb_ge in E.
    assert (Hc : candidate_bytes stream a b = frame_with_fcs frame).
    { unfold candidate_bytes. rewrite Hpay. now apply unstuff_stuffed_frame. }
    rewrite (proj2 (frame_candidate_some stream a b frame)); [reflexivity|].
    split; [now rewrite Hpay|]. rewrite Hc. unfold frame_with_fcs. split.
    + symmetry. now apply drop_last_app.
    + unfold fcs_of. rewrite take_last_app by reflexivity.
      change (znth [?x; ?y] 0) with x. change (znth [?x; ?y] 1) with y.
      symmetry. apply fcs_recombine, crc16_x25_range.
Qed.

(** X18: Framing and deframing: from the bits that the modulator builds
    for a frame of 16 bytes or more (opening flags, stuffed frame and
    check sequence, closing flags) [_extract_hdlc_frames] gives that
    frame and nothing else; a frame whose stuffed bits are fewer than
    144 is dropped. *)
Theorem hdlc_frame_roundtrip (frame : bytes) (pre post : Z) :
  Forall is_byte frame -> 1 <= pre -> 1 <= post ->
  (16 <= len frame -> _extract_hdlc_frames (hdlc_bits frame pre post) = [frame]) /\
  (len (stuffed_frame frame) < 144 ->
   _extract_hdlc_frames (hdlc_bits frame pre post) = []).
Proof.
  intros Hf Hp Hq. rewrite (extract_hdlc_bits frame pre post Hf Hp Hq).
  pose proof (len_stuffed_frame frame) as Hl.
  change (8 * (7 + 7 + 2 + 2)) with 144. split; intros H.
  - destruct (Z.ltb_spec (len (stuffed_frame frame)) 144); [lia | reflexivity].
  - destruct (Z.ltb_spec (len (stuffed_frame frame)) 144); [reflexivity | lia].
Qed.

Lemma hdlc_frame_roundtrip_witness :
  _extract_hdlc_frames (hdlc_bits sample_raw 2 1) = [sample_raw].
Proof.
  apply (hdlc_frame_roundtrip sample_raw 2 1).
  - unfold sample_raw. bytes_ok.
  - lia.
  - lia.
  - unfold sample_raw, len. cbn [length]. lia.
Defined.

(** ** The choice of the demodulator *)

Lemma len_nil_iff {A : Type} (l : list A) : len l = 0 <-> l = [].
Proof.
  unfold len. split; [|now intros ->]. destruct l; [reflexivity | cbn; lia].
Qed.

Lemma keep_best_covers (best : option DemodResult) (c : DemodResult) :
  covers (keep_best best c) (len (frames c)).
Proof.
  unfold covers, keep_best. destruct (frames c) as [|f fs] eqn:E; [now left|].
  right. destruct best as [b|].
  - destruct (Z.ltb_spec (len (frames b)) (len (f :: fs))).
    + exists c. rewrite E. split; [reflexivity | lia].
    + exists b. split; [reflexivity | lia].
  - exists c. rewrite E. split; [reflexivity | lia].
Qed.

Lemma keep_best_mono (best : option DemodResult) (c : DemodResult) (n : Z) :
  covers best n -> covers (keep_best best c) n.
Proof.
  intros [-> | [b [-> Hb]]]; [now left|]. right. unfold keep_best.
  destruct (frames c) as [|f fs] eqn:E; [now exists b|].
  destruct (Z.ltb_spec (len (frames b)) (len (f :: fs))).
  - exists c. rewrite E. split; [reflexivity | lia].
  - now exists b.
Qed.

Lemma keep_best_covered (best : option DemodResult) (c : DemodResult) :
  covers best (len (frames c)) -> keep_best best c = best.
Proof.
  unfold keep_best. intros [H | [b [-> Hb]]].
  - apply len_nil_iff in H. now rewrite H.
  - destruct (frames c) as [|f fs]; [reflexivity|].
    destruct (Z.ltb_spec (len (frames b)) (len (f :: fs))); [lia | reflexivity].
Qed.

Lemma keep_best_choice (best : option DemodResult) (c : DemodResult) :
  keep_best best c = best \/ (keep_best best c = Some c /\ frames c <> []).
Proof.
  unfold keep_best. destruct (frames c) as [|f fs] eqn:E; [now left|].
  destruct best as [b|].
  - destruct (len (frames b) <? len (f :: fs)); [right | now left].
    split; [reflexivity | discriminate].
  - right. split; [reflexivity | discriminate].
Qed.

Lemma keep_best_cases (best : option DemodResult) (c : DemodResult) :
  (keep_best best c = best /\ covers best (len (frames c))) \/
  (keep_best best c = Some c /\ frames c <> [] /\
   forall b0, best = Some b0 -> len (frames b0) < len (frames c)).
Proof.
  unfold keep_best, covers. destruct (frames c) as [|f fs] eqn:E.
  - left. split; [reflexivity | now left].
  - destruct best as [b|].
    + destruct (Z.ltb_spec (len (frames b)) (len (f :: fs))).
      * right. split; [reflexivity|]. split; [discriminate|].
        intros b0 Hb0. injection Hb0 as <-. lia.
      * left. split; [reflexivity|]. right. now exists b.
    + right. split; [reflexivity|]. split; [discriminate|]. intros b0 Hb0.
      discriminate Hb0.
Qed.

(** The result of the loop is the first candidate with the most
    frames. *)
Lemma fold_keep_best_first (l : list DemodResult) :
  forall best b,
    fold_left keep_best l best = Some b ->
    (best = Some b /\ forall c, In c l -> len (frames c) <= len (frames b)) \/
    (exists l1 l2,
        l = l1 ++ b :: l2 /\ frames b <> [] /\
        (forall c, In c l1 -> len (frames c) < len (frames b)) /\
        (forall c, In c l2 -> len (frames c) <= len (frames b)) /\
        (forall b0, best = Some b0 -> len (frames b0) < len (frames b))).
Proof.
  induction l as [|c l IH]; intros best b H; cbn [fold_left] in H.
  - left. split; [exact H | intros c []].
  - assert (Hpos : forall x : DemodResult, 0 <= len (frames x))
      by (intros x; unfold len; lia).
    assert (Hne : forall x : DemodResult, frames x <> [] -> 0 < len (frames x)).
    { intros x Hx. destruct (frames x); [contradiction | unfold len; cbn; lia]. }
    destruct (IH _ _ H) as [[Hb Hall] | [l1 [l2 [-> [Hb [H1 [H2 H0]]]]]]].
    + destruct (keep_best_cases best c) as [[E Hcov] | [E [Hc Hlt]]].
      * left. rewrite E in Hb. split; [exact Hb|].
        intros x [<- | Hx]; [|now apply Hall].
        destruct Hcov as [Hz | [b' [Eb Hle]]]; [specialize (Hpos b); lia|].
        rewrite Hb in Eb. injection Eb as <-. exact Hle.
      * rewrite E in Hb. injection Hb as <-. right. exists [], l.
        split; [reflexivity|]. split; [exact Hc|].
        split; [intros x []|]. split; [exact Hall | exact Hlt].
    + right. exists (c :: l1), l2. split; [reflexivity|]. split; [exact Hb|].
      split; [|split; [exact H2|]].
      * intros x [<- | Hx]; [|now apply H1].
        pose proof (keep_best_covers best c) as [Hz | [b' [Eb Hle]]].
        -- specialize (Hne b Hb). lia.
        -- specialize (H0 b' Eb). lia.
      * intros b0 ->.
        pose proof (keep_best_mono (Some b0) c (len (frames b0))) as Hm.
        destruct Hm as [Hz | [b' [Eb Hle]]].
        -- right. exists b0. split; [reflexivity | lia].
        -- specialize (Hne b Hb). lia.
        -- specialize (H0 b' Eb). lia.
Qed.

Lemma fold_keep_best_covers (l : list DemodResult) (c : DemodResult) :
  In c l -> forall best, covers (fold_left keep_best l best) (len (frames c)).
Proof.
  induction l as [|x l IH]; intros [] best; cbn [fold_left].
  - subst x. clear IH. generalize (keep_best_covers best c).
    generalize (keep_best best c). induction l as [|y l IHl]; intros o Ho;
      [exact Ho|].
    cbn [fold_left]. apply IHl. now apply keep_best_mono.
  - now apply IH.
Qed.

Lemma fold_left_flat_map {A B C : Type} (f : A -> B -> A) (g : C -> list B)
    (l : list C) :
  forall a, fold_left f (flat_map g l) a
            = fold_left (fun a x => fold_left f (g x) a) l a.
Proof.
  induction l as [|x l IH]; intros a; [reflexivity|].
  cbn [flat_map fold_left]. now rewrite fold_left_app, IH.
Qed.

Lemma nrzi_decode_inverted (levels : list Z) :
  nrzi_decode (map (fun l => Z.lxor l 1) levels) = nrzi_decode levels.
Proof.
  destruct levels as [|first rest]; [reflexivity|].
  cbn [map nrzi_decode]. apply (nrzi_decode_go_invert rest first).
Qed.

Lemma map_lxor_0 (levels : list Z) : map (fun l => Z.lxor l 0) levels = levels.
Proof.
  rewrite (map_ext _ (fun l => l)) by (intros; apply Z.lxor_0_r). apply map_id.
Qed.

(** The candidates of one phase: the two variants on the levels, then
    the same two on the inverted levels, which give the same frames. *)
Lemma demod_candidates_phase (samples : list Z) (spb_i : Z) :
  demod_candidates samples spb_i
  = flat_map (fun phase =>
      let bits_nrzi :=
        nrzi_decode (levels_go (S (length samples)) samples spb_i phase) in
      let fr v := _extract_hdlc_frames (g3ruh_descramble bits_nrzi v) in
      [mkDemodResult (fr 0) phase false 0; mkDemodResult (fr 1) phase false 1;
       mkDemodResult (fr 0) phase true 0; mkDemodResult (fr 1) phase true 1])
      (zrange spb_i).
Proof.
  unfold demod_candidates. apply flat_map_ext. intros phase.
  cbn [flat_map map app]. now rewrite nrzi_decode_inverted, map_lxor_0.
Qed.

Lemma fold_candidates_not_inverted (samples : list Z) (spb_i : Z) :
  not_inverted (fold_left keep_best (demod_candidates samples spb_i) None).
Proof.
  rewrite demod_candidates_phase, fold_left_flat_map.
  assert (H : forall l best,
             not_inverted best ->
             not_inverted
               (fold_left
                  (fun a phase =>
                     fold_left keep_best
                       (let bits_nrzi :=
                          nrzi_decode
                            (levels_go (S (length samples)) samples spb_i phase) in
                        let fr v :=
                          _extract_hdlc_frames (g3ruh_descramble bits_nrzi v) in
                        [mkDemodResult (fr 0) phase false 0;
                         mkDemodResult (fr 1) phase false 1;
                         mkDemodResult (fr 0) phase true 0;
                         mkDemodResult (fr 1) phase true 1]) a) l best)).
  { induction l as [|phase l IH]; intros best Hb; [exact Hb|].
    cbn [fold_left]. apply IH. cbv zeta.
    set (bits_nrzi := nrzi_decode _).
    set (c00 := mkDemodResult _ phase false 0).
    set (c01 := mkDemodResult _ phase false 1).
    set (c10 := mkDemodResult _ phase true 0).
    set (c11 := mkDemodResult _ phase true 1).
    rewrite (keep_best_covered _ c10).
    2:{ apply keep_best_mono. apply (keep_best_covers best c00). }
    rewrite (keep_best_covered _ c11).
    2:{ apply (keep_best_covers _ c01). }
    intros b E.
    destruct (keep_best_choice (keep_best best c00) c01) as [E1 | [E1 _]];
      rewrite E1 in E.
    - destruct (keep_best_choice best c00) as [E0 | [E0 _]]; rewrite E0 in E.
      + now apply Hb.
      + injection E as <-. reflexivity.
    - injection E as <-. reflexivity. }
  apply H. intros b E. discriminate E.
Qed.

(** X19: What [demod_wav_to_ax25_frames] returns: the first candidate, in
    the order of the loops, among those with the most frames, or the
    empty result when no candidate has a frame.  It is never a
    candidate on the inverted levels, which give the frames of the
    levels as they are. *)
Theorem demod_picks_first_best (w : wav) (baud : Z) (r : DemodResult) :
  demod_wav_to_ax25_frames w baud = Ok r ->
  exists samples,
    unpack_i16le (pcm_frames w) = Ok samples /\
    let cands := demod_candidates samples (round_div (framerate w) baud) in
    inverted r = false /\
    (forall c, In c cands -> len (frames c) <= len (frames r)) /\
    (frames r = [] -> r = mkDemodResult [] 0 false 0) /\
    (frames r <> [] ->
     exists l1 l2,
       cands = l1 ++ r :: l2 /\
       forall c, In c l1 -> len (frames c) < len (frames r)).
Proof.
  unfold demod_wav_to_ax25_frames.
  destruct (negb (sampwidth w =? 2)); [discriminate|].
  destruct (negb (nchannels w =? 1)); [discriminate|].
  destruct (baud =? 0); [discriminate|].
  destruct (_ <? _); [discriminate|].
  destruct (unpack_i16le (pcm_frames w)) as [samples|]; [|discriminate].
  cbn [rbind]. intros H. apply Ok_inj in H. exists samples.
  split; [reflexivity|]. cbv zeta.
  set (cands := demod_candidates samples (round_div (framerate w) baud)) in *.
  pose proof (fold_candidates_not_inverted samples (round_div (framerate w) baud))
    as Hinv. fold cands in Hinv.
  destruct (fold_left keep_best cands None) as [b|] eqn:E.
  - subst r. destruct (fold_keep_best_first cands None b E)
      as [[Hb _] | [l1 [l2 [El [Hne [H1 [H2 _]]]]]]]; [discriminate|].
    split; [now apply Hinv|]. split; [|split].
    + intros c Hc. rewrite El in Hc. apply in_app_or in Hc.
      destruct Hc as [Hc | [<- | Hc]]; [specialize (H1 c Hc); lia | lia | now apply H2].
    + intros Hn. contradiction.
    + intros _. now exists l1, l2.
  - subst r. cbn [inverted frames]. split; [reflexivity|]. split; [|split].
    + intros c Hc.
      pose proof (fold_keep_best_covers cands c Hc None) as Hcov.
      rewrite E in Hcov. destruct Hcov as [-> | [b [Hb _]]]; [unfold len; cbn; lia|].
      discriminate Hb.
    + reflexivity.
    + intros Hn. now contradiction Hn.
Qed.

Lemma demod_picks_first_best_witness :
  exists samples,
    unpack_i16le [] = Ok samples /\
    forall c, In c (demod_candidates samples 5) -> len (frames c) <= 0.
Proof.
  destruct (demod_picks_first_best (mkWav 1 2 48000 []) 9600
              (mkDemodResult [] 0 false 0) eq_refl)
    as [samples [Hu [_ [Hmax _]]]].
  exists samples. split; [exact Hu | exact Hmax].
Defined.

(** ** From the modulator to the demodulator *)

Lemma lor_bytes_16 (v : Z) :
  Z.lor (Z.land v 0xFF) (Z.shiftl (Z.land (Z.shiftr v 8) 0xFF) 8) = Z.land v 0xFFFF.
Proof.
  change 0xFF with (Z.ones 8). change 0xFFFF with (Z.ones 16).
  apply Z.bits_inj'. intros i Hi.
  rewrite Z.lor_spec, !Z.land_spec, !Z.testbit_ones_nonneg by lia.
  destruct (Z.lt_ge_cases i 8) as [H | H].
  - rewrite Z.shiftl_spec_low by lia.
    replace (i <? 8) with true by (symmetry; apply Z.ltb_lt; lia).
    replace (i <? 16) with true by (symmetry; apply Z.ltb_lt; lia).
    apply orb_false_r.
  - rewrite Z.shiftl_spec, Z.land_spec, Z.shiftr_spec by lia.
    rewrite Z.testbit_ones_nonneg by lia.
    replace (i - 8 + 8) with i by lia.
    replace (i <? 8) with false by (symmetry; apply Z.ltb_ge; lia).
    rewrite andb_false_r. cbn [orb]. f_equal.
    destruct (Z.ltb_spec (i - 8) 8), (Z.ltb_spec i 16); reflexivity || lia.
Qed.

Lemma unpack_i16le_cons (v : Z) (rest : bytes) :
  -32768 <= v <= 32767 ->
  unpack_i16le (i16le v ++ rest)
  = match unpack_i16le rest with
    | Ok t => Ok (v :: t)
    | Raise e => Raise e
    end.
Proof.
  intros Hv. unfold i16le. cbn [app unpack_i16le]. rewrite lor_bytes_16.
  change 0xFFFF with (Z.ones 16). rewrite Z.land_ones by lia.
  change (2 ^ 16) with 65536.
  destruct (unpack_i16le rest) as [t|e]; [|reflexivity]. f_equal. f_equal.
  destruct (Z.lt_ge_cases v 0) as [H | H].
  - rewrite <- (Z_mod_plus_full v 1 65536). rewrite Z.mod_small by lia.
    destruct (Z.ltb_spec (v + 1 * 65536) 32768); lia.
  - rewrite Z.mod_small by lia. destruct (Z.ltb_spec v 32768); lia.
Qed.

Lemma unpack_i16le_repeat (v : Z) (n : nat) (rest : bytes) :
  -32768 <= v <= 32767 ->
  unpack_i16le (concat (repeat (i16le v) n) ++ rest)
  = match unpack_i16le rest with
    | Ok t => Ok (repeat v n ++ t)
    | Raise e => Raise e
    end.
Proof.
  intros Hv. induction n as [|n IH]; cbn [repeat concat app].
  - now destruct (unpack_i16le rest).
  - rewrite <- app_assoc, unpack_i16le_cons, IH by exact Hv.
    now destruct (unpack_i16le rest).
Qed.

Lemma level_sample_range (amplitude lvl : Z) :
  -32767 <= amplitude <= 32767 ->
  -32768 <= level_sample amplitude lvl <= 32767.
Proof. intros H. unfold level_sample. destruct (truthy lvl); lia. Qed.

Lemma unpack_i16le_line (amplitude : Z) (n : nat) (levels : list Z) :
  -32767 <= amplitude <= 32767 ->
  unpack_i16le
    (flat_map (fun lvl => concat (repeat (i16le (level_sample amplitude lvl)) n))
              levels)
  = Ok (flat_map (fun lvl => repeat (level_sample amplitude lvl) n) levels).
Proof.
  intros Ha. induction levels as [|l levels IH]; [reflexivity|].
  cbn [flat_map]. rewrite unpack_i16le_repeat by now apply level_sample_range.
  now rewrite IH.
Qed.

Lemma pack_i16le_ok (v : Z) :
  -32768 <= v <= 32767 -> pack_i16le v = Ok (i16le v).
Proof.
  intros H. unfold pack_i16le.
  rewrite (proj2 (Z.leb_le _ _) (proj1 H)), (proj2 (Z.leb_le _ _) (proj2 H)).
  reflexivity.
Qed.

Lemma write_level (val : Z) (l : list Z) :
  -32768 <= val <= 32767 ->
  forall pcm0,
    fold_left (fun (acc : result bytes) (_ : Z) =>
                 (pcm <- acc ;; s <- pack_i16le val ;; Ok (pcm ++ s))%result)
              l (Ok pcm0)
    = Ok (pcm0 ++ concat (repeat (i16le val) (length l))).
Proof.
  intros Hv.
  set (f := fun (acc : result bytes) (_ : Z) =>
              (pcm <- acc ;; s <- pack_i16le val ;; Ok (pcm ++ s))%result).
  induction l as [|x l IH]; intros pcm0; cbn [fold_left length repeat concat].
  - now rewrite app_nil_r.
  - assert (E : f (Ok pcm0) x = Ok (pcm0 ++ i16le val))
      by (unfold f; cbn [rbind]; now rewrite (pack_i16le_ok val Hv)).
    rewrite E, IH. now rewrite <- app_assoc.
Qed.

Lemma write_levels (amplitude spb : Z) (levels : list Z) :
  -32767 <= amplitude <= 32767 ->
  forall pcm0,
    fold_left
      (fun (acc : result bytes) (lvl : Z) =>
         (pcm <- acc ;;
          let val := if truthy lvl then amplitude else - amplitude in
          fold_left
            (fun (acc : result bytes) (_ : Z) =>
               pcm <- acc ;; s <- pack_i16le val ;; Ok (pcm ++ s))
            (zrange spb) (Ok pcm))%result)
      levels (Ok pcm0)
    = Ok (pcm0
          ++ flat_map
               (fun lvl => concat (repeat (i16le (level_sample amplitude lvl))
                                          (length (zrange spb))))
               levels).
Proof.
  intros Ha.
  set (f := fun (acc : result bytes) (lvl : Z) =>
         (pcm <- acc ;;
          let val := if truthy lvl then amplitude else - amplitude in
          fold_left
            (fun (acc : result bytes) (_ : Z) =>
               pcm <- acc ;; s <- pack_i16le val ;; Ok (pcm ++ s))
            (zrange spb) (Ok pcm))%result).
  induction levels as [|l levels IH]; intros pcm0; cbn [fold_left flat_map].
  - now rewrite app_nil_r.
  - assert (E : f (Ok pcm0) l
                = Ok (pcm0 ++ concat (repeat (i16le (level_sample amplitude l))
                                             (length (zrange spb))))).
    { unfold f. cbn [rbind]. cbv zeta. fold (level_sample amplitude l).
      apply write_level. now apply level_sample_range. }
    rewrite E, IH. now rewrite <- app_assoc.
Qed.

Lemma length_zrange (n : Z) : length (zrange n) = Z.to_nat n.
Proof. unfold zrange. now rewrite length_map, length_seq. Qed.

Lemma len_line_samples (amplitude spb : Z) (levels : list Z) :
  0 <= spb -> len (line_samples amplitude spb levels) = spb * len levels.
Proof.
  intros Hs. unfold len, line_samples.
  induction levels as [|l levels IH]; cbn [flat_map length]; [lia|].
  rewrite length_app, repeat_length. lia.
Qed.

Lemma sum_repeat (v : Z) (n : nat) :
  forall acc, fold_left Z.add (repeat v n) acc = acc + Z.of_nat n * v.
Proof.
  induction n as [|n IH]; intros acc; cbn [repeat fold_left]; [lia|].
  rewrite IH. lia.
Qed.

(** At phase 0 the windows are the levels. *)
Lemma levels_go_line (amplitude spb : Z) (rest : list Z) :
  1 <= spb -> 0 < amplitude ->
  forall done fuel,
    Forall is_bit rest -> (length rest < fuel)%nat ->
    levels_go fuel (line_samples amplitude spb (done ++ rest)) spb (spb * len done)
    = rest.
Proof.
  intros Hs Ha. induction rest as [|l rest IH]; intros done fuel Hb Hf.
  - destruct fuel as [|fuel]; [reflexivity|]. cbn [levels_go].
    rewrite len_line_samples, app_nil_r by lia.
    destruct (Z.leb_spec (spb * len done + spb) (spb * len done)); [lia | reflexivity].
  - destruct fuel as [|fuel]; [cbn [length] in Hf; lia|]. cbn [levels_go].
    inversion Hb as [|? ? Hl Hb']; subst.
    assert (Hlen : len (done ++ l :: rest) = len done + 1 + len rest).
    { unfold len. rewrite length_app. cbn [length]. lia. }
    assert (Hr : 0 <= len rest) by (unfold len; lia).
    rewrite len_line_samples, Hlen by lia.
    destruct (Z.leb_spec (spb * len done + spb) (spb * (len done + 1 + len rest)));
      [|nia].
    assert (Hw : zslice (line_samples amplitude spb (done ++ l :: rest))
                        (spb * len done) (spb * len done + spb)
                 = repeat (level_sample amplitude l) (Z.to_nat spb)).
    { unfold line_samples. rewrite flat_map_app. cbn [flat_map].
      fold (line_samples amplitude spb done). fold (line_samples amplitude spb rest).
      pose proof (zslice_app_mid (line_samples amplitude spb done)
                    (repeat (level_sample amplitude l) (Z.to_nat spb))
                    (line_samples amplitude spb rest)) as Hz.
      rewrite len_line_samples in Hz by lia.
      replace (len (repeat (level_sample amplitude l) (Z.to_nat spb))) with spb in Hz
        by (unfold len; rewrite repeat_length; lia).
      exact Hz. }
    rewrite Hw, sum_repeat. f_equal.
    + unfold level_sample.
      destruct Hl as [-> | ->]; cbn [truthy Z.eqb negb].
      * destruct (Z.leb_spec 0 (0 + Z.of_nat (Z.to_nat spb) * - amplitude));
          [nia | reflexivity].
      * destruct (Z.leb_spec 0 (0 + Z.of_nat (Z.to_nat spb) * amplitude));
          [reflexivity | nia].
    + replace (spb * len done + spb) with (spb * len (done ++ [l]))
        by (unfold len; rewrite length_app; cbn [length]; lia).
      replace (done ++ l :: rest) with ((done ++ [l]) ++ rest)
        by (now rewrite <- app_assoc).
      apply IH; [exact Hb' | cbn [length] in Hf; lia].
Qed.

Lemma hdlc_bits_are_bits (frame : bytes) (pre post : Z) :
  Forall is_bit (hdlc_bits frame pre post).
Proof.
  unfold hdlc_bits, flag_run, stuffed_frame.
  repeat (apply Forall_app; split);
    try apply bytes_to_bits_are_bits. apply bitstuff_go_bits.
Qed.

Lemma line_levels_are_bits (frame : bytes) (pre post variant il : Z) :
  Forall is_bit (line_levels frame pre post variant il).
Proof.
  unfold line_levels, nrzi_encode. constructor; [apply land1_cases|].
  apply nrzi_encode_go_bits, land1_cases.
Qed.

Lemma len_line_levels (frame : bytes) (pre post variant il : Z) :
  len (line_levels frame pre post variant il) = 1 + len (hdlc_bits frame pre post).
Proof.
  unfold line_levels, nrzi_encode, g3ruh_scramble, g3ruh_descramble, len.
  cbn [length]. rewrite length_nrzi_encode_go, length_descramble_go. lia.
Qed.

Lemma len_pcm_line (amplitude : Z) (n : nat) (levels : list Z) :
  len (flat_map (fun lvl => concat (repeat (i16le (level_sample amplitude lvl)) n))
                levels)
  = 2 * (Z.of_nat n * len levels).
Proof.
  unfold len. induction levels as [|l levels IH]; cbn [flat_map length]; [lia|].
  rewrite length_app.
  assert (E : forall k, length (concat (repeat (i16le (level_sample amplitude l)) k))
                        = (2 * k)%nat).
  { induction k as [|k IHk]; [reflexivity|].
    cbn [repeat concat]. rewrite length_app, IHk. cbn [i16le length]. lia. }
  rewrite E. lia.
Qed.

Lemma len_hdlc_bits (frame : bytes) (pre post : Z) :
  0 <= pre -> 0 <= post ->
  len (hdlc_bits frame pre post) = 8 * pre + len (stuffed_frame frame) + 8 * post.
Proof.
  intros Hp Hq. unfold hdlc_bits.
  rewrite <- (Z2Nat.id pre Hp) at 1. rewrite <- (Z2Nat.id post Hq) at 1.
  unfold len. rewrite !length_app, !length_flag_run. lia.
Qed.

(** Stuffing adds at most one bit for every five. *)
Lemma len_stuffed_frame_upper (frame : bytes) :
  5 * len (stuffed_frame frame) <= 48 * (len frame + 2).
Proof.
  unfold stuffed_frame.
  destruct (length_bitstuff_go (bytes_to_bits_lsb_first (frame_with_fcs frame)) 0
              ltac:(lia)) as [_ H].
  fold (bitstuff (bytes_to_bits_lsb_first (frame_with_fcs frame))) in H.
  pose proof (len_bytes_to_bits (frame_with_fcs frame)) as Hl.
  unfold frame_with_fcs, len in *. rewrite length_app in Hl. cbn [length] in Hl. lia.
Qed.

(** A positive frame rate: the file is written when the byte rate and
    the length of the file fit 32 bits, and [struct.error] is raised
    otherwise. *)
Lemma wave_write_cases (fs : Z) (pcm : bytes) :
  0 < fs ->
  wave_write fs pcm
  = if (2 * fs <=? 0xFFFFFFFF) && (36 + len pcm <=? 0xFFFFFFFF)
    then Ok (mkWav 1 2 fs pcm) else Raise StructError.
Proof.
  intros H. unfold wave_write.
  assert (Hn : 0 <= len pcm) by (unfold len; lia).
  destruct (Z.leb_spec fs 0); [lia|].
  replace (1 * fs * 2) with (2 * fs) by lia.
  destruct (Z.leb_spec (2 * fs) 0xFFFFFFFF), (Z.leb_spec (36 + len pcm) 0xFFFFFFFF),
    (Z.leb_spec fs 0xFFFFFFFF), (Z.leb_spec (len pcm) 0xFFFFFFFF);
    reflexivity || lia.
Qed.

(** What the modulator hands to [wave]: 16-bit samples, [spb] of them
    for each level of the line. *)
Lemma mod_writes_line (frame : bytes)
    (baud spb amplitude pre post variant il : Z) :
  0 < baud -> 1 <= spb -> -32767 <= amplitude <= 32767 ->
  exists pcm,
    mod_ax25_frame_to_wav frame baud (spb * baud) amplitude pre post variant il
    = wave_write (spb * baud) pcm /\
    len pcm = 2 * (spb * (1 + len (hdlc_bits frame pre post))) /\
    unpack_i16le pcm
    = Ok (line_samples amplitude spb (line_levels frame pre post variant il)).
Proof.
  intros Hb Hs Ha. unfold mod_ax25_frame_to_wav.
  replace (baud =? 0) with false by (symmetry; apply Z.eqb_neq; lia).
  rewrite Z.mod_mul by lia. cbn [Z.eqb negb].
  rewrite Z.div_mul by lia.
  pose proof (crc16_x25_range frame) as Hc. unfold pack_u16le.
  rewrite (proj2 (Z.leb_le 0 _) (proj1 Hc)).
  rewrite (proj2 (Z.leb_le (crc16_x25 frame) 65535) ltac:(lia)). cbn [andb rbind].
  change (bytes_to_bits_lsb_first (concat (repeat [AX25_FLAG] (Z.to_nat pre)))
          ++ bitstuff (bytes_to_bits_lsb_first
                         (frame ++ [Z.land (crc16_x25 frame) 0xFF;
                                    Z.land (Z.shiftr (crc16_x25 frame) 8) 0xFF]))
          ++ bytes_to_bits_lsb_first (concat (repeat [AX25_FLAG] (Z.to_nat post))))
    with (hdlc_bits frame pre post).
  fold (line_levels frame pre post variant il).
  rewrite write_levels by exact Ha. cbn [app rbind].
  eexists. split; [reflexivity|]. rewrite length_zrange. split.
  - rewrite len_pcm_line, len_line_levels. rewrite Z2Nat.id by lia. reflexivity.
  - now apply unpack_i16le_line.
Qed.

Lemma round_div_exact (spb baud : Z) : 0 < baud -> round_div (spb * baud) baud = spb.
Proof.
  intros Hb. unfold round_div. rewrite Z.mod_mul, Z.div_mul by lia.
  change (Z.abs (2 * 0)) with 0.
  destruct (Z.ltb_spec 0 (Z.abs baud)); [reflexivity | lia].
Qed.

(** Among the candidates of the demodulator on the samples of a frame
    is the frame itself, at phase 0, on the levels as they are, with
    the other variant of the descrambler. *)
Lemma frame_among_candidates (frame : bytes)
    (spb amplitude pre post variant il : Z) :
  Forall is_byte frame -> 16 <= len frame ->
  1 <= spb -> 0 < amplitude -> 1 <= pre -> 1 <= post ->
  variant = 0 \/ variant = 1 ->
  In (mkDemodResult [frame] 0 false (1 - variant))
     (demod_candidates
        (line_samples amplitude spb (line_levels frame pre post variant il)) spb).
Proof.
  intros Hf Hl Hs Ha Hp Hq Hv.
  set (levels := line_levels frame pre post variant il).
  set (samples := line_samples amplitude spb levels).
  unfold demod_candidates. apply in_flat_map. exists 0. split.
  { apply in_zrange. lia. }
  cbv zeta. cbn [flat_map]. apply in_or_app. left.
  assert (Hlev : levels_go (S (length samples)) samples spb 0 = levels).
  { pose proof (levels_go_line amplitude spb levels Hs Ha [] (S (length samples))
                  (line_levels_are_bits frame pre post variant il)) as H.
    cbn [app] in H. change (len []) with 0 in H. rewrite Z.mul_0_r in H.
    apply H.
    pose proof (len_line_samples amplitude spb levels ltac:(lia)) as Hn.
    fold samples in Hn. unfold len in Hn. nia. }
  rewrite Hlev, map_lxor_0. unfold levels, line_levels.
  rewrite nrzi_roundtrip by apply descramble_go_bits.
  pose proof (g3ruh_other_variant_inverts (hdlc_bits frame pre post)
                (hdlc_bits_are_bits frame pre post)) as [H0 H1].
  pose proof (extract_hdlc_bits frame pre post Hf Hp Hq) as Hx.
  pose proof (len_stuffed_frame frame) as Hlen.
  replace (len (stuffed_frame frame) <? 8 * (7 + 7 + 2 + 2)) with false in Hx
    by (symmetry; apply Z.ltb_ge; lia).
  destruct Hv as [-> | ->]; cbn [map Z.sub Z.add Z.opp Z.pos_sub].
  - right. left. now rewrite H0, Hx.
  - left. now rewrite H1, Hx.
Qed.

(** X20: What the modulator writes, the demodulator reads.  Take a frame of
    16 bytes or more, a baud rate, a whole number [spb] of samples for a
    bit, a positive amplitude that fits 16 bits and one flag or more on
    each side; the line then has one level more than the framed bits,
    at most [8 * (pre + post) + 10 * (len frame + 2)] of them.  When the
    byte rate [2 * fs] and the length of the file fit the 32-bit fields
    of the header, [mod_ax25_frame_to_wav] writes a file on which
    [demod_wav_to_ax25_frames] finds one frame or more, never on the
    inverted levels, and the candidate at phase 0 with the variant of
    the descrambler that is not the one of the scrambler holds the frame
    and nothing else; when one of them does not fit, the modulator
    raises [struct.error].  The rates of the first case are below 2^31:
    the quotient that the demodulator takes in binary64 is [spb]
    itself. *)
Theorem modem_roundtrip (frame : bytes)
    (baud spb amplitude pre post variant il : Z) :
  Forall is_byte frame -> 16 <= len frame ->
  0 < baud -> 1 <= spb -> 0 < amplitude <= 32767 -> 1 <= pre -> 1 <= post ->
  variant = 0 \/ variant = 1 ->
  1 + len (hdlc_bits frame pre post) <= 8 * (pre + post) + 10 * (len frame + 2) /\
  (2 * (spb * baud) <= 0xFFFFFFFF ->
   36 + 2 * (spb * (1 + len (hdlc_bits frame pre post))) <= 0xFFFFFFFF ->
   exists w samples r,
     mod_ax25_frame_to_wav frame baud (spb * baud) amplitude pre post variant il
     = Ok w /\
     nchannels w = 1 /\ sampwidth w = 2 /\ framerate w = spb * baud /\
     unpack_i16le (pcm_frames w) = Ok samples /\
     len samples = spb * (1 + len (hdlc_bits frame pre post)) /\
     In (mkDemodResult [frame] 0 false (1 - variant)) (demod_candidates samples spb) /\
     demod_wav_to_ax25_frames w baud = Ok r /\
     1 <= len (frames r) /\ inverted r = false) /\
  (0xFFFFFFFF < 2 * (spb * baud) \/
   0xFFFFFFFF < 36 + 2 * (spb * (1 + len (hdlc_bits frame pre post))) ->
   mod_ax25_frame_to_wav frame baud (spb * baud) amplitude pre post variant il
   = Raise StructError).
Proof.
  intros Hf Hl Hb Hs Ha Hp Hq Hv.
  destruct (mod_writes_line frame baud spb amplitude pre post variant il Hb Hs
              ltac:(lia)) as [pcm [Hmod [Hpcm Hun]]].
  rewrite wave_write_cases, Hpcm in Hmod by nia.
  split; [|split].
  - rewrite len_hdlc_bits by lia.
    pose proof (len_stuffed_frame_upper frame). lia.
  - intros Hrate Hsize.
    rewrite (proj2 (Z.leb_le _ _) Hrate), (proj2 (Z.leb_le _ _) Hsize) in Hmod.
    cbn [andb] in Hmod.
    set (samples := line_samples amplitude spb (line_levels frame pre post variant il))
      in *.
    pose proof (frame_among_candidates frame spb amplitude pre post variant il
                  Hf Hl Hs ltac:(lia) Hp Hq Hv) as Hin.
    fold samples in Hin.
    pose proof (fold_keep_best_covers _ _ Hin None) as Hcov.
    pose proof (fold_candidates_not_inverted samples spb) as Hinv.
    cbn [frames] in Hcov. change (len [frame]) with 1 in Hcov.
    destruct Hcov as [Hz | [b [Eb Hle]]]; [discriminate Hz|].
    exists (mkWav 1 2 (spb * baud) pcm), samples, b.
    split; [exact Hmod|]. do 3 (split; [reflexivity|]). split; [exact Hun|]. split.
    { unfold samples. rewrite len_line_samples, len_line_levels by lia. reflexivity. }
    split; [exact Hin|]. split; [|split; [exact Hle | now apply Hinv]].
    unfold demod_wav_to_ax25_frames.
    cbn [sampwidth nchannels framerate pcm_frames Z.eqb Pos.eqb negb].
    replace (baud =? 0) with false by (symmetry; apply Z.eqb_neq; lia).
    rewrite round_div_exact by exact Hb.
    rewrite Z.sub_diag. change (Z.abs 0 * 1000000) with 0.
    replace (Z.abs baud <? 0) with false by (symmetry; apply Z.ltb_ge; lia).
    rewrite Hun. cbn [rbind]. now rewrite Eb.
  - intros Hbig. rewrite Hmod.
    destruct (Z.leb_spec (2 * (spb * baud)) 0xFFFFFFFF);
      destruct (Z.leb_spec (36 + 2 * (spb * (1 + len (hdlc_bits frame pre post))))
                           0xFFFFFFFF); reflexivity || lia.
Qed.

Lemma modem_roundtrip_witness :
  exists w samples r,
    mod_ax25_frame_to_wav frame20 9600 (5 * 9600) 20000 32 8 0 1 = Ok w /\
    nchannels w = 1 /\ sampwidth w = 2 /\ framerate w = 5 * 9600 /\
    unpack_i16le (pcm_frames w) = Ok samples /\
    len samples = 5 * (1 + len (hdlc_bits frame20 32 8)) /\
    In (mkDemodResult [frame20] 0 false (1 - 0)) (demod_candidates samples 5) /\
    demod_wav_to_ax25_frames w 9600 = Ok r /\
    1 <= len (frames r) /\ inverted r = false.
Proof.
  assert (Hf : Forall is_byte frame20) by (unfold frame20; bytes_ok).
  assert (Hl : 16 <= len frame20) by (unfold frame20, len; cbn [length]; lia).
  destruct (modem_roundtrip frame20 9600 5 20000 32 8 0 1 Hf Hl
              ltac:(lia) ltac:(lia) ltac:(lia) ltac:(lia) ltac:(lia)
              (or_introl eq_refl)) as [Hn [Hok _]].
  apply Hok; [lia|].
  change (len frame20) with 20 in Hn. lia.
Defined.

(** ** The latest telemetry of a capture *)

Lemma decode_telemetry_raise (p : bytes) (e : exn) :
  decode_telemetry p = Raise e -> exists msg, e = DecodeError msg.
Proof.
  intros H.
  destruct (Z.lt_ge_cases (len p) 2) as [Hs | Hs].
  { rewrite (decode_short p Hs) in H. injection H as <-. eauto. }
  destruct (Z.eq_dec (tl_type p) 0x544C) as [Ht | Ht].
  2:{ rewrite (decode_wrong_type p Hs Ht) in H. injection H as <-. eauto. }
  assert (Hd : truncated p \/ ~ truncated p) by (unfold truncated; lia).
  destruct Hd as [Htr | Htr].
  - rewrite (decode_truncated p Hs Ht Htr) in H. injection H as <-. eauto.
  - rewrite (decode_telemetry_record p Ht Htr) in H. discriminate H.
Qed.

Lemma frame_telemetry_raise (fr : bytes) (e : exn) :
  frame_telemetry fr = Raise e ->
  exists msg, e = ValueError msg \/ e = DecodeError msg.
Proof.
  unfold frame_telemetry.
  destruct (ax25_decode_cases fr)
    as [[_ E] | [[_ [_ E]] | [_ [_ [dst [src E]]]]]]; rewrite E; cbn [rbind payload].
  - intros H. injection H as <-. eauto.
  - intros H. injection H as <-. eauto.
  - intros H. apply decode_telemetry_raise in H. destruct H as [msg ->]. eauto.
Qed.

Lemma latest_step_later (best : option TelemetryTL) (fr : bytes) :
  latest_step (Ok best) fr = Ok (later best (telemetry_of fr)).
Proof.
  unfold latest_step, later, telemetry_of. cbn [rbind].
  destruct (frame_telemetry fr) as [tl|e] eqn:E.
  - destruct best as [b|]; [|reflexivity]. now destruct (sequence b <? sequence tl).
  - destruct (frame_telemetry_raise fr e E) as [msg [-> | ->]]; reflexivity.
Qed.

Lemma find_latest_tl_fold (frames : list bytes) :
  forall best,
    fold_left latest_step frames (Ok best)
    = Ok (fold_left (fun b fr => later b (telemetry_of fr)) frames best).
Proof.
  induction frames as [|fr frames IH]; intros best; [reflexivity|].
  cbn [fold_left]. now rewrite latest_step_later, IH.
Qed.

Lemma find_latest_tl_sequence_fold (frames : list bytes) :
  forall best,
    fold_left latest_sequence_step frames (Ok (option_map sequence best, best))
    = Ok (option_map sequence
            (fold_left (fun b fr => later b (telemetry_of fr)) frames best),
          fold_left (fun b fr => later b (telemetry_of fr)) frames best).
Proof.
  induction frames as [|fr frames IH]; intros best; [reflexivity|].
  cbn [fold_left]. rewrite <- IH. f_equal.
  unfold latest_sequence_step, later, telemetry_of. cbn [rbind].
  destruct (frame_telemetry fr) as [tl|e] eqn:E.
  - destruct best as [b|]; [|reflexivity]. cbn [option_map].
    now destruct (sequence b <? sequence tl).
  - destruct (frame_telemetry_raise fr e E) as [msg [-> | ->]]; reflexivity.
Qed.

Lemma fold_later_first (frames : list bytes) :
  forall best tl,
    fold_left (fun b fr => later b (telemetry_of fr)) frames best = Some tl ->
    (best = Some tl /\
     forall fr tl', In fr frames -> telemetry_of fr = Some tl' ->
                    sequence tl' <= sequence tl) \/
    (exists l1 fr l2,
        frames = l1 ++ fr :: l2 /\ telemetry_of fr = Some tl /\
        (forall fr' tl', In fr' l1 -> telemetry_of fr' = Some tl' ->
                         sequence tl' < sequence tl) /\
        (forall fr' tl', In fr' l2 -> telemetry_of fr' = Some tl' ->
                         sequence tl' <= sequence tl) /\
        (forall b, best = Some b -> sequence b < sequence tl)).
Proof.
  induction frames as [|fr frames IH]; intros best tl H; cbn [fold_left] in H.
  - left. split; [exact H | intros fr tl' []].
  - destruct (IH _ _ H) as [[Hb Hall] | [l1 [fr0 [l2 [-> [Hf [H1 [H2 H0]]]]]]]].
    + unfold later in Hb. destruct (telemetry_of fr) as [t|] eqn:Et.
      * destruct best as [b|].
        -- destruct (Z.ltb_spec (sequence b) (sequence t)).
           ++ injection Hb as <-. right. exists [], fr, frames.
              split; [reflexivity|]. split; [exact Et|]. split; [intros ? ? []|].
              split; [exact Hall|]. intros b0 Hb0. injection Hb0 as <-. lia.
           ++ left. split; [exact Hb|]. injection Hb as <-.
              intros fr' tl' [<- | Hin] Ht; [|now apply (Hall fr')].
              rewrite Et in Ht. injection Ht as <-. lia.
        -- injection Hb as <-. right. exists [], fr, frames.
           split; [reflexivity|]. split; [exact Et|]. split; [intros ? ? []|].
           split; [exact Hall|]. intros b0 Hb0. discriminate Hb0.
      * left. split; [exact Hb|].
        intros fr' tl' [<- | Hin] Ht; [|now apply (Hall fr')].
        rewrite Et in Ht. discriminate Ht.
    + right. exists (fr :: l1), fr0, l2. split; [reflexivity|]. split; [exact Hf|].
      assert (Hstep : forall t, later best (telemetry_of fr) = Some t ->
                                sequence t < sequence tl) by (intros t; apply H0).
      split; [|split; [exact H2|]].
      * intros fr' tl' [<- | Hin] Ht; [|now apply (H1 fr')].
        unfold later in Hstep. rewrite Ht in Hstep.
        destruct best as [b|]; [|now apply Hstep].
        destruct (Z.ltb_spec (sequence b) (sequence tl')); [now apply Hstep|].
        specialize (Hstep b eq_refl). lia.
      * intros b ->. unfold later in Hstep.
        destruct (telemetry_of fr) as [t|]; [|now apply Hstep].
        destruct (Z.ltb_spec (sequence b) (sequence t)); [|now apply Hstep].
        specialize (Hstep t eq_refl). lia.
Qed.

Lemma fold_later_none (frames : list bytes) :
  forall best,
    fold_left (fun b fr => later b (telemetry_of fr)) frames best = None <->
    best = None /\ forall fr, In fr frames -> telemetry_of fr = None.
Proof.
  induction frames as [|fr frames IH]; intros best; cbn [fold_left].
  - split; [intros ->; split; [reflexivity | intros fr []] | now intros [-> _]].
  - rewrite IH. unfold later. split.
    + intros [Hb Hall]. destruct (telemetry_of fr) as [t|] eqn:Et.
      * destruct best as [b|]; [|discriminate Hb].
        destruct (sequence b <? sequence t); discriminate Hb.
      * split; [exact Hb|]. intros fr' [<- | Hin]; [exact Et | now apply Hall].
    + intros [-> Hall]. rewrite (Hall fr (or_introl eq_refl)).
      split; [reflexivity|]. intros fr' Hin. apply Hall. now right.
Qed.

(** X21: [_find_latest_tl] never raises and returns the telemetry of the
    first frame, among those that hold a telemetry packet, with the
    highest sequence number, or nothing when no frame holds one;
    [_find_latest_tl_sequence] returns the same record with its
    sequence number. *)
Theorem find_latest_tl_first_highest (frames : list bytes) :
  exists r,
    _find_latest_tl frames = Ok r /\
    _find_latest_tl_sequence frames
    = Ok (option_map (fun tl => (sequence tl, tl)) r) /\
    (r = None <-> forall fr, In fr frames -> telemetry_of fr = None) /\
    (forall tl, r = Some tl ->
       exists l1 fr l2,
         frames = l1 ++ fr :: l2 /\ telemetry_of fr = Some tl /\
         (forall fr' tl', In fr' l1 -> telemetry_of fr' = Some tl' ->
                          sequence tl' < sequence tl) /\
         (forall fr' tl', In fr' l2 -> telemetry_of fr' = Some tl' ->
                          sequence tl' <= sequence tl)).
Proof.
  exists (fold_left (fun b fr => later b (telemetry_of fr)) frames None).
  split; [apply find_latest_tl_fold|]. split; [|split].
  - unfold _find_latest_tl_sequence.
    pose proof (find_latest_tl_sequence_fold frames None) as E.
    cbn [option_map] in E. rewrite E. cbn [rbind].
    now destruct (fold_left _ frames None).
  - rewrite fold_later_none. split; [now intros [_ H] | now split].
  - intros tl H.
    destruct (fold_later_first frames None tl H)
      as [[Hb _] | [l1 [fr [l2 [E [Hf [H1 [H2 _]]]]]]]]; [discriminate Hb|].
    now exists l1, fr, l2.
Qed.

(** ** The uplink *)

Lemma wrap_uplink_ok (tbl : Z -> pystr) (payload : bytes) :
  _wrap_uplink_ax25 tbl payload = Ok (uplink_header ++ payload).
Proof. reflexivity. Qed.

Lemma decode_uplink (payload : bytes) :
  AX25Frame_decode (uplink_header ++ payload)
  = Ok (mkFrame (mkAddress HA7FLR 0) (mkAddress GROUND 0)
                AX25_CONTROL_UI AX25_PID_NO_LAYER3 payload).
Proof.
  unfold AX25Frame_decode.
  destruct (len (uplink_header ++ payload) <? 7 + 7 + 2) eqn:E.
  { apply Z.ltb_lt in E. unfold len in E. rewrite length_app in E.
    cbn [length uplink_header] in E. lia. }
  reflexivity.
Qed.

(** X22: The uplink frame: [_wrap_uplink_ax25] never fails, puts the same
    sixteen bytes (to HA7FLR from GROUND, a UI frame without layer 3)
    before the payload, as [_wrap_ax25] does with the callsigns that the
    command line takes by default, and [AX25Frame.decode] gives the
    payload back unchanged. *)
Theorem uplink_frame_roundtrip (tbl : Z -> pystr) (payload : bytes) :
  _wrap_uplink_ax25 tbl payload = Ok (uplink_header ++ payload) /\
  _wrap_ax25 tbl payload GROUND HA7FLR = _wrap_uplink_ax25 tbl payload /\
  AX25Frame_decode (uplink_header ++ payload)
  = Ok (mkFrame (mkAddress HA7FLR 0) (mkAddress GROUND 0)
                AX25_CONTROL_UI AX25_PID_NO_LAYER3 payload) /\
  frame_telemetry (uplink_header ++ payload) = decode_telemetry payload.
Proof.
  split; [reflexivity|]. split; [reflexivity|]. split; [apply decode_uplink|].
  unfold frame_telemetry. now rewrite decode_uplink.
Qed.

(** ** What the frames of a capture are *)

Lemma lor_range (n a b : Z) :
  0 <= n -> 0 <= a < 2 ^ n -> 0 <= b < 2 ^ n -> 0 <= Z.lor a b < 2 ^ n.
Proof.
  intros Hn Ha Hb.
  assert (H0 : 0 <= Z.lor a b) by (apply Z.lor_nonneg; lia).
  split; [exact H0|].
  destruct (Z.eq_dec (Z.lor a b) 0) as [-> | Hne]; [lia|].
  assert (Hpos : 0 < n).
  { destruct (Z.eq_dec n 0) as [-> | ?]; [|lia].
    change (2 ^ 0) with 1 in *. assert (a = 0) by lia. assert (b = 0) by lia.
    subst. now contradiction Hne. }
  apply Z.log2_lt_pow2; [lia|].
  rewrite Z.log2_lor by lia.
  apply Z.max_lub_lt.
  - destruct (Z.eq_dec a 0) as [-> | ?]; [cbn; lia|]. apply Z.log2_lt_pow2; lia.
  - destruct (Z.eq_dec b 0) as [-> | ?]; [cbn; lia|]. apply Z.log2_lt_pow2; lia.
Qed.

Lemma bits_to_bytes_go_bytes (bs : bits) :
  forall acc n, 0 <= n < 8 -> 0 <= acc < 2 ^ n ->
                Forall is_byte (bits_to_bytes_go acc n bs).
Proof.
  induction bs as [|b rest IH]; intros acc n Hn Ha; [constructor|].
  cbn [bits_to_bytes_go].
  assert (Hnew : 0 <= Z.lor acc (Z.shiftl (Z.land b 1) n) < 2 ^ (n + 1)).
  { assert (Hp : 2 ^ (n + 1) = 2 * 2 ^ n)
      by (rewrite Z.pow_add_r by lia; change (2 ^ 1) with 2; lia).
    apply lor_range; [lia | lia |].
    rewrite Z.shiftl_mul_pow2 by lia.
    destruct (land1_cases b) as [-> | ->]; lia. }
  destruct (n + 1 =? 8) eqn:E.
  - apply Z.eqb_eq in E. rewrite E in Hnew. change (2 ^ 8) with 256 in Hnew.
    constructor; [exact Hnew|]. apply IH; [lia | cbn; lia].
  - apply Z.eqb_neq in E. apply IH; [lia | exact Hnew].
Qed.

Lemma extract_frame_bytes (bs : bits) (f : bytes) :
  In f (_extract_hdlc_frames bs) -> Forall is_byte f /\ 7 <= len f.
Proof.
  unfold _extract_hdlc_frames. intros H. apply in_filter_map in H.
  destruct H as [[a b] [_ H]]. apply frame_candidate_some in H.
  destruct H as [Hl [-> _]].
  set (p := zslice bs (a + 8) b) in *.
  assert (Hb : Forall is_byte (candidate_bytes bs a b)).
  { unfold candidate_bytes, bits_to_bytes_lsb_first.
    apply bits_to_bytes_go_bytes; [lia | cbn; lia]. }
  split.
  - unfold drop_last. now apply Forall_firstn_skipn.
  - assert (Hd : 9 <= len (candidate_bytes bs a b)).
    { unfold candidate_bytes. fold p. rewrite len_bits_to_bytes.
      pose proof (len_bitunstuff p). apply Z.div_le_lower_bound; lia. }
    unfold drop_last, len in *. rewrite length_firstn. lia.
Qed.

Lemma candidate_frame_bytes (samples : list Z) (spb_i : Z) (c : DemodResult) :
  In c (demod_candidates samples spb_i) ->
  forall f, In f (frames c) -> Forall is_byte f /\ 7 <= len f.
Proof.
  unfold demod_candidates. intros H. apply in_flat_map in H.
  destruct H as [phase [_ H]]. cbv zeta in H. cbn [flat_map map app] in H.
  cbn [In] in H.
  destruct H as [<- | [<- | [<- | [<- | []]]]]; cbn [frames];
    intros f Hf; exact (extract_frame_bytes _ f Hf).
Qed.

(** X23: The frames that the demodulator returns are byte strings of seven
    bytes or more, as are the frames that [_extract_hdlc_frames] finds
    in any list of bits. *)
Theorem demod_frames_are_bytes (w : wav) (baud : Z) (r : DemodResult)
    (bs : bits) (f : bytes) :
  (In f (_extract_hdlc_frames bs) -> Forall is_byte f /\ 7 <= len f) /\
  (demod_wav_to_ax25_frames w baud = Ok r -> In f (frames r) ->
   Forall is_byte f /\ 7 <= len f).
Proof.
  split; [apply extract_frame_bytes|].
  unfold demod_wav_to_ax25_frames.
  destruct (negb (sampwidth w =? 2)); [discriminate|].
  destruct (negb (nchannels w =? 1)); [discriminate|].
  destruct (baud =? 0); [discriminate|].
  destruct (_ <? _); [discriminate|].
  destruct (unpack_i16le (pcm_frames w)) as [samples|]; [|discriminate].
  cbn [rbind]. intros H Hf. apply Ok_inj in H.
  destruct (fold_left keep_best _ None) as [b|] eqn:E.
  - subst r.
    destruct (fold_keep_best_first _ None b E)
      as [[Hb _] | [l1 [l2 [El _]]]]; [discriminate Hb|].
    apply (candidate_frame_bytes samples (round_div (framerate w) baud) b);
      [|exact Hf].
    rewrite El. apply in_or_app. right. now left.
  - subst r. destruct Hf.
Qed.

Lemma demod_frames_are_bytes_witness :
  Forall is_byte sample_raw /\ 7 <= len sample_raw.
Proof.
  apply (proj1 (demod_frames_are_bytes (mkWav 1 2 48000 []) 9600
                  (mkDemodResult [] 0 false 0) (hdlc_bits sample_raw 2 1)
                  sample_raw)).
  rewrite extract_hdlc_bits.
  - pose proof (len_stuffed_frame sample_raw) as H.
    change (len sample_raw) with 18 in H.
    destruct (Z.ltb_spec (len (stuffed_frame sample_raw)) (8 * (7 + 7 + 2 + 2)));
      [lia | left; reflexivity].
  - unfold sample_raw. bytes_ok.
  - lia.
  - lia.
Defined.

(** ** From the telemetry to the uplink *)

Lemma sequence_range (p : bytes) (tl : TelemetryTL) :
  Forall is_byte p -> decode_telemetry p = Ok tl -> 0 <= sequence tl < 2 ^ 32.
Proof.
  intros Hp H.
  destruct (Z.lt_ge_cases (len p) 2) as [Hs | Hs].
  { rewrite (decode_short p Hs) in H. discriminate. }
  destruct (Z.eq_dec (tl_type p) 0x544C) as [Ht | Ht].
  2:{ rewrite (decode_wrong_type p Hs Ht) in H. discriminate. }
  assert (Htr : ~ truncated p).
  { intros Htr. rewrite (decode_truncated p Hs Ht Htr) in H. discriminate. }
  rewrite (decode_telemetry_record p Ht Htr) in H. apply Ok_inj in H. subst tl.
  unfold truncated in Htr. cbn [tl_record sequence].
  pose proof (be_unsigned_range (zslice p 2 6) (zslice_bytes p 2 6 Hp)) as Hr.
  rewrite (len_zslice p 2 6) in Hr by lia. exact Hr.
Qed.

Lemma telemetry_of_sequence (fr : bytes) (tl : TelemetryTL) :
  Forall is_byte fr -> telemetry_of fr = Some tl -> 0 <= sequence tl < 2 ^ 32.
Proof.
  intros Hb. unfold telemetry_of, frame_telemetry.
  destruct (ax25_decode_cases fr)
    as [[_ E] | [[_ [_ E]] | [_ [_ [dst [src E]]]]]]; rewrite E; cbn [rbind payload];
    try discriminate.
  destruct (decode_telemetry (skipn 16 fr)) as [t|] eqn:Et; [|discriminate].
  intros H. injection H as <-.
  apply (sequence_range (skipn 16 fr)); [|exact Et].
  now apply Forall_firstn_skipn.
Qed.

Lemma build_sequence_ok (hmac_digest : bytes -> bytes -> bytes)
    (ct sq : Z) (payload : bytes) :
  0 <= ct <= 0xFFFF -> 0 <= sq <= 0xFFFFFFFF ->
  value (build_telecommand hmac_digest ct sq payload)
  = Ok (body_of ct sq payload ++ hmac_digest HMAC_KEY (body_of ct sq payload)).
Proof.
  intros Hc Hs. now rewrite (build_telecommand_ok hmac_digest ct sq payload Hc Hs).
Qed.

(** X24: The sequence number that the mission reads from the telemetry of
    a capture is one that the builders accept, and so is the next one
    as [main] computes it: with the frames of a capture (byte strings),
    the telemetry that [_find_latest_tl] returns has a sequence number
    below 2^32, [build_sstv] returns a packet for it and for its
    successor modulo 2^32, and [build_set_motd] can only fail on the
    motd. *)
Theorem telemetry_sequence_accepted (hmac_digest : bytes -> bytes -> bytes)
    (frames : list bytes) (tl : TelemetryTL) :
  Forall (Forall is_byte) frames ->
  _find_latest_tl frames = Ok (Some tl) ->
  0 <= sequence tl <= 0xFFFFFFFF /\
  (exists tc, value (build_sstv hmac_digest (sequence tl)) = Ok tc) /\
  (exists tc,
      value (build_sstv hmac_digest (Z.land (sequence tl + 1) 0xFFFFFFFF)) = Ok tc) /\
  (forall motd payload,
      write_lp_string motd = Ok payload ->
      exists tc, value (build_set_motd hmac_digest (sequence tl) motd) = Ok tc).
Proof.
  intros Hb H. unfold _find_latest_tl in H.
  rewrite find_latest_tl_fold in H. apply Ok_inj in H.
  assert (Hr : 0 <= sequence tl < 2 ^ 32).
  { destruct (fold_later_first frames None tl H)
      as [[Hn _] | [l1 [fr [l2 [E [Hf _]]]]]]; [discriminate Hn|].
    apply (telemetry_of_sequence fr); [|exact Hf].
    rewrite Forall_forall in Hb. apply Hb. rewrite E.
    apply in_or_app. right. now left. }
  change (2 ^ 32) with 4294967296 in Hr.
  assert (Hn : 0 <= Z.land (sequence tl + 1) 0xFFFFFFFF <= 0xFFFFFFFF).
  { change (Z.land (sequence tl + 1) 0xFFFFFFFF)
      with (Z.land (sequence tl + 1) (Z.ones 32)).
    rewrite Z.land_ones by lia.
    pose proof (Z.mod_pos_bound (sequence tl + 1) (2 ^ 32) eq_refl) as Hm.
    change (2 ^ 32) with 4294967296 in *. lia. }
  split; [lia|]. split; [|split].
  - eexists. unfold build_sstv. apply build_sequence_ok; lia.
  - eexists. unfold build_sstv. apply build_sequence_ok; [lia | exact Hn].
  - intros motd payload Hw. eexists. unfold build_set_motd. rewrite Hw.
    apply build_sequence_ok; lia.
Qed.

Lemma telemetry_sequence_accepted_witness :
  exists tc, value (build_sstv checksum_digest 7) = Ok tc.
Proof.
  apply (telemetry_sequence_accepted checksum_digest
           [older_tl_frame; sample_tl_frame; older_tl_frame]
           (tl_record sample_tl)).
  - repeat (apply Forall_cons;
            [cbv [older_tl_frame sample_tl_frame uplink_header sample_tl app skipn];
             bytes_ok|]).
    apply Forall_nil.
  - vm_compute. reflexivity.
Defined.

Section Uplink.

Variable hmac_digest : bytes -> bytes -> bytes.
Variable upper_table : Z -> pystr.
Hypothesis digest_length : forall key msg, length (hmac_digest key msg) = 32%nat.
Hypothesis digest_bytes : forall key msg, Forall is_byte (hmac_digest key msg).

Lemma uplink_chain (ct sq : Z) (payload : bytes) :
  0 <= ct <= 0xFFFF -> 0 <= sq <= 0xFFFFFFFF -> Forall is_byte payload ->
  len payload <= 256 ->
  exists tc w,
    value (build_telecommand hmac_digest ct sq payload) = Ok tc /\
    (tc <- value (build_telecommand hmac_digest ct sq payload) ;;
     ax <- _wrap_uplink_ax25 upper_table tc ;;
     mod_default ax)%result = Ok w /\
    uplink_received hmac_digest tc w.
Proof.
  intros Hc Hs Hp Hshort.
  destruct (verify_build hmac_digest digest_length ct sq payload Hc Hs)
    as [tc [Hb Hv]].
  assert (Htc : Forall is_byte tc /\ len tc = 38 + len payload).
  { rewrite (build_sequence_ok hmac_digest ct sq payload Hc Hs) in Hb.
    apply Ok_inj in Hb. subst tc. split.
    - unfold body_of.
      repeat (apply Forall_app; split);
        [apply be_bytes_are_bytes | apply be_bytes_are_bytes | exact Hp
         | apply digest_bytes].
    - unfold len. rewrite length_app, digest_length.
      pose proof (length_body_of ct sq payload). lia. }
  destruct Htc as [Htc Hltc].
  set (raw := uplink_header ++ tc).
  assert (Hraw : Forall is_byte raw).
  { unfold raw. apply Forall_app. split; [unfold uplink_header; bytes_ok | exact Htc]. }
  assert (Hlen : 16 <= len raw <= 310).
  { unfold raw, len in *. rewrite length_app. cbn [length uplink_header]. lia. }
  destruct (mod_writes_line raw 9600 5 20000 32 8 0 1) as [pcm [Hmod [Hpcm Hun]]];
    [lia | lia | lia |].
  rewrite wave_write_cases, Hpcm in Hmod by lia.
  assert (Hbits : len (hdlc_bits raw 32 8) <= 8 * (32 + 8) + 10 * (len raw + 2)).
  { rewrite len_hdlc_bits by lia. pose proof (len_stuffed_frame_upper raw). lia. }
  rewrite (proj2 (Z.leb_le (2 * (5 * 9600)) 0xFFFFFFFF) ltac:(lia)) in Hmod.
  rewrite (proj2 (Z.leb_le (36 + 2 * (5 * (1 + len (hdlc_bits raw 32 8)))) 0xFFFFFFFF)
             ltac:(lia)) in Hmod.
  cbn [andb] in Hmod.
  destruct Hlen as [Hlen _].
  pose proof (frame_among_candidates raw 5 20000 32 8 0 1 Hraw Hlen) as Hin.
  specialize (Hin ltac:(lia) ltac:(lia) ltac:(lia) ltac:(lia) (or_introl eq_refl)).
  set (samples := line_samples 20000 5 (line_levels raw 32 8 0 1)) in *.
  pose proof (fold_keep_best_covers _ _ Hin None) as Hcov.
  cbn [frames] in Hcov. change (len [raw]) with 1 in Hcov.
  destruct Hcov as [Hz | [b [Eb Hle]]]; [discriminate Hz|].
  exists tc, (mkWav 1 2 (5 * 9600) pcm). split; [exact Hb|]. split.
  { rewrite Hb. cbn [rbind]. rewrite wrap_uplink_ok. cbn [rbind]. exact Hmod. }
  exists samples, b. split; [exact Hun|]. split; [exact Hin|]. split.
  { unfold demod_default, demod_wav_to_ax25_frames.
    cbn [sampwidth nchannels framerate pcm_frames]. rewrite Hun. cbn [rbind].
    change (negb (2 =? 2)) with false. change (negb (1 =? 1)) with false.
    change (9600 =? 0) with false.
    change (round_div (5 * 9600) 9600) with 5.
    change (Z.abs 9600 <? Z.abs (5 * 9600 - 5 * 9600) * 1000000) with false.
    cbv iota. fold samples. now rewrite Eb. }
  split; [exact Hle|]. split; [apply decode_uplink|]. now rewrite Hv.
Qed.

(** X25: The uplink of the mission: for a sequence number below 2^32,
    [main] builds the SSTV telecommand, wraps it and modulates it into a
    file from which the satellite can read it (the frame is among the
    candidates of the demodulator, its payload is the telecommand, and
    the telecommand passes the verification); the same holds for the
    Set-MotD telecommand of a motd that [write_lp_string] accepts, and
    the motd is read back from it. *)
Theorem uplink_wav_roundtrip (seq : Z) :
  0 <= seq <= 0xFFFFFFFF ->
  (exists tc w,
      value (build_sstv hmac_digest seq) = Ok tc /\
      tx_sstv_wav upper_table hmac_digest seq = Ok w /\
      uplink_received hmac_digest tc w) /\
  (forall motd lp,
      Forall code_point motd -> write_lp_string motd = Ok lp ->
      exists tc w,
        value (build_set_motd hmac_digest seq motd) = Ok tc /\
        tx_motd_wav upper_table hmac_digest seq motd = Ok w /\
        uplink_received hmac_digest tc w /\
        read_lp_string tc 6 = Ok (motd, len tc - 32)).
Proof.
  intros Hs. split.
  - unfold tx_sstv_wav, build_sstv.
    apply (uplink_chain 0x5533 seq []);
      [lia | exact Hs | constructor | change (len []) with 0; lia].
  - intros motd lp Hm Hw.
    destruct (write_read_lp_string motd lp (be_bytes 2 0x5500 ++ be_bytes 4 seq)
                (hmac_digest HMAC_KEY (body_of 0x5500 seq lp)) Hm Hw)
      as [Hb [Hl [_ Hr]]].
    destruct (uplink_chain 0x5500 seq lp ltac:(lia) Hs Hb ltac:(lia))
      as [tc [w [H1 [H2 H3]]]].
    exists tc, w. unfold tx_motd_wav, build_set_motd. rewrite Hw.
    split; [exact H1|]. split; [exact H2|]. split; [exact H3|].
    rewrite (build_sequence_ok hmac_digest 0x5500 seq lp ltac:(lia) Hs) in H1.
    apply Ok_inj in H1. subst tc. unfold body_of.
    change (len (be_bytes 2 0x5500 ++ be_bytes 4 seq)) with 6 in Hr.
    replace ((be_bytes 2 0x5500 ++ be_bytes 4 seq ++ lp)
             ++ hmac_digest HMAC_KEY (be_bytes 2 0x5500 ++ be_bytes 4 seq ++ lp))
      with ((be_bytes 2 0x5500 ++ be_bytes 4 seq) ++ lp
            ++ hmac_digest HMAC_KEY (body_of 0x5500 seq lp))
      by (unfold body_of; now rewrite <- !app_assoc).
    rewrite Hr. f_equal. f_equal.
    unfold len. rewrite !length_app, digest_length.
    change (length (be_bytes 2 0x5500)) with 2%nat.
    change (length (be_bytes 4 seq)) with 4%nat. lia.
Qed.

End Uplink.

Lemma hmac_sha256_bytes (key msg : bytes) :
  Forall is_byte (SHA256.hmac_sha256 key msg).
Proof.
  unfold SHA256.hmac_sha256. cbv zeta. unfold SHA256.sha256 at 1. cbv zeta.
  match goal with
  | |- Forall is_byte (SHA256.digest_bytes ?s) => generalize s
  end.
  intros s. unfold SHA256.digest_bytes.
  assert (Hw : forall v w, Forall is_byte (SHA256.be_word v w)).
  { intros v w. unfold SHA256.be_word. apply Forall_forall. intros b Hb.
    apply in_map_iff in Hb. destruct Hb as [i [<- _]].
    unfold is_byte. change 0xFF with (Z.ones 8). rewrite Z.land_ones by lia.
    apply Z.mod_pos_bound. reflexivity. }
  repeat (apply Forall_app; split); apply Hw.
Qed.

Lemma uplink_wav_roundtrip_witness :
  exists tc w,
    value (build_sstv SHA256.hmac_sha256 7) = Ok tc /\
    tx_sstv_wav (fun c => [c]) SHA256.hmac_sha256 7 = Ok w /\
    uplink_received SHA256.hmac_sha256 tc w.
Proof.
  apply (uplink_wav_roundtrip SHA256.hmac_sha256 (fun c => [c])
           hmac_sha256_length hmac_sha256_bytes 7).
  lia.
Defined.

(** ** The runs of a mask *)

Lemma where_rising (mask : list bool) :
  forall (prev : bool) i,
    where_eq 1 i (diff_go (if prev then 1 else 0) (astype_int8 mask))
    = rising prev i mask.
Proof.
  induction mask as [|b r IH]; intros prev i; [reflexivity|].
  cbn [astype_int8 map diff_go where_eq rising]. fold (astype_int8 r).
  rewrite (IH b (i + 1)). now destruct b, prev.
Qed.

Lemma where_falling (mask : list bool) :
  forall (prev : bool) i,
    where_eq (-1) i (diff_go (if prev then 1 else 0) (astype_int8 mask))
    ++ (if last (prev :: mask) false then [i + len mask] else [])
    = falling prev i mask.
Proof.
  induction mask as [|b r IH]; intros prev i.
  - cbn [astype_int8 map diff_go where_eq falling last app].
    change (len []) with 0. rewrite Z.add_0_r. reflexivity.
  - cbn [astype_int8 map diff_go where_eq falling]. fold (astype_int8 r).
    specialize (IH b (i + 1)).
    replace (i + 1 + len r) with (i + len (b :: r)) in IH
      by (unfold len; cbn [length]; lia).
    change (last (prev :: b :: r) false) with (last (b :: r) false).
    rewrite <- IH. now destruct b, prev.
Qed.

(** The starts and the ends come in turns, so that [zip] pairs each
    start with the end of its run. *)
Lemma combine_edges (mask : list bool) :
  forall (prev : bool) i s,
    combine ((if prev then [s] else []) ++ rising prev i mask) (falling prev i mask)
    = runs_go i (if prev then Some s else None) mask.
Proof.
  induction mask as [|b r IH]; intros prev i s.
  - now destruct prev.
  - cbn [rising falling runs_go]. destruct prev, b; cbn [andb negb app combine].
    + apply (IH true (i + 1) s).
    + f_equal. apply (IH false (i + 1) s).
    + apply (IH true (i + 1) i).
    + apply (IH false (i + 1) s).
Qed.

Lemma run_starts_runs_go (mask : list bool) :
  _run_starts mask = runs_go 0 None mask.
Proof.
  destruct mask as [|first rest]; [reflexivity|].
  unfold _run_starts. cbv zeta.
  cbn [astype_int8 map diff_prepend_first diff_go where_eq]. fold (astype_int8 rest).
  rewrite Z.sub_diag. cbn [Z.eqb]. change (0 + 1) with 1.
  pose proof (where_rising rest first 1) as Hr.
  pose proof (where_falling rest first 1) as Hf.
  replace (1 + len rest) with (len (first :: rest)) in Hf
    by (unfold len; cbn [length]; lia).
  pose proof (combine_edges rest first 1 0) as Hc.
  rewrite <- Hr, <- Hf in Hc.
  destruct first; cbn [app] in Hc |- *.
  - destruct (last (true :: rest) false); [exact Hc|].
    now rewrite app_nil_r in Hc.
  - destruct (last (false :: rest) false); [exact Hc|].
    now rewrite app_nil_r in Hc.
Qed.

Lemma mask_at_app_r (pre rest : list bool) (j : Z) :
  len pre <= j -> mask_at (pre ++ rest) j = mask_at rest (j - len pre).
Proof.
  intros H. unfold mask_at, len in *. rewrite app_nth2 by lia. f_equal. lia.
Qed.

Lemma mask_at_app_l (pre rest : list bool) (j : Z) :
  0 <= j < len pre -> mask_at (pre ++ rest) j = mask_at pre j.
Proof. intros H. unfold mask_at, len in *. apply app_nth1. lia. Qed.

Lemma runs_go_sound (rest : list bool) :
  forall pre open,
    open_ok pre open ->
    forall s e, In (s, e) (runs_go (len pre) open rest) -> is_run (pre ++ rest) s e.
Proof.
  induction rest as [|b r IH]; intros pre open Hopen s e Hin.
  - rewrite app_nil_r. destruct open as [s0|]; [|destruct Hin].
    destruct Hin as [E | []]. injection E as <- <-.
    destruct Hopen as [H1 [H2 H3]]. repeat split; try lia; auto.
  - assert (Hlen : len (pre ++ [b]) = len pre + 1)
      by (unfold len; rewrite length_app; cbn [length]; lia).
    assert (Hb : mask_at (pre ++ [b]) (len pre) = b).
    { rewrite mask_at_app_r by lia. rewrite Z.sub_diag. reflexivity. }
    assert (Hpre : forall j, 0 <= j < len pre ->
                             mask_at (pre ++ [b]) j = mask_at pre j)
      by (intros j Hj; now apply mask_at_app_l).
    assert (Hp : 0 <= len pre) by (unfold len; lia).
    replace (pre ++ b :: r) with ((pre ++ [b]) ++ r) by (now rewrite <- app_assoc).
    cbn [runs_go] in Hin. rewrite <- Hlen in Hin. destruct b.
    + apply (IH (pre ++ [true]) _) in Hin; [exact Hin|].
      destruct open as [s0|]; cbn [open_ok].
      * destruct Hopen as [H1 [H2 H3]]. split; [lia|]. split.
        -- intros j Hj. destruct (Z.eq_dec j (len pre)) as [-> | Hne]; [exact Hb|].
           rewrite Hpre by lia. apply H2. lia.
        -- intros H0. rewrite Hpre by lia. now apply H3.
      * split; [lia|]. split.
        -- intros j Hj. replace j with (len pre) by lia. exact Hb.
        -- intros H0. rewrite Hpre by lia.
           destruct Hopen as [-> | H]; [change (len []) with 0 in H0; lia | exact H].
    + assert (Hnone : open_ok (pre ++ [false]) None).
      { right. rewrite Hlen. replace (len pre + 1 - 1) with (len pre) by lia.
        exact Hb. }
      destruct open as [s0|].
      * destruct Hin as [E | Hin]; [|now apply (IH (pre ++ [false]) None)].
        injection E as <- <-. destruct Hopen as [H1 [H2 H3]].
        assert (Hall : len ((pre ++ [false]) ++ r) = len pre + 1 + len r).
        { unfold len. rewrite !length_app. cbn [length]. lia. }
        assert (Hr : 0 <= len r) by (unfold len; lia).
        repeat split; try lia.
        -- intros j Hj. rewrite mask_at_app_l by lia. rewrite Hpre by lia.
           apply H2. lia.
        -- intros H0. rewrite mask_at_app_l by lia. rewrite Hpre by lia.
           now apply H3.
        -- intros _. rewrite mask_at_app_l by lia. exact Hb.
      * now apply (IH (pre ++ [false]) None).
Qed.

Lemma runs_go_complete (rest : list bool) :
  forall pre open,
    (forall s, open = Some s -> 0 <= s < len pre) ->
    forall j,
      mask_at (pre ++ rest) j = true ->
      (len pre <= j < len pre + len rest \/
       exists s, open = Some s /\ s <= j < len pre) ->
      exists s e, In (s, e) (runs_go (len pre) open rest) /\ s <= j < e.
Proof.
  induction rest as [|b r IH]; intros pre open Hopen j Hj Hpos.
  - change (len []) with 0 in Hpos.
    destruct Hpos as [H | [s [-> H]]]; [lia|].
    exists s, (len pre). split; [now left | lia].
  - assert (Hlen : len (pre ++ [b]) = len pre + 1)
      by (unfold len; rewrite length_app; cbn [length]; lia).
    assert (Hlr : len (b :: r) = 1 + len r) by (unfold len; cbn [length]; lia).
    assert (Hp : 0 <= len pre) by (unfold len; lia).
    replace (pre ++ b :: r) with ((pre ++ [b]) ++ r) in Hj
      by (now rewrite <- app_assoc).
    cbn [runs_go]. rewrite <- Hlen. rewrite Hlr in Hpos. destruct b.
    + apply (IH (pre ++ [true]) _); [| exact Hj |].
      * intros s E. injection E as <-. destruct open as [s0|]; [|lia].
        specialize (Hopen s0 eq_refl). lia.
      * destruct Hpos as [H | [s [-> H]]].
        -- destruct (Z.lt_ge_cases j (len pre + 1)) as [Hlt | Hge]; [|left; lia].
           right. destruct open as [s0|].
           ++ exists s0. specialize (Hopen s0 eq_refl). split; [reflexivity | lia].
           ++ exists (len pre). split; [reflexivity | lia].
        -- right. exists s. split; [reflexivity | lia].
    + assert (Hne : j <> len pre).
      { intros ->. rewrite mask_at_app_l in Hj by lia.
        rewrite mask_at_app_r in Hj by lia. rewrite Z.sub_diag in Hj.
        discriminate Hj. }
      destruct Hpos as [H | [s [-> H]]].
      * destruct (IH (pre ++ [false]) None ltac:(discriminate) j Hj ltac:(left; lia))
          as [s [e [Hin Hse]]].
        destruct open as [s0|]; exists s, e; (split; [|exact Hse]);
          [now right | exact Hin].
      * exists s, (len pre). split; [now left | lia].
Qed.

Lemma runs_go_ordered (rest : list bool) :
  forall i open,
    (forall s, open = Some s -> s < i) ->
    StronglySorted (fun a b : Z * Z => snd a < fst b) (runs_go i open rest) /\
    forall s e, In (s, e) (runs_go i open rest) ->
                (open = Some s \/ i <= s) /\ i <= e.
Proof.
  induction rest as [|b r IH]; intros i open Hopen.
  - destruct open as [s0|]; cbn [runs_go].
    + split; [repeat constructor|]. intros s e [E | []]. injection E as <- <-.
      split; [now left | specialize (Hopen s0 eq_refl); lia].
    + split; [constructor | intros s e []].
  - cbn [runs_go]. destruct b.
    + destruct (IH (i + 1) (Some (match open with Some s => s | None => i end)))
        as [Hs Hb].
      { intros s E. injection E as <-. destruct open as [s0|]; [|lia].
        specialize (Hopen s0 eq_refl). lia. }
      split; [exact Hs|]. intros s e Hin. destruct (Hb s e Hin) as [[E | H1] H2].
      * injection E as <-. destruct open as [s0|]; [split; [now left | lia]|].
        split; [right; lia | lia].
      * split; [right; lia | lia].
    + destruct (IH (i + 1) None ltac:(discriminate)) as [Hs Hb].
      destruct open as [s0|].
      * split.
        -- constructor; [exact Hs|]. apply Forall_forall. intros [s e] Hin.
           destruct (Hb s e Hin) as [[E | H1] _]; [discriminate E|]. cbn. lia.
        -- intros s e [E | Hin].
           ++ injection E as <- <-. split; [now left | lia].
           ++ destruct (Hb s e Hin) as [[E | H1] H2]; [discriminate E|].
              split; [right; lia | lia].
      * split; [exact Hs|]. intros s e Hin.
        destruct (Hb s e Hin) as [[E | H1] H2]; [discriminate E|].
        split; [right; lia | lia].
Qed.

(** X26: [_run_starts] returns the runs of [True] of the mask, each of them
    whole, all of them, from left to right: the mask is [True] from a
    start to the index before its end, [False] just before the start
    and at the end where these lie in the mask; every index where the
    mask is [True] lies in one of the pairs; and each pair ends before
    the next one starts. *)
Theorem run_starts_runs (mask : list bool) :
  (forall s e, In (s, e) (_run_starts mask) -> is_run mask s e) /\
  (forall j, 0 <= j < len mask -> mask_at mask j = true ->
             exists s e, In (s, e) (_run_starts mask) /\ s <= j < e) /\
  StronglySorted (fun a b : Z * Z => snd a < fst b) (_run_starts mask).
Proof.
  rewrite run_starts_runs_go. split; [|split].
  - intros s e Hin. apply (runs_go_sound mask [] None); [now left | exact Hin].
  - intros j Hj Ht.
    apply (runs_go_complete mask [] None); [discriminate | exact Ht |].
    left. change (len []) with 0. lia.
  - apply (runs_go_ordered mask 0 None). discriminate.
Qed.

Lemma run_starts_runs_witness :
  _run_starts sample_mask = [(0, 2); (4, 7); (8, 9)] /\
  is_run sample_mask 4 7.
Proof.
  split; [reflexivity|].
  apply (proj1 (run_starts_runs sample_mask)). right. now left.
Defined.

(** ** The verifier on a packet with one byte changed *)

(** X27: Telecommands under HMAC-SHA-256, nothing assumed of the digest: a
    packet built from a command type in 0..0xFFFF and a sequence in
    0..0xFFFFFFFF is the body followed by its tag, 38 bytes and the
    payload, and passes [verify_telecommand], which computes one digest
    and compares once.  The packet with any one byte of the tag changed
    is refused with "Bad HMAC".  The packet with one byte of the body
    changed passes exactly when HMAC-SHA-256 gives the changed body the
    tag of the body, and is refused with "Bad HMAC" otherwise.  An
    input of fewer than 38 bytes is refused before any digest is
    computed. *)
Theorem telecommand_changed_byte (ct sq : Z) (payload : bytes) :
  0 <= ct <= 0xFFFF -> 0 <= sq <= 0xFFFFFFFF ->
  let body := body_of ct sq payload in
  let tag := SHA256.hmac_sha256 HMAC_KEY body in
  let packet := body ++ tag in
  build_telecommand SHA256.hmac_sha256 ct sq payload
  = (Ok packet, [EvHmac HMAC_KEY body]) /\
  len packet = 38 + len payload /\
  verify_telecommand SHA256.hmac_sha256 packet
  = (None, [EvHmac HMAC_KEY body; EvCompareDigest tag tag]) /\
  (forall i v,
     (length body <= i < length packet)%nat -> v <> nth i packet 0 ->
     value (verify_telecommand SHA256.hmac_sha256 (set_byte i v packet))
     = Some "Bad HMAC"%string) /\
  (forall i v,
     (i < length body)%nat ->
     (value (verify_telecommand SHA256.hmac_sha256 (set_byte i v packet)) = None
      <-> SHA256.hmac_sha256 HMAC_KEY (set_byte i v body) = tag) /\
     (value (verify_telecommand SHA256.hmac_sha256 (set_byte i v packet))
      = Some "Bad HMAC"%string
      <-> SHA256.hmac_sha256 HMAC_KEY (set_byte i v body) <> tag)) /\
  (forall p, len p < 2 + 4 + 32 ->
     verify_telecommand SHA256.hmac_sha256 p
     = (Some "Telecommand too short"%string, [])).
Proof.
  intros Hc Hs body tag packet.
  assert (Hbl : length body = (6 + length payload)%nat)
    by (unfold body; apply length_body_of).
  assert (Htl : length tag = 32%nat) by apply hmac_sha256_length.
  split; [now apply build_telecommand_ok|]. split.
  { unfold packet, len. rewrite length_app, Hbl, Htl. lia. }
  split.
  { unfold packet. rewrite verify_split by (try exact Htl; lia).
    fold tag. now rewrite bytes_eqb_refl. }
  split; [|split; [|apply verify_short]].
  - intros i v Hi Hv. unfold packet in *. rewrite length_app, Htl in Hi.
    rewrite app_nth2 in Hv by lia. rewrite set_byte_app_r by lia.
    apply (verify_tag_flip SHA256.hmac_sha256 hmac_sha256_length); [lia | lia | exact Hv].
  - intros i v Hi. unfold packet. rewrite set_byte_app_l by exact Hi.
    rewrite (verify_body_flip SHA256.hmac_sha256 hmac_sha256_length) by (try exact Hi; lia).
    fold tag.
    destruct (bytes_eqb tag (SHA256.hmac_sha256 HMAC_KEY (set_byte i v body))) eqn:E.
    + apply bytes_eqb_eq in E. split; split; intros H; congruence.
    + assert (Hne : SHA256.hmac_sha256 HMAC_KEY (set_byte i v body) <> tag).
      { intros H. symmetry in H. apply bytes_eqb_eq in H. congruence. }
      split; split; intros H; congruence.
Qed.

Lemma telecommand_changed_byte_witness :
  verify_telecommand SHA256.hmac_sha256
    (body_of 0x5533 7 [] ++ SHA256.hmac_sha256 HMAC_KEY (body_of 0x5533 7 []))
  = (None, [EvHmac HMAC_KEY (body_of 0x5533 7 []);
            EvCompareDigest (SHA256.hmac_sha256 HMAC_KEY (body_of 0x5533 7 []))
                            (SHA256.hmac_sha256 HMAC_KEY (body_of 0x5533 7 []))]).
Proof.
  destruct (telecommand_changed_byte 0x5533 7 [] ltac:(lia) ltac:(lia))
    as [_ [_ [Hv _]]].
  exact Hv.
Defined.

